(** * Linear time-invariant systems: representations, state-space algebra
      and discrete-time simulation (cupyx/scipy/signal/_ltisys.py)

    The Python module is embedded shallowly.  Array elements are exact
    rationals ([Qc]); rounding of binary floating point is outside the
    model, with one exception: the quotient that decides the number of
    output samples is a parameter ([Quotient]), and what is proved of the
    number of samples holds for every rounding.  Python exceptions are values of [exn], and every routine that
    can raise returns in the [py] monad.  The unspecified sampling time
    [dt=True] is the number one, as it is in Python arithmetic. *)

From Stdlib Require Import QArith Qcanon Qround ZArith Lia.
From stdpp Require Import base numbers option list.

(** ** Exceptions and results *)

(** The exception classes the module and its array primitives raise.  The
    specification's names map onto them: NotDiscreteTime is
    [AttributeError], IncompatibleDimensions, InvalidArity and
    AmbiguousOperation are [ValueError], IncompatibleTimeDomain is
    [TypeError]. *)
Inductive exn : Set :=
| ValueError
| TypeError
| AttributeError
| IndexError
| OverflowError
| ZeroDivisionError
| UnboundLocalError
| NotImplementedError.

Inductive py (A : Type) : Type :=
| Ok (a : A)
| Raise (e : exn).
Arguments Ok {A} a.
Arguments Raise {A} e.

#[global] Instance py_ret : MRet py := λ A a, Ok a.
#[global] Instance py_bind : MBind py :=
  λ A B f m, match m with Ok a => f a | Raise e => Raise e end.
#[global] Instance py_fmap : FMap py :=
  λ A B f m, match m with Ok a => Ok (f a) | Raise e => Raise e end.

#[global] Instance exn_eq_dec : EqDecision exn.
Proof. solve_decision. Defined.
#[global] Instance py_eq_dec `{EqDecision A} : EqDecision (py A).
Proof. solve_decision. Defined.

Definition is_ok {A} (r : py A) : Prop := ∃ a, r = Ok a.
Definition raises {A} (r : py A) : Prop := ∃ e, r = Raise e.

(** [for i in range(...)] over a state that the body may fail to update. *)
Fixpoint for_range {S : Type} (body : nat → S → py S) (idx : list nat) (s : S)
  : py S :=
  match idx with
  | [] => Ok s
  | i :: idx' => s' ← body i s; for_range body idx' s'
  end.

(** ** Arrays *)

Abbreviation vec := (list Qc).

(** A two-dimensional array keeps its column count next to its rows, so
    that an array of shape (0, n) still knows n. *)
Record matrix : Set := Mat { ncols : nat; rows : list vec }.

#[global] Instance matrix_eq_dec : EqDecision matrix.
Proof. solve_decision. Defined.

Definition nrows (M : matrix) : nat := length (rows M).
Definition shape (M : matrix) : nat * nat := (nrows M, ncols M).

(** Representation invariant of a 2-D array: every row has [ncols] entries. *)
Definition mat_ok (M : matrix) : Prop :=
  Forall (λ r, length r = ncols M) (rows M).

#[global] Instance mat_ok_dec M : Decision (mat_ok M).
Proof. unfold mat_ok. apply _. Defined.

(** Entry (i, j), zero outside the array. *)
Definition get (M : matrix) (i j : nat) : Qc :=
  nth j (nth i (rows M) []) 0%Qc.

Definition row (M : matrix) (i : nat) : vec := nth i (rows M) [].

(** Arrays of rank 0, 1 and 2, the ranks an array-like argument can have. *)
Inductive ndarray : Set :=
| Arr0 (x : Qc)
| Arr1 (v : vec)
| Arr2 (M : matrix).

#[global] Instance ndarray_eq_dec : EqDecision ndarray.
Proof. solve_decision. Defined.

Definition ndim (a : ndarray) : nat :=
  match a with Arr0 _ => 0 | Arr1 _ => 1 | Arr2 _ => 2 end.

(** [cupy.zeros] *)
Definition zeros1 (n : nat) : vec := replicate n 0%Qc.
Definition zeros (m n : nat) : matrix := Mat n (replicate m (zeros1 n)).
Definition ones1 (n : nat) : vec := replicate n 1%Qc.

(** [cupy.atleast_1d], [cupy.atleast_2d], [.T], [.ravel()] *)
Definition atleast_1d (a : ndarray) : ndarray :=
  match a with Arr0 x => Arr1 [x] | _ => a end.

Definition atleast_2d (a : ndarray) : matrix :=
  match a with
  | Arr0 x => Mat 1 [[x]]
  | Arr1 v => Mat (length v) [v]
  | Arr2 M => M
  end.

Definition column (M : matrix) (j : nat) : vec :=
  fmap (λ r, nth j r 0%Qc) (rows M).

Definition transpose (M : matrix) : matrix :=
  Mat (nrows M) (fmap (column M) (seq 0 (ncols M))).

Definition ravel (a : ndarray) : vec :=
  match a with
  | Arr0 x => [x]
  | Arr1 v => v
  | Arr2 M => concat (rows M)
  end.

(** [len(a)]: the first dimension; a rank-0 array has none. *)
Definition len (a : ndarray) : py nat :=
  match a with
  | Arr0 _ => Raise TypeError
  | Arr1 v => Ok (length v)
  | Arr2 M => Ok (nrows M)
  end.

(** [cupy.hstack] and [cupy.vstack] of two 2-D arrays: the dimension that
    is not concatenated must agree. *)
Definition hstack (M N : matrix) : py matrix :=
  if decide (nrows M = nrows N)
  then Ok (Mat (ncols M + ncols N) (zip_with app (rows M) (rows N)))
  else Raise ValueError.

Definition vstack (M N : matrix) : py matrix :=
  if decide (ncols M = ncols N)
  then Ok (Mat (ncols M) (rows M ++ rows N))
  else Raise ValueError.

(** [hstack] of 1-D arrays is plain concatenation. *)
Definition hstack1 (u v : vec) : vec := u ++ v.

(** [linalg.block_diag] of two 2-D arrays. *)
Definition block_diag (M N : matrix) : matrix :=
  Mat (ncols M + ncols N)
      (fmap (λ r, r ++ zeros1 (ncols N)) (rows M) ++
       fmap (λ r, zeros1 (ncols M) ++ r) (rows N)).

(** Sums and inner products. *)
Definition vsum (v : vec) : Qc := foldr Qcplus 0%Qc v.
Definition dot (u v : vec) : Qc := vsum (zip_with Qcmult u v).

(** The matrix products without their shape checks. *)
Definition mv (M : matrix) (v : vec) : vec := fmap (λ r, dot r v) (rows M).
Definition vm (v : vec) (N : matrix) : vec :=
  fmap (λ j, dot v (column N j)) (seq 0 (ncols N)).
Definition mm (M N : matrix) : matrix :=
  Mat (ncols N) (fmap (λ r, vm r N) (rows M)).

(** The [@] operator.  Rank-0 operands are rejected; the inner dimensions
    must agree. *)
Definition matvec (M : matrix) (v : vec) : py vec :=
  if decide (ncols M = length v) then Ok (mv M v) else Raise ValueError.

Definition vecmat (v : vec) (N : matrix) : py vec :=
  if decide (length v = nrows N) then Ok (vm v N) else Raise ValueError.

Definition matmat (M N : matrix) : py matrix :=
  if decide (ncols M = nrows N) then Ok (mm M N) else Raise ValueError.

Definition matmul (a b : ndarray) : py ndarray :=
  match a, b with
  | Arr0 _, _ | _, Arr0 _ => Raise ValueError
  | Arr1 u, Arr1 v =>
      if decide (length u = length v) then Ok (Arr0 (dot u v))
      else Raise ValueError
  | Arr1 u, Arr2 N => Arr1 <$> vecmat u N
  | Arr2 M, Arr1 v => Arr1 <$> matvec M v
  | Arr2 M, Arr2 N => Arr2 <$> matmat M N
  end.

(** Broadcasting.  A dimension of size one stretches to the other size. *)
Definition broadcast1 (v : vec) (n : nat) : py vec :=
  if decide (length v = n) then Ok v
  else match v with
       | [x] => Ok (replicate n x)
       | _ => Raise ValueError
       end.

Definition add1 (u v : vec) : py vec :=
  if decide (length u = length v) then Ok (zip_with Qcplus u v)
  else match u, v with
       | [x], _ => Ok (fmap (Qcplus x) v)
       | _, [y] => Ok (fmap (λ a, a + y)%Qc u)
       | _, _ => Raise ValueError
       end.

Definition bdim (a b : nat) : py nat :=
  if decide (a = b) then Ok a
  else if decide (a = 1) then Ok b
  else if decide (b = 1) then Ok a
  else Raise ValueError.

Definition stretch {A : Type} (l : list A) (n : nat) : list A :=
  if decide (length l = n) then l
  else match l with
       | [x] => replicate n x
       | _ => l
       end.

Definition broadcast_to (M : matrix) (r c : nat) : matrix :=
  Mat c (fmap (λ v, stretch v c) (stretch (rows M) r)).

(** Elementwise [+] and unary [-] of 2-D arrays. *)
Definition madd (M N : matrix) : py matrix :=
  r ← bdim (nrows M) (nrows N);
  c ← bdim (ncols M) (ncols N);
  Ok (Mat c (zip_with (zip_with Qcplus)
               (rows (broadcast_to M r c)) (rows (broadcast_to N r c)))).

Definition mneg (M : matrix) : matrix :=
  Mat (ncols M) (fmap (λ r : vec, fmap Qcopp r) (rows M)).

(** Unary [-] of an array of any rank. *)
Definition aneg (a : ndarray) : ndarray :=
  match a with
  | Arr0 x => Arr0 (- x)%Qc
  | Arr1 v => Arr1 (fmap Qcopp v)
  | Arr2 M => Arr2 (mneg M)
  end.

(** Indexing [M[i, :]] and the assignment [M[i, :] = v]. *)
Definition get_row (M : matrix) (i : nat) : py vec :=
  match rows M !! i with
  | Some r => Ok r
  | None => Raise IndexError
  end.

Definition set_row (M : matrix) (i : nat) (v : vec) : py matrix :=
  if decide (i < nrows M)
  then v' ← broadcast1 v (ncols M);
       Ok (Mat (ncols M) (<[i := v']> (rows M)))
  else Raise IndexError.

Definition assign_row (M : matrix) (i : nat) (a : ndarray) : py matrix :=
  match a with
  | Arr0 x => set_row M i [x]
  | Arr1 v => set_row M i v
  | Arr2 V =>
      if decide (nrows V = 1) then set_row M i (row V 0)
      else Raise ValueError
  end.

(** [t[-1]] *)
Definition last_elem (t : vec) : py Qc :=
  match last t with
  | Some x => Ok x
  | None => Raise IndexError
  end.

Definition Qc_of_nat (n : nat) : Qc := Qc_of_Z (Z.of_nat n).

(** [cupy.linspace(start, stop, num, endpoint)] *)
Definition linspace (start stop : Qc) (num : nat) (endpoint : bool) : vec :=
  let div := if endpoint then num - 1 else num in
  let step := ((stop - start) / Qc_of_nat div)%Qc in
  fmap (λ i, start + Qc_of_nat i * step)%Qc (seq 0 num).

(** The quotient [a / b] as the code computes it.  In binary64 it is the
    exact quotient rounded, which can fall on the other side of an integer
    (0.3 / 0.1 is below 3), so the model leaves it unspecified: what is
    proved of the number of samples holds for every rounding. *)
Class Quotient : Type := { fdiv : Qc → Qc → Qc }.

(** [int(cupy.floor(a / b))]: a zero divisor gives an infinity or a NaN,
    which [int] refuses. *)
Definition int_floor_div `{Quotient} (a b : Qc) : py Z :=
  if decide (b = 0%Qc)
  then Raise (if decide (a = 0%Qc) then ValueError else OverflowError)
  else Ok (Qfloor (fdiv a b)).

(** The line through (t0, u0) and (t1, u1) at [x], and the piecewise-linear
    function through the samples [us] at the times [t]; the first and the
    last piece continue beyond the samples. *)
Definition lerp (t0 t1 : Qc) (u0 u1 : vec) (x : Qc) : vec :=
  zip_with (λ a b, a + (x - t0) / (t1 - t0) * (b - a))%Qc u0 u1.

Fixpoint segment (t : vec) (us : list vec) (x : Qc) : vec :=
  match t, us with
  | t0 :: ((t1 :: t2) as t'), u0 :: ((u1 :: _) as us') =>
      if bool_decide (x < t1)%Qc || bool_decide (t2 = [])
      then lerp t0 t1 u0 u1 x
      else segment t' us' x
  | _, _ => []
  end.

Fixpoint increasing (t : vec) : bool :=
  match t with
  | a :: ((b :: _) as t') => bool_decide (a < b)%Qc && increasing t'
  | _ => true
  end.

(** Modelled from the spec: the degree-1 interpolation primitive
    [make_interp_spline(t, u, k=1)] of cupyx.scipy.interpolate, which is not
    part of this file.  Given sample times, sample values (one row per
    sample time) and query times it returns the interpolated values: the
    piecewise-linear function through the samples.  The model covers the
    calls with as many sample times as sample rows, strictly increasing and
    at least two, and refuses the others with ValueError.  With a single
    sample time the primitive that the code calls returns not-a-number
    values instead, which the array elements of the model do not include:
    the properties of the calls that return say nothing of such a call, and
    the relation of the impulse and the step response is stated for two or
    more samples. *)
Definition make_interp_spline1 (t : vec) (u : matrix) (tq : vec) : py matrix :=
  if decide (length t = nrows u ∧ 2 ≤ length t ∧ increasing t = true)
  then Ok (Mat (ncols u) (fmap (segment t (rows u)) tq))
  else Raise ValueError.

(** ** The three representations and the two time domains *)

(** [lti] subclasses are continuous ([dt] is [None]); [dlti] subclasses
    carry their sampling time. *)
Inductive timedomain : Set :=
| Continuous
| Discrete (dt : Qc).

#[global] Instance timedomain_eq_dec : EqDecision timedomain.
Proof. solve_decision. Defined.

Record TransferFunction : Set :=
  TF { num : ndarray; den : vec; tf_dom : timedomain }.

Record ZerosPolesGain : Set :=
  ZPK { zpk_zeros : ndarray; zpk_poles : ndarray; zpk_gain : ndarray;
        zpk_dom : timedomain }.

Record StateSpace : Set :=
  SS { A : matrix; B : matrix; C : matrix; D : matrix;
       ss_dom : timedomain }.

Inductive LinearTimeInvariant : Set :=
| IsTF (s : TransferFunction)
| IsZPK (s : ZerosPolesGain)
| IsSS (s : StateSpace).

#[global] Instance TransferFunction_eq_dec : EqDecision TransferFunction.
Proof. solve_decision. Defined.
#[global] Instance ZerosPolesGain_eq_dec : EqDecision ZerosPolesGain.
Proof. solve_decision. Defined.
#[global] Instance StateSpace_eq_dec : EqDecision StateSpace.
Proof. solve_decision. Defined.
#[global] Instance LinearTimeInvariant_eq_dec : EqDecision LinearTimeInvariant.
Proof. solve_decision. Defined.

Definition domain (s : LinearTimeInvariant) : timedomain :=
  match s with
  | IsTF s => tf_dom s
  | IsZPK s => zpk_dom s
  | IsSS s => ss_dom s
  end.

(** [isinstance(s, lti)], [isinstance(s, dlti)], [isinstance(s, StateSpace)] *)
Definition is_lti (s : LinearTimeInvariant) : bool :=
  match domain s with Continuous => true | Discrete _ => false end.
Definition is_dlti (s : LinearTimeInvariant) : bool :=
  match domain s with Continuous => false | Discrete _ => true end.
Definition is_StateSpace (s : LinearTimeInvariant) : bool :=
  match s with IsSS _ => true | _ => false end.
Definition is_TransferFunction (s : LinearTimeInvariant) : bool :=
  match s with IsTF _ => true | _ => false end.

(** The invariant of a [StateSpace] object: [A] is n x n, [B] is n x p,
    [C] is q x n and [D] is q x p.  [abcd_ok] adds that the four arrays
    are rectangular. *)
Definition abcd_shapes (a b c d : matrix) : Prop :=
  ncols a = nrows a ∧ nrows b = nrows a ∧ ncols c = nrows a ∧
  nrows d = nrows c ∧ ncols d = ncols b.

Definition abcd_ok (a b c d : matrix) : Prop :=
  mat_ok a ∧ mat_ok b ∧ mat_ok c ∧ mat_ok d ∧ abcd_shapes a b c d.

Definition ss_shapes (s : StateSpace) : Prop :=
  abcd_shapes (A s) (B s) (C s) (D s).

Definition ss_ok (s : StateSpace) : Prop := abcd_ok (A s) (B s) (C s) (D s).

#[global] Instance abcd_shapes_dec a b c d : Decision (abcd_shapes a b c d).
Proof. unfold abcd_shapes. apply _. Defined.
#[global] Instance abcd_ok_dec a b c d : Decision (abcd_ok a b c d).
Proof. unfold abcd_ok. apply _. Defined.
#[global] Instance ss_shapes_dec s : Decision (ss_shapes s).
Proof. unfold ss_shapes. apply _. Defined.
#[global] Instance ss_ok_dec s : Decision (ss_ok s).
Proof. unfold ss_ok. apply _. Defined.

(** [self.dt], and the two tests the binary operators make on it. *)
Definition dt_of (d : timedomain) : option Qc :=
  match d with Continuous => None | Discrete dt => Some dt end.

Definition same_type (d1 d2 : timedomain) : bool :=
  match d1, d2 with
  | Continuous, Continuous | Discrete _, Discrete _ => true
  | _, _ => false
  end.

(** Arithmetic on [system.dt]; [None] is no number. *)
Definition dt_value (d : timedomain) : py Qc :=
  match d with Continuous => Raise TypeError | Discrete dt => Ok dt end.

(** ** The conversion layer *)

(** Complex numbers with rational parts, for frequency responses. *)
Record complex : Set := Cx { re : Qc; im : Qc }.

#[global] Instance complex_eq_dec : EqDecision complex.
Proof. solve_decision. Defined.

(** The coefficient conversions of cupyx.scipy.signal, and the evaluation of
    a zeros-poles-gain response, are defined in other files of the package
    and are taken as parameters.  [freqz_grid n whole] is the grid of [n]
    frequencies that the evaluator chooses when none is given. *)
Class Conversions : Type := {
  normalize : ndarray → ndarray → py (ndarray * vec);
  tf2ss : ndarray → vec → py (ndarray * ndarray * ndarray * ndarray);
  zpk2ss : ndarray → ndarray → ndarray →
           py (ndarray * ndarray * ndarray * ndarray);
  ss2tf : matrix → matrix → matrix → matrix → py (ndarray * ndarray);
  zpk2tf : ndarray → ndarray → ndarray → py (ndarray * ndarray);
  freqz_grid : nat → bool → list complex;
  freqz_zpk : ndarray → ndarray → ndarray → list complex + nat → bool →
              py (list complex * list (option complex));
}.

(** Modelled from the spec: [abcd_normalize] of
    cupyx.scipy.signal._lti_conversion, which is not part of this file.  It
    makes the four arrays two-dimensional and accepts them when [A] is
    square, [B] has as many rows as [A], [C] as many columns as [A], and [D]
    has the rows of [C] and the columns of [B]; the filling in of omitted
    matrices is not modelled. *)
Definition abcd_normalize (a b c d : ndarray)
  : py (matrix * matrix * matrix * matrix) :=
  let a := atleast_2d a in
  let b := atleast_2d b in
  let c := atleast_2d c in
  let d := atleast_2d d in
  if decide (abcd_shapes a b c d) then Ok (a, b, c, d)
  else Raise ValueError.

(** ** TransferFunction *)

Module TransferFunction_.
Section methods.
Context `{Conversions}.
Context `{rounding : Quotient}.

(** [TransferFunction(num, den, dt=...)] *)
Definition __init__ (n d : ndarray) (dom : timedomain)
  : py TransferFunction :=
  '(n, d) ← normalize n d;
  Ok (TF (atleast_1d n) d dom).

(** The [num] setter derives the dimensions. *)
Definition outputs (s : TransferFunction) : nat :=
  match num s with Arr2 M => nrows M | _ => 1 end.
Definition inputs (s : TransferFunction) : nat :=
  match num s with Arr2 M => ncols M | _ => 1 end.

Definition to_tf (s : TransferFunction) : py TransferFunction := Ok s.

(** The state-space form that [tf2ss] gives, in the same time domain. *)
Definition to_ss (s : TransferFunction) : py StateSpace :=
  '(a, b, c, d) ← tf2ss (num s) (den s);
  '(a, b, c, d) ← abcd_normalize a b c d;
  Ok (SS a b c d (tf_dom s)).

Definition _z_to_zinv (n d : vec) : vec * vec :=
  let diff := (Z.of_nat (length n) - Z.of_nat (length d))%Z in
  if decide (0 < diff)%Z then (n, hstack1 (zeros1 (Z.to_nat diff)) d)
  else if decide (diff < 0)%Z then (hstack1 (zeros1 (Z.to_nat (- diff))) n, d)
  else (n, d).

Definition _zinv_to_z (n d : vec) : vec * vec :=
  let diff := (Z.of_nat (length n) - Z.of_nat (length d))%Z in
  if decide (0 < diff)%Z then (n, hstack1 d (zeros1 (Z.to_nat diff)))
  else if decide (diff < 0)%Z then (hstack1 n (zeros1 (Z.to_nat (- diff))), d)
  else (n, d).
End methods.
End TransferFunction_.

(** ** ZerosPolesGain *)

Module ZerosPolesGain_.
Section methods.
Context `{Conversions}.
Context `{rounding : Quotient}.

Definition __init__ (z p k : ndarray) (dom : timedomain)
  : py ZerosPolesGain :=
  Ok (ZPK (atleast_1d z) (atleast_1d p) k dom).

Definition outputs (s : ZerosPolesGain) : nat :=
  match zpk_zeros s with Arr2 M => nrows M | _ => 1 end.
Definition inputs (s : ZerosPolesGain) : nat :=
  match zpk_zeros s with Arr2 M => ncols M | _ => 1 end.

Definition to_tf (s : ZerosPolesGain) : py TransferFunction :=
  '(n, d) ← zpk2tf (zpk_zeros s) (zpk_poles s) (zpk_gain s);
  TransferFunction_.__init__ n d (zpk_dom s).

Definition to_ss (s : ZerosPolesGain) : py StateSpace :=
  '(a, b, c, d) ← zpk2ss (zpk_zeros s) (zpk_poles s) (zpk_gain s);
  '(a, b, c, d) ← abcd_normalize a b c d;
  Ok (SS a b c d (zpk_dom s)).
End methods.
End ZerosPolesGain_.

(** ** StateSpace *)

(** The right operand of a binary operator: a system, a [cupy.ndarray], a
  number ([int], [float], [complex], [cupy.number]), or a value of any
  other type. *)
Inductive operand : Set :=
| OpSystem (s : LinearTimeInvariant)
| OpArray (a : ndarray)
| OpNumber (x : Qc)
| OpOther.

(** An operator method either hands back [NotImplemented] or runs. *)
Definition NotImplemented {T : Type} : option (py T) := None.

Module StateSpace_.
Section methods.
Context `{Conversions}.
Context `{rounding : Quotient}.

(** [StateSpace(a, b, c, d, dt=...)] *)
Definition __init__ (a b c d : ndarray) (dom : timedomain) : py StateSpace :=
  '(a, b, c, d) ← abcd_normalize a b c d;
  Ok (SS a b c d dom).

Definition inputs (s : StateSpace) : nat := ncols (B s).
Definition outputs (s : StateSpace) : nat := nrows (C s).

Definition _check_binop_other (other : operand) : bool :=
  match other with
  | OpSystem (IsSS _) | OpArray _ | OpNumber _ => true
  | _ => false
  end.

Definition is_ss_operand (other : operand) : bool :=
  match other with OpSystem (IsSS _) => true | _ => false end.

(** [M @ other] for an operand that is not a system.  A Python number is
    not an array and [@] does not take it. *)
Definition matmul_operand (M : matrix) (other : operand) : py ndarray :=
  match other with
  | OpArray a => matmul (Arr2 M) a
  | _ => Raise TypeError
  end.

Definition operand_matmul (other : operand) (M : matrix) : py ndarray :=
  match other with
  | OpArray a => matmul a (Arr2 M)
  | _ => Raise TypeError
  end.

Definition __mul__ (self : StateSpace) (other : operand)
  : option (py StateSpace) :=
  if negb (_check_binop_other other) then NotImplemented
  else match other with
  | OpSystem (IsSS other) =>
      if negb (same_type (ss_dom other) (ss_dom self)) then NotImplemented
      else Some (
        if decide (dt_of (ss_dom self) ≠ dt_of (ss_dom other))
        then Raise TypeError
        else
          let n1 := nrows (A self) in
          let n2 := nrows (A other) in
          bc ← matmat (B self) (C other);
          top ← hstack (A self) bc;
          bottom ← hstack (zeros n2 n1) (A other);
          a ← vstack top bottom;
          bd ← matmat (B self) (D other);
          b ← vstack bd (B other);
          dc ← matmat (D self) (C other);
          c ← hstack (C self) dc;
          d ← matmat (D self) (D other);
          __init__ (Arr2 a) (Arr2 b) (Arr2 c) (Arr2 d) (ss_dom self))
  | _ =>
      Some (
        b ← matmul_operand (B self) other;
        d ← matmul_operand (D self) other;
        __init__ (Arr2 (A self)) b (Arr2 (C self)) d (ss_dom self))
  end.

Definition __rmul__ (self : StateSpace) (other : operand)
  : option (py StateSpace) :=
  if negb (_check_binop_other other) || is_ss_operand other
  then NotImplemented
  else Some (
    c ← operand_matmul other (C self);
    d ← operand_matmul other (D self);
    __init__ (Arr2 (A self)) (Arr2 (B self)) c d (ss_dom self)).

Definition __neg__ (self : StateSpace) : py StateSpace :=
  __init__ (Arr2 (A self)) (Arr2 (B self))
           (Arr2 (mneg (C self))) (Arr2 (mneg (D self))) (ss_dom self).

(** [cupy.atleast_2d(other)] for an operand that is not a system. *)
Definition operand_2d (other : operand) : py matrix :=
  match other with
  | OpArray a => Ok (atleast_2d a)
  | OpNumber x => Ok (atleast_2d (Arr0 x))
  | _ => Raise TypeError
  end.

Definition __add__ (self : StateSpace) (other : operand)
  : option (py StateSpace) :=
  if negb (_check_binop_other other) then NotImplemented
  else match other with
  | OpSystem (IsSS other) =>
      Some (
        if negb (same_type (ss_dom other) (ss_dom self))
        then Raise TypeError
        else if decide (dt_of (ss_dom self) ≠ dt_of (ss_dom other))
        then Raise TypeError
        else
          let a := block_diag (A self) (A other) in
          b ← vstack (B self) (B other);
          c ← hstack (C self) (C other);
          d ← madd (D self) (D other);
          __init__ (Arr2 a) (Arr2 b) (Arr2 c) (Arr2 d) (ss_dom self))
  | _ =>
      Some (
        other ← operand_2d other;
        if decide (shape (D self) = shape other)
        then
          d ← madd (D self) other;
          __init__ (Arr2 (A self)) (Arr2 (B self)) (Arr2 (C self))
                   (Arr2 d) (ss_dom self)
        else Raise ValueError)
  end.

(** [-other] for an operand that [_check_binop_other] admits. *)
Definition operand_neg (other : operand) : py operand :=
  match other with
  | OpSystem (IsSS other) => (λ s, OpSystem (IsSS s)) <$> __neg__ other
  | OpArray a => Ok (OpArray (aneg a))
  | OpNumber x => Ok (OpNumber (- x)%Qc)
  | _ => Raise TypeError
  end.

Definition __sub__ (self : StateSpace) (other : operand)
  : option (py StateSpace) :=
  if negb (_check_binop_other other) then NotImplemented
  else match operand_neg other with
       | Ok other => __add__ self other
       | Raise e => Some (Raise e)
       end.

Definition __radd__ (self : StateSpace) (other : operand)
  : option (py StateSpace) :=
  if negb (_check_binop_other other) then NotImplemented
  else __add__ self other.

Definition __rsub__ (self : StateSpace) (other : operand)
  : option (py StateSpace) :=
  if negb (_check_binop_other other) then NotImplemented
  else match __neg__ self with
       | Ok self => __add__ self other
       | Raise e => Some (Raise e)
       end.

(** [1/other] for a number or a rank-0 array.  The reciprocal of a rank-0
    zero is an infinity, which the model does not represent; the product
    that follows rejects a rank-0 operand whatever its value. *)
Definition reciprocal (other : operand) : py operand :=
  match other with
  | OpNumber x =>
      if decide (x = 0%Qc) then Raise ZeroDivisionError
      else Ok (OpNumber (/ x)%Qc)
  | OpArray (Arr0 x) => Ok (OpArray (Arr0 (/ x)%Qc))
  | _ => Raise TypeError
  end.

Definition __truediv__ (self : StateSpace) (other : operand)
  : option (py StateSpace) :=
  if negb (_check_binop_other other) || is_ss_operand other
  then NotImplemented
  else match other with
  | OpArray (Arr1 _) | OpArray (Arr2 _) => Some (Raise ValueError)
  | _ =>
      match reciprocal other with
      | Ok r => __mul__ self r
      | Raise e => Some (Raise e)
      end
  end.

Definition to_tf (s : StateSpace) : py TransferFunction :=
  '(n, d) ← ss2tf (A s) (B s) (C s) (D s);
  TransferFunction_.__init__ n d (ss_dom s).

Definition to_ss (s : StateSpace) : py StateSpace := Ok s.
End methods.
End StateSpace_.

(** ** The base class and the discrete and continuous entry points *)

Section generic.
Context `{Conversions}.
Context `{rounding : Quotient}.

Definition _as_ss (s : LinearTimeInvariant) : py StateSpace :=
  match s with
  | IsSS s => Ok s
  | IsTF s => TransferFunction_.to_ss s
  | IsZPK s => ZerosPolesGain_.to_ss s
  end.

Definition _as_tf (s : LinearTimeInvariant) : py TransferFunction :=
  match s with
  | IsTF s => Ok s
  | IsZPK s => ZerosPolesGain_.to_tf s
  | IsSS s => StateSpace_.to_tf s
  end.

Definition inputs (s : LinearTimeInvariant) : nat :=
  match s with
  | IsTF s => TransferFunction_.inputs s
  | IsZPK s => ZerosPolesGain_.inputs s
  | IsSS s => StateSpace_.inputs s
  end.

Definition outputs (s : LinearTimeInvariant) : nat :=
  match s with
  | IsTF s => TransferFunction_.outputs s
  | IsZPK s => ZerosPolesGain_.outputs s
  | IsSS s => StateSpace_.outputs s
  end.

(** Construction by arity: two arguments make a transfer function, three
    a zeros-poles-gain system, four a state-space system. *)
Definition by_arity (system : list ndarray) (dom : timedomain)
  : py LinearTimeInvariant :=
  match system with
  | [n; d] => IsTF <$> TransferFunction_.__init__ n d dom
  | [z; p; k] => IsZPK <$> ZerosPolesGain_.__init__ z p k dom
  | [a; b; c; d] => IsSS <$> StateSpace_.__init__ a b c d dom
  | _ => Raise ValueError
  end.

Definition lti (system : list ndarray) : py LinearTimeInvariant :=
  by_arity system Continuous.

Definition dlti (system : list ndarray) (dt : Qc) : py LinearTimeInvariant :=
  by_arity system (Discrete dt).

(** ** dlsim and the routines built on it *)

(** The [system] argument: an object, or a tuple whose last element is the
    sampling time. *)
Inductive system_arg : Set :=
| SysObject (s : LinearTimeInvariant)
| SysTuple (system : list ndarray) (dt : Qc).

(** What [dlsim] returns: [(tout, yout)] or [(tout, yout, xout)]. *)
Inductive dlsim_result : Set :=
| Pair (tout : vec) (yout : matrix)
| Triple (tout : vec) (yout : matrix) (xout : matrix).

Definition tout_of (r : dlsim_result) : vec :=
  match r with Pair t _ | Triple t _ _ => t end.
Definition yout_of (r : dlsim_result) : matrix :=
  match r with Pair _ y | Triple _ y _ => y end.

(** [u = atleast_1d(u)], transposed to a column when one-dimensional. *)
Definition input_columns (u : ndarray) : matrix :=
  match atleast_1d u with
  | Arr1 v => transpose (atleast_2d (Arr1 v))
  | a => atleast_2d a
  end.

(** The number of output samples and the stop time. *)
Definition sample_count (u : matrix) (t : option vec) (dt : Qc) : py (Z * Qc) :=
  match t with
  | None =>
      let out_samples := Z.of_nat (nrows u) in
      Ok (out_samples, (Qc_of_Z (out_samples - 1) * dt)%Qc)
  | Some t =>
      stoptime ← last_elem t;
      q ← int_floor_div stoptime dt;
      Ok ((q + 1)%Z, stoptime)
  end.

(** One pass of the simulation loop. *)
Definition dlsim_step (system : StateSpace) (u_dt : matrix) (i : nat)
    (s : matrix * matrix) : py (matrix * matrix) :=
  let '(xout, yout) := s in
  xi ← get_row xout i;
  ax ← matvec (A system) xi;
  ui ← get_row u_dt i;
  bu ← matvec (B system) ui;
  x' ← add1 ax bu;
  xout ← set_row xout (i + 1) x';
  xi ← get_row xout i;
  cx ← matvec (C system) xi;
  ui ← get_row u_dt i;
  du ← matvec (D system) ui;
  y ← add1 cx du;
  yout ← set_row yout i y;
  Ok (xout, yout).

Definition dlsim_last (system : StateSpace) (u_dt : matrix) (i : nat)
    (xout yout : matrix) : py matrix :=
  xi ← get_row xout i;
  cx ← matvec (C system) xi;
  ui ← get_row u_dt i;
  du ← matvec (D system) ui;
  y ← add1 cx du;
  set_row yout i y.

(** The loop and the last point. *)
Definition simulate (system : StateSpace) (u_dt : matrix) (out_samples : nat)
    (xout yout : matrix) : py (matrix * matrix) :=
  '(xout, yout) ← for_range (dlsim_step system u_dt)
                    (seq 0 (out_samples - 1)) (xout, yout);
  yout ← dlsim_last system u_dt (out_samples - 1) xout yout;
  Ok (xout, yout).

(** [dlsim] from the point where [system] is a state-space object. *)
Definition dlsim_ss (system : StateSpace) (u : ndarray) (t : option vec)
    (x0 : option ndarray) : py (vec * matrix * matrix) :=
  let u := input_columns u in
  dt ← dt_value (ss_dom system);
  '(out_samples, stoptime) ← sample_count u t dt;
  out_samples ← (if decide (out_samples < 0)%Z then Raise ValueError
                 else Ok (Z.to_nat out_samples));
  let xout := zeros out_samples (nrows (A system)) in
  let yout := zeros out_samples (nrows (C system)) in
  let tout := linspace 0%Qc stoptime out_samples true in
  xout ← match x0 with
         | None => set_row xout 0 (zeros1 (ncols (A system)))
         | Some x0 => assign_row xout 0 x0
         end;
  u_dt ← match t with
         | None => Ok u
         | Some t => make_interp_spline1 t u tout
         end;
  '(xout, yout) ← simulate system u_dt out_samples xout yout;
  Ok (tout, yout, xout).

(** The guard of [dlsim] and the conversion of a tuple to an object. *)
Definition discrete_system (system : system_arg) : py LinearTimeInvariant :=
  match system with
  | SysObject s => if is_lti s then Raise AttributeError else Ok s
  | SysTuple system dt => dlti system dt
  end.

Definition dlsim (system : system_arg) (u : ndarray) (t : option vec)
    (x0 : option ndarray) : py dlsim_result :=
  system ← discrete_system system;
  let is_ss_input := is_StateSpace system in
  system ← _as_ss system;
  '(tout, yout, xout) ← dlsim_ss system u t x0;
  Ok (if is_ss_input then Triple tout yout xout else Pair tout yout).
End generic.

Section responses.
Context `{Conversions}.
Context `{rounding : Quotient}.

(** [u[i, j] = x] and [u[:, j] = v] *)
Definition set_entry (M : matrix) (i j : nat) (x : Qc) : py matrix :=
  match rows M !! i with
  | Some r =>
      if decide (j < ncols M)
      then Ok (Mat (ncols M) (<[i := <[j := x]> r]> (rows M)))
      else Raise IndexError
  | None => Raise IndexError
  end.

Definition set_column (M : matrix) (j : nat) (v : vec) : py matrix :=
  if decide (j < ncols M)
  then v ← broadcast1 v (nrows M);
       Ok (Mat (ncols M) (zip_with (λ r x, <[j := x]> r) (rows M) v))
  else Raise IndexError.

(** The conversion to a discrete state-space system that opens [dimpulse]
    and [dstep]. *)
Definition discrete_ss (system : system_arg) : py StateSpace :=
  match system with
  | SysObject s => if is_dlti s then _as_ss s else Raise AttributeError
  | SysTuple system dt => s ← dlti system dt; _as_ss s
  end.

(** The time points when [t] is not given. *)
Definition response_times (system : StateSpace) (t : option vec) (n : nat)
  : py vec :=
  match t with
  | None =>
      dt ← dt_value (ss_dom system);
      Ok (linspace 0%Qc (Qc_of_nat n * dt)%Qc n false)
  | Some t => Ok t
  end.

(** The loop over the input channels; [probe t i] is the input that excites
    channel [i]. *)
Definition response_step (system : StateSpace) (probe : nat → py matrix)
    (t : vec) (x0 : option ndarray) (i : nat)
    (s : option vec * option (list matrix))
  : py (option vec * option (list matrix)) :=
  let '(_, yout) := s in
  u ← probe i;
  one_output ← dlsim (SysObject (IsSS system)) (Arr2 u) (Some t) x0;
  let yout := match yout with
              | None => [yout_of one_output]
              | Some yout => yout ++ [yout_of one_output]
              end in
  Ok (Some (tout_of one_output), Some yout).

Definition response (system : StateSpace) (probe : nat → py matrix)
    (t : vec) (x0 : option ndarray) : py (vec * list matrix) :=
  s ← for_range (response_step system probe t x0)
        (seq 0 (StateSpace_.inputs system)) (None, None);
  match s with
  | (Some tout, Some yout) => Ok (tout, yout)
  | _ => Raise UnboundLocalError
  end.

Definition dimpulse (system : system_arg) (x0 : option ndarray)
    (t : option vec) (n : option nat) : py (vec * list matrix) :=
  system ← discrete_ss system;
  let n := default 100 n in
  t ← response_times system t n;
  response system
    (λ i, set_entry (zeros (length t) (StateSpace_.inputs system)) 0 i 1%Qc)
    t x0.

Definition dstep (system : system_arg) (x0 : option ndarray)
    (t : option vec) (n : option nat) : py (vec * list matrix) :=
  system ← discrete_ss system;
  let n := default 100 n in
  t ← response_times system t n;
  response system
    (λ i, set_column (zeros (length t) (StateSpace_.inputs system)) i
            (ones1 (length t)))
    t x0.

(** Complex arithmetic, and a polynomial with coefficients in ascending
    powers at a complex point. *)
Definition cadd (a b : complex) : complex :=
  Cx (re a + re b)%Qc (im a + im b)%Qc.
Definition cmul (a b : complex) : complex :=
  Cx (re a * re b - im a * im b)%Qc (re a * im b + im a * re b)%Qc.
Definition creal (x : Qc) : complex := Cx x 0%Qc.
Definition cdiv (a b : complex) : option complex :=
  let n := (re b * re b + im b * im b)%Qc in
  if decide (n = 0%Qc) then None
  else Some (Cx ((re a * re b + im a * im b) / n)%Qc
                ((im a * re b - re a * im b) / n)%Qc).

Definition polyval_asc (c : vec) (z : complex) : complex :=
  foldr (λ ck acc, cadd (creal ck) (cmul z acc)) (creal 0%Qc) c.

(** Modelled from the spec: the frequency-response evaluator [freqz] of
    cupyx.scipy.signal._filter_design, which is not part of this file.  It
    takes the coefficients of numerator and denominator in ascending powers
    of the inverse of the unit delay and the frequency points, or their
    count, and returns the frequencies and the complex response.  A
    frequency w is given by the point exp(-iw) of the unit circle, the
    value of the inverse delay there, because the exponential of a rational
    is not rational: w = 0 is the point 1.  The response is the quotient of
    the two polynomials at that point, and is undefined where the
    denominator vanishes. *)
Definition freqz (b a : vec) (worN : list complex + nat) (whole : bool)
  : py (list complex * list (option complex)) :=
  let w := match worN with inl w => w | inr n => freqz_grid n whole end in
  Ok (w, fmap (λ z, cdiv (polyval_asc b z) (polyval_asc a z)) w).

Definition dfreqresp (system : system_arg) (w : option (list complex))
    (n : nat) (whole : bool) : py (list complex * list (option complex)) :=
  system ← match system with
           | SysObject s =>
               if is_dlti s then Ok s else Raise AttributeError
           | SysTuple system dt => dlti system dt
           end;
  system ← (if is_StateSpace system then IsTF <$> _as_tf system
            else Ok system);
  if negb (bool_decide (inputs system = 1 ∧ outputs system = 1))
  then Raise ValueError
  else
    let worN := match w with Some w => inl w | None => inr n end in
    match system with
    | IsTF s =>
        let '(n, d) := TransferFunction_._z_to_zinv (ravel (num s)) (den s) in
        freqz n d worN whole
    | IsZPK s =>
        freqz_zpk (zpk_zeros s) (zpk_poles s) (zpk_gain s) worN whole
    | IsSS _ => Raise ValueError
    end.
End responses.

(** ** A conversion layer to run examples with

    First-order systems only: the transfer function
    (b0 z + b1) / (z + a1) has the state-space form A = -a1, B = 1,
    C = b1 - a1 b0, D = b0, and k / (z - p1) has A = p1, B = 1, C = k,
    D = 0. *)
Definition first_order_tf2ss (n : ndarray) (d : vec)
  : py (ndarray * ndarray * ndarray * ndarray) :=
  match ravel n, d with
  | [b1], [a0; a1] =>
      Ok (Arr0 (- a1 / a0)%Qc, Arr0 1%Qc, Arr0 (b1 / a0)%Qc, Arr0 0%Qc)
  | [b0; b1], [a0; a1] =>
      Ok (Arr0 (- a1 / a0)%Qc, Arr0 1%Qc,
          Arr0 (b1 / a0 - a1 / a0 * (b0 / a0))%Qc, Arr0 (b0 / a0)%Qc)
  | _, _ => Raise NotImplementedError
  end.

Definition first_order_zpk2ss (z p k : ndarray)
  : py (ndarray * ndarray * ndarray * ndarray) :=
  match ravel z, ravel p, ravel k with
  | [], [p1], [k] => Ok (Arr0 p1, Arr0 1%Qc, Arr0 k, Arr0 0%Qc)
  | _, _, _ => Raise NotImplementedError
  end.

#[global] Instance first_order : Conversions := {|
  normalize n d := Ok (n, ravel d);
  tf2ss := first_order_tf2ss;
  zpk2ss := first_order_zpk2ss;
  ss2tf _ _ _ _ := Raise NotImplementedError;
  zpk2tf _ _ _ := Raise NotImplementedError;
  freqz_grid _ _ := [];
  freqz_zpk _ _ _ _ _ := Raise NotImplementedError;
|}.

(** The exact quotient, for the examples: their quotients are of numbers
    that binary64 divides without rounding. *)
#[global] Instance exact_quotient : Quotient := {| fdiv a b := (a / b)%Qc |}.

#[global] Instance system_arg_eq_dec : EqDecision system_arg.
Proof. solve_decision. Defined.
#[global] Instance dlsim_result_eq_dec : EqDecision dlsim_result.
Proof. solve_decision. Defined.

(** ** Systems and inputs of the examples *)

Definition half : Qc := Q2Qc (1 # 2).
Definition quarter : Qc := Q2Qc (1 # 4).
Definition two : Qc := Q2Qc 2.

(** A = 0.5, B = 1, C = 1, D = 0 with sampling time 1, and the same
    matrices in continuous time. *)
Definition sys_half : StateSpace :=
  SS (Mat 1 [[half]]) (Mat 1 [[1%Qc]]) (Mat 1 [[1%Qc]]) (Mat 1 [[0%Qc]])
     (Discrete 1%Qc).

Definition sys_half_continuous : StateSpace :=
  SS (Mat 1 [[half]]) (Mat 1 [[1%Qc]]) (Mat 1 [[1%Qc]]) (Mat 1 [[0%Qc]])
     Continuous.

(** The transfer function 1 / (z - 0.5) with sampling time 1. *)
Definition tf_half : TransferFunction :=
  TF (Arr1 [1%Qc]) [1%Qc; (- half)%Qc] (Discrete 1%Qc).

(** The input 1, 0, 0, 0. *)
Definition pulse4 : ndarray := Arr1 [1%Qc; 0%Qc; 0%Qc; 0%Qc].


(** ** Definitions used to state the properties *)

(** Sum and difference of vectors of the same length. *)
Definition vadd (u v : vec) : vec := zip_with Qcplus u v.
Definition vsub (u v : vec) : vec := zip_with Qcminus u v.

(** The sampling time a [system] argument carries. *)
Definition arg_dt (system : system_arg) : option Qc :=
  match system with
  | SysObject s => dt_of (domain s)
  | SysTuple _ dt => Some dt
  end.

(** The time vector is the grid of as many points as there are output
    samples, spaced by [dt] from zero. *)
Definition spaced_by_dt (dt : Qc) (r : dlsim_result) : Prop :=
  let out_samples := nrows (yout_of r) in
  tout_of r
  = linspace 0%Qc (Qc_of_Z (Z.of_nat out_samples - 1) * dt)%Qc out_samples true.


(** The state and the output that one step of the recurrence gives:
    A x + B u and C x + D u. *)
Definition next_state (s : StateSpace) (xi ui : vec) : vec :=
  vadd (mv (A s) xi) (mv (B s) ui).
Definition output_at (s : StateSpace) (xi ui : vec) : vec :=
  vadd (mv (C s) xi) (mv (D s) ui).


Definition three_halves : Qc := Q2Qc (3 # 2).

(** Two samples of a constant input, given at the times 0 and 1.5. *)
Definition ones2 : ndarray := Arr1 [1%Qc; 1%Qc].
Definition times_0_1p5 : vec := [0%Qc; three_halves].


(** A system with one input and two outputs, whose [D] has shape (2, 1). *)
Definition sys_two_outputs : StateSpace :=
  SS (Mat 1 [[half]]) (Mat 1 [[1%Qc]]) (Mat 1 [[1%Qc]; [two]])
     (Mat 1 [[0%Qc]; [1%Qc]]) (Discrete 1%Qc).


(** The entry (i, j) of the matrix product M N, as the sum over the inner
    index. *)
Definition sum_upto (n : nat) (f : nat → Qc) : Qc := vsum (f <$> seq 0 n).
Definition product_entry (M N : matrix) (i j : nat) : Qc :=
  sum_upto (ncols M) (λ k, get M i k * get N k j)%Qc.

(** The four matrices of the series connection of two systems of orders
    n1 and n2, entry by entry:
    [[A1, B1 C2], [0, A2]],  [B1 D2; B2],  [C1, D1 C2]  and  D1 D2. *)
Definition series_A (s1 s2 : StateSpace) (i j : nat) : Qc :=
  let n1 := nrows (A s1) in
  if decide (i < n1)
  then if decide (j < n1) then get (A s1) i j
       else product_entry (B s1) (C s2) i (j - n1)
  else if decide (j < n1) then 0%Qc
       else get (A s2) (i - n1) (j - n1).
Definition series_B (s1 s2 : StateSpace) (i j : nat) : Qc :=
  let n1 := nrows (A s1) in
  if decide (i < n1) then product_entry (B s1) (D s2) i j
  else get (B s2) (i - n1) j.
Definition series_C (s1 s2 : StateSpace) (i j : nat) : Qc :=
  let n1 := nrows (A s1) in
  if decide (j < n1) then get (C s1) i j
  else product_entry (D s1) (C s2) i (j - n1).
Definition series_D (s1 s2 : StateSpace) (i j : nat) : Qc :=
  product_entry (D s1) (D s2) i j.

(** A 1 x 1 gain matrix. *)
Definition gain2 : matrix := Mat 1 [[two]].


(** The state after [k] steps of the recurrence from [x0] under the input
    sequence [u]. *)
Fixpoint state_at (s : StateSpace) (u : nat → vec) (x0 : vec) (k : nat) : vec :=
  match k with
  | 0 => x0
  | S k' => next_state s (state_at s u x0 k') (u k')
  end.

(** The unit vector of channel [i] among [p] inputs. *)
Definition unit_vec (p i : nat) : vec := <[i := 1%Qc]> (zeros1 p).


(** The outputs of [n] steps of the recurrence from the zero state under
    the input sequence [u], one row per step. *)
Definition response_of (s : StateSpace) (u : nat → vec) (n : nat) : matrix :=
  Mat (nrows (C s))
      ((λ k, output_at s (state_at s u (zeros1 (nrows (A s))) k) (u k))
         <$> seq 0 n).

(** A [StateSpace] object given as [system] obeys the invariant of its
    class; the other representations have none to state here. *)
Definition system_ok (system : system_arg) : Prop :=
  match system with
  | SysObject (IsSS s) => ss_shapes s
  | _ => True
  end.


(** ** Definitions used to state the properties of the operators, of the
       simulation and of the coefficient padding *)

(** The sum of two 2-D arrays of one shape, entry by entry. *)
Definition mplus (M N : matrix) : matrix :=
  Mat (ncols M) (zip_with vadd (rows M) (rows N)).

(** An input array for the system [s]: rectangular, with at least one row
    and a column for every input. *)
Definition input_for (s : StateSpace) (U : matrix) : Prop :=
  mat_ok U ∧ 1 ≤ nrows U ∧ ncols U = ncols (B s).

#[global] Instance input_for_dec s U : Decision (input_for s U).
Proof. unfold input_for. apply _. Defined.

(** The output that [dlsim(s, U)] returns, with [t] and [x0] omitted. *)
Definition zero_state_output `{Conversions} `{Quotient} (s : StateSpace)
    (U : matrix)
  : py matrix :=
  yout_of <$> dlsim (SysObject (IsSS s)) (Arr2 U) None None.

(** Complex negation, difference and powers, and [polyval]: a polynomial
    with coefficients in descending powers at a complex point. *)
Definition copp (a : complex) : complex := Cx (- re a)%Qc (- im a)%Qc.
Definition csub (a b : complex) : complex :=
  Cx (re a - re b)%Qc (im a - im b)%Qc.
Fixpoint cpow (z : complex) (k : nat) : complex :=
  match k with
  | 0 => creal 1%Qc
  | S k' => cmul z (cpow z k')
  end.
Definition polyval (c : vec) (z : complex) : complex :=
  foldl (λ acc ck, cadd (cmul acc z) (creal ck)) (creal 0%Qc) c.


(** ** Further systems and inputs of the examples *)

(** The unit delay: A = 0, B = 1, C = 1, D = 0 with sampling time 1. *)
Definition sys_delay : StateSpace :=
  SS (Mat 1 [[0%Qc]]) (Mat 1 [[1%Qc]]) (Mat 1 [[1%Qc]]) (Mat 1 [[0%Qc]])
     (Discrete 1%Qc).

(** [sys_half] with the sampling time 2. *)
Definition sys_half_dt2 : StateSpace :=
  SS (Mat 1 [[half]]) (Mat 1 [[1%Qc]]) (Mat 1 [[1%Qc]]) (Mat 1 [[0%Qc]])
     (Discrete two).

(** One state, two inputs, one output. *)
Definition sys_two_inputs : StateSpace :=
  SS (Mat 1 [[half]]) (Mat 2 [[1%Qc; 1%Qc]]) (Mat 1 [[1%Qc]])
     (Mat 2 [[0%Qc; 0%Qc]]) (Discrete 1%Qc).

(** Two states, one input, one output. *)
Definition sys_two_states : StateSpace :=
  SS (Mat 2 [[half; 0%Qc]; [0%Qc; quarter]]) (Mat 1 [[1%Qc]; [1%Qc]])
     (Mat 2 [[1%Qc; 1%Qc]]) (Mat 1 [[0%Qc]]) (Discrete 1%Qc).

(** One state, one output and no input. *)
Definition sys_no_inputs : StateSpace :=
  SS (Mat 1 [[half]]) (Mat 0 [[]]) (Mat 1 [[1%Qc]]) (Mat 0 [[]])
     (Discrete 1%Qc).

(** A transfer function with one output and two inputs. *)
Definition tf_two_inputs : TransferFunction :=
  TF (Arr2 (Mat 2 [[1%Qc; 1%Qc]])) [1%Qc; (- half)%Qc] (Discrete 1%Qc).

(** Three samples of one input: an impulse, and an impulse that comes back
    at the last sample. *)
Definition impulse3 : matrix := Mat 1 [[1%Qc]; [0%Qc]; [0%Qc]].
Definition impulse3_again : matrix := Mat 1 [[1%Qc]; [0%Qc]; [1%Qc]].

(** The conversion layer of the examples with [ss2tf] for one state, one
    input and one output: C (z - A)^-1 B + D is
    (D z + (C B - A D)) / (z - A). *)
Definition first_order_ss2tf (a b c d : matrix) : py (ndarray * ndarray) :=
  match rows a, rows b, rows c, rows d with
  | [[a]], [[b]], [[c]], [[d]] =>
      Ok (Arr1 [d; (c * b - a * d)%Qc], Arr1 [1%Qc; (- a)%Qc])
  | _, _, _, _ => Raise NotImplementedError
  end.

Definition first_order_both : Conversions := {|
  normalize n d := Ok (n, ravel d);
  tf2ss := first_order_tf2ss;
  zpk2ss := first_order_zpk2ss;
  ss2tf := first_order_ss2tf;
  zpk2tf _ _ _ := Raise NotImplementedError;
  freqz_grid _ _ := [];
  freqz_zpk _ _ _ _ _ := Raise NotImplementedError;
|}.


(** Three and seven quarters, and the initial state 1. *)
Definition three_quarters : Qc := Q2Qc (3 # 4).
Definition seven_quarters : Qc := Q2Qc (7 # 4).
Definition state_one : ndarray := Arr1 [1%Qc].

(** * Properties *)

(** ** Reasoning in the [py] monad *)

Lemma bind_Ok {T U : Type} (m : py T) (f : T → py U) (b : U) :
  m ≫= f = Ok b ↔ ∃ a, m = Ok a ∧ f a = Ok b.
Proof.
  destruct m as [a|e]; simpl; split.
  - intros Hf. exists a. done.
  - intros (a' & [= <-] & Hf). done.
  - discriminate.
  - intros (a' & [=] & _).
Qed.

Lemma fmap_Ok {T U : Type} (m : py T) (f : T → U) (b : U) :
  f <$> m = Ok b ↔ ∃ a, m = Ok a ∧ b = f a.
Proof.
  destruct m as [a|e]; simpl; split.
  - intros [= <-]. by exists a.
  - intros (a' & [= <-] & ->). done.
  - discriminate.
  - intros (a' & [=] & _).
Qed.

(** Splits a successful sequence of binds into its successful steps. *)
Ltac py_inv H :=
  repeat match type of H with
  | _ ≫= _ = Ok _ =>
      let a := fresh "r" in
      let Ha := fresh "Hstep" in
      apply bind_Ok in H as (a & Ha & H)
  | _ <$> _ = Ok _ =>
      let a := fresh "r" in
      let Ha := fresh "Hstep" in
      apply fmap_Ok in H as (a & Ha & H)
  | (let '(_, _) := ?p in _) = Ok _ => destruct p
  | Raise _ = Ok _ => discriminate H
  end.

(** ** Time domains are preserved by the conversions *)

Section domain_facts.
Context `{Conversions}.
Context `{rounding : Quotient}.

Lemma by_arity_domain system dom s :
  by_arity system dom = Ok s → domain s = dom.
Proof.
  unfold by_arity. intros Hs.
  destruct system as [|a [|b [|c [|d [|e l]]]]]; try discriminate Hs.
  - apply fmap_Ok in Hs as (tf & Htf & ->).
    unfold TransferFunction_.__init__ in Htf. py_inv Htf.
    by injection Htf as <-.
  - apply fmap_Ok in Hs as (z & Hz & ->).
    unfold ZerosPolesGain_.__init__ in Hz. by injection Hz as <-.
  - apply fmap_Ok in Hs as (ss & Hss & ->).
    unfold StateSpace_.__init__ in Hss. py_inv Hss.
    by injection Hss as <-.
Qed.


Lemma _as_ss_domain s ss : _as_ss s = Ok ss → ss_dom ss = domain s.
Proof.
  destruct s as [tf|z|s0]; simpl; intros Hs.
  - unfold TransferFunction_.to_ss in Hs. py_inv Hs. by injection Hs as <-.
  - unfold ZerosPolesGain_.to_ss in Hs. py_inv Hs. by injection Hs as <-.
  - by injection Hs as <-.
Qed.

Lemma abcd_normalize_ok a b c d a' b' c' d' :
  abcd_normalize a b c d = Ok (a', b', c', d') →
  a' = atleast_2d a ∧ b' = atleast_2d b ∧ c' = atleast_2d c ∧
  d' = atleast_2d d ∧ abcd_shapes a' b' c' d'.
Proof.
  unfold abcd_normalize. case_decide; [|discriminate].
  intros [= <- <- <- <-]. done.
Qed.

Lemma abcd_normalize_2d (a b c d : matrix) :
  abcd_shapes a b c d →
  abcd_normalize (Arr2 a) (Arr2 b) (Arr2 c) (Arr2 d) = Ok (a, b, c, d).
Proof. intros Hs. unfold abcd_normalize. simpl. by rewrite decide_True. Qed.
End domain_facts.

(** ** The discrete-time guard and the shape of the result of [dlsim] *)

Section dlsim_result_shape.
Context `{Conversions}.
Context `{rounding : Quotient}.

Lemma dlsim_Ok system u t x0 r :
  dlsim system u t x0 = Ok r →
  ∃ s ss tout yout xout,
    discrete_system system = Ok s ∧ _as_ss s = Ok ss ∧
    dlsim_ss ss u t x0 = Ok (tout, yout, xout) ∧
    r = if is_StateSpace s then Triple tout yout xout else Pair tout yout.
Proof.
  unfold dlsim. intros Hr.
  apply bind_Ok in Hr as (s & Hs & Hr).
  apply bind_Ok in Hr as (ss & Hss & Hr).
  apply bind_Ok in Hr as ([[tout yout] xout] & Hcore & Hr).
  injection Hr as <-. by exists s, ss, tout, yout, xout.
Qed.

(** C9.  A continuous-time system makes [dlsim] raise the error of the
    discrete-time guard (AttributeError, the specification's
    NotDiscreteTime), whatever the input, the time vector and the initial
    state are: nothing is simulated. *)
Theorem dlsim_rejects_continuous (s : LinearTimeInvariant) (u : ndarray)
    (t : option vec) (x0 : option ndarray) :
  is_lti s = true → dlsim (SysObject s) u t x0 = Raise AttributeError.
Proof. intros Hs. unfold dlsim, discrete_system. by rewrite Hs. Qed.


End dlsim_result_shape.

Lemma dlsim_rejects_continuous_witness :
  is_lti (IsSS sys_half_continuous) = true ∧
  dlsim (SysObject (IsSS sys_half_continuous)) pulse4 None None
  = Raise AttributeError.
Proof.
  split; [reflexivity|].
  apply (dlsim_rejects_continuous (IsSS sys_half_continuous)). reflexivity.
Defined.



(** The three- and four-element tuples run as well, and return pairs. *)
Example dlsim_tuple_pairs :
  dlsim (SysTuple [Arr1 [1%Qc]; Arr1 [1%Qc; (- half)%Qc]] 1%Qc)
        pulse4 None None
  = Ok (Pair [0%Qc; 1%Qc; two; Q2Qc 3]
             (Mat 1 [[0%Qc]; [1%Qc]; [half]; [quarter]])) ∧
  dlsim (SysTuple [Arr1 []; Arr1 [half]; Arr0 1%Qc] 1%Qc) pulse4 None None
  = Ok (Pair [0%Qc; 1%Qc; two; Q2Qc 3]
             (Mat 1 [[0%Qc]; [1%Qc]; [half]; [quarter]])).
Proof. split; compute_done. Qed.

(** ** Shapes of arrays *)

Lemma nrows_zeros m n : nrows (zeros m n) = m.
Proof. unfold nrows, zeros. simpl. by rewrite length_replicate. Qed.

Lemma length_zeros1 n : length (zeros1 n) = n.
Proof. apply length_replicate. Qed.

Lemma mat_ok_zeros m n : mat_ok (zeros m n).
Proof.
  unfold mat_ok, zeros. simpl. apply Forall_replicate, length_zeros1.
Qed.

Lemma length_mv M v : length (mv M v) = nrows M.
Proof. unfold mv, nrows. by rewrite length_fmap. Qed.

Lemma length_vadd u v : length u = length v → length (vadd u v) = length u.
Proof. intros Huv. unfold vadd. rewrite length_zip_with. lia. Qed.

Lemma length_linspace a b n e : length (linspace a b n e) = n.
Proof. unfold linspace. by rewrite length_fmap, length_seq. Qed.

Lemma broadcast1_same v n : length v = n → broadcast1 v n = Ok v.
Proof. intros Hv. unfold broadcast1. by rewrite decide_True. Qed.

Lemma add1_same u v : length u = length v → add1 u v = Ok (vadd u v).
Proof. intros Huv. unfold add1. by rewrite decide_True. Qed.

Lemma matvec_Ok M v w :
  matvec M v = Ok w ↔ ncols M = length v ∧ w = mv M v.
Proof.
  unfold matvec. case_decide; split; try discriminate.
  - by intros [= <-].
  - by intros [_ ->].
  - by intros [? _].
Qed.

Lemma get_row_Ok M i r : get_row M i = Ok r ↔ rows M !! i = Some r.
Proof.
  unfold get_row. destruct (rows M !! i); split; try discriminate;
    by intros [= <-].
Qed.

Lemma set_row_Ok M i v M' :
  set_row M i v = Ok M' →
  i < nrows M ∧ ∃ v', broadcast1 v (ncols M) = Ok v' ∧
    M' = Mat (ncols M) (<[i := v']> (rows M)).
Proof.
  unfold set_row. case_decide; [|discriminate]. intros HM.
  apply bind_Ok in HM as (v' & Hv & [= <-]). eauto.
Qed.

Lemma set_row_same M i v :
  i < nrows M → length v = ncols M →
  set_row M i v = Ok (Mat (ncols M) (<[i := v]> (rows M))).
Proof.
  intros Hi Hv. unfold set_row. rewrite decide_True by done.
  by rewrite broadcast1_same.
Qed.

Lemma set_row_shape M i v M' :
  set_row M i v = Ok M' → nrows M' = nrows M ∧ ncols M' = ncols M.
Proof.
  intros (_ & v' & _ & ->)%set_row_Ok. unfold nrows. simpl.
  by rewrite length_insert.
Qed.

Lemma assign_row_shape M i a M' :
  assign_row M i a = Ok M' → i < nrows M ∧ nrows M' = nrows M ∧ ncols M' = ncols M.
Proof.
  destruct a as [x|v|V]; simpl; [| |case_decide; [|discriminate]];
    intros HM; (split; [by apply set_row_Ok in HM as [? _]|]);
    by apply set_row_shape in HM.
Qed.

Lemma for_range_app {S : Type} (body : nat → S → py S) idx1 idx2 s :
  for_range body (idx1 ++ idx2) s
  = for_range body idx1 s ≫= for_range body idx2.
Proof.
  revert s. induction idx1 as [|i idx1 IH]; intros s; simpl; [done|].
  destruct (body i s) as [s'|e]; simpl; [apply IH|done].
Qed.

Lemma for_range_S {S : Type} (body : nat → S → py S) k s :
  for_range body (seq 0 (Datatypes.S k)) s
  = for_range body (seq 0 k) s ≫= body k.
Proof.
  rewrite seq_S, for_range_app. simpl.
  destruct (for_range body (seq 0 k) s) as [s'|e]; simpl; [|done].
  by destruct (body k s').
Qed.

(** ** The simulation loop *)

Section simulation_loop.
Variable s : StateSpace.
Variable u_dt : matrix.
Hypothesis s_ok : ss_shapes s.

#[local] Abbreviation n := (nrows (A s)).
#[local] Abbreviation q := (nrows (C s)).
#[local] Abbreviation next_state := (next_state s).
#[local] Abbreviation output_at := (output_at s).

Lemma length_next_state xi ui : length (next_state xi ui) = n.
Proof.
  unfold next_state. destruct s_ok as (_ & HB & _).
  rewrite length_vadd; rewrite !length_mv; done.
Qed.

Lemma length_output_at xi ui : length (output_at xi ui) = q.
Proof.
  unfold output_at. destruct s_ok as (_ & _ & _ & HD & _).
  rewrite length_vadd; rewrite !length_mv; done.
Qed.

Lemma dlsim_last_Ok i X Y Y' :
  ncols Y = q →
  dlsim_last s u_dt i X Y = Ok Y' →
  ∃ xi ui, rows X !! i = Some xi ∧ rows u_dt !! i = Some ui ∧
    length xi = ncols (C s) ∧ length ui = ncols (D s) ∧ i < nrows Y ∧
    Y' = Mat q (<[i := output_at xi ui]> (rows Y)).
Proof.
  intros HY Hy. unfold dlsim_last in Hy.
  destruct s_ok as (HA & HB & HC & HD & HDB).
  apply bind_Ok in Hy as (xi & HX%get_row_Ok & Hy).
  apply bind_Ok in Hy as (cx & [Hxi ->]%matvec_Ok & Hy).
  apply bind_Ok in Hy as (ui & Hu%get_row_Ok & Hy).
  apply bind_Ok in Hy as (du & [Hui ->]%matvec_Ok & Hy).
  rewrite add1_same in Hy by (rewrite !length_mv; done).
  apply bind_Ok in Hy as (y & [= <-] & Hy).
  apply set_row_Ok in Hy as (Hlt & w' & Hw' & ->).
  rewrite broadcast1_same in Hw'
    by (fold (output_at xi ui); rewrite length_output_at; done).
  injection Hw' as <-. exists xi, ui. by rewrite HY.
Qed.

Lemma dlsim_last_run i X Y xi ui :
  ncols Y = q →
  rows X !! i = Some xi → rows u_dt !! i = Some ui →
  length xi = n → length ui = ncols (B s) → i < nrows Y →
  dlsim_last s u_dt i X Y = Ok (Mat q (<[i := output_at xi ui]> (rows Y))).
Proof.
  intros HY Hxi Hui Hlx Hlu Hlt. unfold dlsim_last.
  destruct s_ok as (HA & HB & HC & HD & HDB).
  rewrite (proj2 (get_row_Ok _ _ _) Hxi). simpl.
  rewrite (proj2 (matvec_Ok (C s) xi _)) by (split; [lia|done]). simpl.
  rewrite (proj2 (get_row_Ok _ _ _) Hui). simpl.
  rewrite (proj2 (matvec_Ok (D s) ui _)) by (split; [lia|done]). simpl.
  rewrite add1_same by (rewrite !length_mv; done). simpl.
  rewrite set_row_same;
    [|done|fold (output_at xi ui); rewrite length_output_at; done].
  by rewrite HY.
Qed.

Lemma dlsim_step_Ok i X Y X' Y' :
  ncols X = n → ncols Y = q →
  dlsim_step s u_dt i (X, Y) = Ok (X', Y') →
  ∃ xi ui, rows X !! i = Some xi ∧ rows u_dt !! i = Some ui ∧
    length xi = n ∧ length ui = ncols (B s) ∧
    S i < nrows X ∧ i < nrows Y ∧
    X' = Mat n (<[S i := next_state xi ui]> (rows X)) ∧
    Y' = Mat q (<[i := output_at xi ui]> (rows Y)).
Proof.
  intros HX HY Hstep. unfold dlsim_step in Hstep.
  destruct s_ok as (HA & HB & HC & HD & HDB).
  apply bind_Ok in Hstep as (xi & Hxi%get_row_Ok & Hstep).
  apply bind_Ok in Hstep as (ax & [Hlx ->]%matvec_Ok & Hstep).
  apply bind_Ok in Hstep as (ui & Hui%get_row_Ok & Hstep).
  apply bind_Ok in Hstep as (bu & [Hlu ->]%matvec_Ok & Hstep).
  rewrite add1_same in Hstep by (rewrite !length_mv; done).
  apply bind_Ok in Hstep as (x' & [= <-] & Hstep).
  apply bind_Ok in Hstep as (X1 & HX1 & Hstep).
  apply set_row_Ok in HX1 as (Hlt & v' & Hv' & ->).
  rewrite broadcast1_same in Hv'
    by (fold (next_state xi ui); rewrite length_next_state; done).
  injection Hv' as <-.
  replace (i + 1) with (S i) in * by lia.
  rewrite HX in *.
  match type of Hstep with
  | ?m ≫= _ = _ => destruct m as [X2|e] eqn:HX2; [|discriminate]
  end.
  unfold get_row in HX2. simpl in HX2.
  rewrite list_lookup_insert_ne in HX2 by lia. rewrite Hxi in HX2.
  injection HX2 as <-. simpl in Hstep.
  rewrite (proj2 (matvec_Ok (C s) xi _)) in Hstep by (split; [lia|done]).
  simpl in Hstep. rewrite (proj2 (get_row_Ok _ _ _) Hui) in Hstep.
  simpl in Hstep.
  rewrite (proj2 (matvec_Ok (D s) ui _)) in Hstep by (split; [lia|done]).
  simpl in Hstep.
  rewrite add1_same in Hstep by (rewrite !length_mv; done).
  simpl in Hstep.
  apply bind_Ok in Hstep as (Y1 & HY1 & Hstep).
  apply set_row_Ok in HY1 as (HltY & w' & Hw' & ->).
  rewrite broadcast1_same in Hw'
    by (fold (output_at xi ui); rewrite length_output_at; done).
  injection Hw' as <-. injection Hstep as <- <-.
  exists xi, ui. rewrite HY. repeat split; try done. lia.
Qed.
Lemma dlsim_step_run i X Y xi ui :
  ncols X = n → ncols Y = q →
  rows X !! i = Some xi → rows u_dt !! i = Some ui →
  length xi = n → length ui = ncols (B s) →
  S i < nrows X → i < nrows Y →
  dlsim_step s u_dt i (X, Y)
  = Ok (Mat n (<[S i := next_state xi ui]> (rows X)),
        Mat q (<[i := output_at xi ui]> (rows Y))).
Proof.
  intros HX HY Hxi Hui Hlx Hlu HltX HltY. unfold dlsim_step.
  destruct s_ok as (HA & HB & HC & HD & HDB).
  rewrite (proj2 (get_row_Ok _ _ _) Hxi). simpl.
  rewrite (proj2 (matvec_Ok (A s) xi _)) by (split; [lia|done]). simpl.
  rewrite (proj2 (get_row_Ok _ _ _) Hui). simpl.
  rewrite (proj2 (matvec_Ok (B s) ui _)) by (split; [lia|done]). simpl.
  rewrite add1_same by (rewrite !length_mv; done). simpl.
  replace (i + 1) with (S i) by lia.
  rewrite set_row_same;
    [|done|fold (next_state xi ui); rewrite length_next_state; done].
  simpl. unfold get_row at 1. simpl.
  rewrite list_lookup_insert_ne by lia. rewrite Hxi. simpl.
  rewrite (proj2 (matvec_Ok (C s) xi _)) by (split; [lia|done]). simpl.
  rewrite (proj2 (matvec_Ok (D s) ui _)) by (split; [lia|done]). simpl.
  rewrite add1_same by (rewrite !length_mv; done). simpl.
  rewrite set_row_same;
    [|done|fold (output_at xi ui); rewrite length_output_at; done].
  simpl. by rewrite HX, HY.
Qed.

(** After [k] passes the rows 1..k of [xout] and 0..k-1 of [yout] obey the
    recurrence, and the other rows are as they were. *)
Lemma dlsim_loop_Ok k X0 Y0 X Y :
  ncols X0 = n → ncols Y0 = q →
  for_range (dlsim_step s u_dt) (seq 0 k) (X0, Y0) = Ok (X, Y) →
  ncols X = n ∧ ncols Y = q ∧ nrows X = nrows X0 ∧ nrows Y = nrows Y0 ∧
  (∀ j, j = 0 ∨ k < j → rows X !! j = rows X0 !! j) ∧
  (∀ j, k ≤ j → rows Y !! j = rows Y0 !! j) ∧
  (∀ i, i < k → ∃ xi ui,
     rows X !! i = Some xi ∧ rows u_dt !! i = Some ui ∧
     length xi = n ∧ length ui = ncols (B s) ∧ S i < nrows X ∧
     rows X !! S i = Some (next_state xi ui) ∧
     rows Y !! i = Some (output_at xi ui)).
Proof.
  intros HX0 HY0. revert X Y.
  induction k as [|k IH]; intros X Y Hloop.
  - injection Hloop as <- <-. repeat split; try done. intros i Hi. lia.
  - rewrite for_range_S in Hloop.
    apply bind_Ok in Hloop as ([X1 Y1] & Hk & Hstep).
    destruct (IH _ _ Hk) as (HX1 & HY1 & HnX & HnY & HkeepX & HkeepY & Hrec).
    apply dlsim_step_Ok in Hstep
      as (xk & uk & Hxk & Huk & Hlx & Hlu & HltX & HltY & -> & ->);
      [|done..].
    unfold nrows in *. simpl.
    rewrite !length_insert. repeat split; try done.
    + intros j Hj. rewrite list_lookup_insert_ne by lia. apply HkeepX. lia.
    + intros j Hj. rewrite list_lookup_insert_ne by lia. apply HkeepY. lia.
    + intros i Hi. destruct (decide (i = k)) as [->|Hne].
      * exists xk, uk. rewrite list_lookup_insert_ne by lia.
        rewrite !list_lookup_insert_eq by lia. done.
      * destruct (Hrec i) as (xi & ui & ? & ? & ? & ? & ? & ? & ?); [lia|].
        exists xi, ui. rewrite !list_lookup_insert_ne by lia. done.
Qed.

Lemma dlsim_loop_run k X0 Y0 x0 :
  ncols X0 = n → ncols Y0 = q → k < nrows X0 → k ≤ nrows Y0 →
  rows X0 !! 0 = Some x0 → length x0 = n →
  (∀ i, i < k → ∃ ui, rows u_dt !! i = Some ui ∧ length ui = ncols (B s)) →
  is_ok (for_range (dlsim_step s u_dt) (seq 0 k) (X0, Y0)).
Proof.
  intros HX0 HY0 HkX HkY Hx0 Hlx0 Hu.
  induction k as [|k IH]; [by eexists|].
  destruct IH as ([X1 Y1] & Hk); [lia|lia|intros i Hi; apply Hu; lia|].
  destruct (dlsim_loop_Ok _ _ _ _ _ HX0 HY0 Hk)
    as (HX1 & HY1 & HnX & HnY & HkeepX & HkeepY & Hrec).
  destruct (Hu k) as (uk & Huk & Hluk); [lia|].
  assert (∃ xk, rows X1 !! k = Some xk ∧ length xk = n) as (xk & Hxk & Hlxk).
  { destruct k as [|k'].
    - exists x0. rewrite HkeepX by lia. done.
    - destruct (Hrec k') as (xi & ui & _ & _ & _ & _ & _ & Hnext & _); [lia|].
      eexists. split; [exact Hnext|]. apply length_next_state. }
  rewrite for_range_S, Hk.
  change (is_ok (dlsim_step s u_dt k (X1, Y1))).
  rewrite (dlsim_step_run k X1 Y1 xk uk); try done; try lia.
  by eexists.
Qed.
(** The whole simulation: the loop and the last point. *)
Lemma simulate_Ok N X0 Y0 X Y :
  ncols X0 = n → ncols Y0 = q → 1 ≤ N →
  simulate s u_dt N X0 Y0 = Ok (X, Y) →
  ncols X = n ∧ ncols Y = q ∧ nrows X = nrows X0 ∧ nrows Y = nrows Y0 ∧
  N ≤ nrows X0 ∧ N ≤ nrows Y0 ∧
  rows X !! 0 = rows X0 !! 0 ∧
  (∀ i, S i < N → ∃ xi ui,
     rows X !! i = Some xi ∧ rows u_dt !! i = Some ui ∧
     rows X !! S i = Some (next_state xi ui)) ∧
  (∀ i, i < N → ∃ xi ui,
     rows X !! i = Some xi ∧ rows u_dt !! i = Some ui ∧
     length xi = n ∧ length ui = ncols (B s) ∧
     rows Y !! i = Some (output_at xi ui)).
Proof.
  intros HX0 HY0 HN Hsim. unfold simulate in Hsim.
  destruct s_ok as (HA & HB & HC & HD & HDB).
  apply bind_Ok in Hsim as ([X1 Y1] & Hloop & Hsim).
  apply bind_Ok in Hsim as (Y2 & Hlast & [= <- <-]).
  destruct (dlsim_loop_Ok _ _ _ _ _ HX0 HY0 Hloop)
    as (HX1 & HY1 & HnX & HnY & HkeepX & HkeepY & Hrec).
  apply dlsim_last_Ok in Hlast
    as (xl & ul & Hxl & Hul & Hlxl & Hlul & Hlt & ->); [|done].
  assert (N - 1 < nrows X1) as HltX by (by apply lookup_lt_Some in Hxl).
  unfold nrows in *. simpl. rewrite length_insert.
  repeat split; try done; try lia.
  - apply HkeepX. by left.
  - intros i Hi.
    destruct (Hrec i) as (xi & ui & ? & ? & ? & ? & ? & ? & ?); [lia|].
    by exists xi, ui.
  - intros i Hi. destruct (decide (i = N - 1)) as [->|Hne].
    + exists xl, ul. rewrite list_lookup_insert_eq by lia.
      repeat split; try done; lia.
    + destruct (Hrec i) as (xi & ui & ? & ? & ? & ? & ? & ? & ?); [lia|].
      exists xi, ui. rewrite list_lookup_insert_ne by lia. done.
Qed.

Lemma simulate_run N X0 Y0 x0 :
  ncols X0 = n → ncols Y0 = q → 1 ≤ N → N ≤ nrows X0 → N ≤ nrows Y0 →
  rows X0 !! 0 = Some x0 → length x0 = n →
  (∀ i, i < N → ∃ ui, rows u_dt !! i = Some ui ∧ length ui = ncols (B s)) →
  is_ok (simulate s u_dt N X0 Y0).
Proof.
  intros HX0 HY0 HN HNX HNY Hx0 Hlx0 Hu.
  destruct (dlsim_loop_run (N - 1) X0 Y0 x0) as ([X1 Y1] & Hloop);
    try done; try lia.
  { intros i Hi. apply Hu. lia. }
  destruct (dlsim_loop_Ok _ _ _ _ _ HX0 HY0 Hloop)
    as (HX1 & HY1 & HnX & HnY & HkeepX & HkeepY & Hrec).
  destruct (Hu (N - 1)) as (ul & Hul & Hlul); [lia|].
  assert (∃ xl, rows X1 !! (N - 1) = Some xl ∧ length xl = n)
    as (xl & Hxl & Hlxl).
  { destruct (N - 1) as [|k'] eqn:Hk.
    - exists x0. rewrite HkeepX by lia. done.
    - destruct (Hrec k') as (xi & ui & _ & _ & _ & _ & _ & Hnext & _); [lia|].
      eexists. split; [exact Hnext|]. apply length_next_state. }
  unfold simulate. rewrite Hloop. simpl.
  rewrite (dlsim_last_run (N - 1) X1 Y1 xl ul); try done; try lia.
  by eexists.
Qed.
End simulation_loop.

(** ** What a successful run of [dlsim] went through *)

Lemma for_range_inv {S : Type} (P : S → Prop) (body : nat → S → py S)
    idx s s' :
  (∀ i s1 s2, P s1 → body i s1 = Ok s2 → P s2) →
  P s → for_range body idx s = Ok s' → P s'.
Proof.
  intros Hbody. revert s. induction idx as [|i idx IH]; intros s Hs Hrun.
  - by injection Hrun as <-.
  - simpl in Hrun. apply bind_Ok in Hrun as (s1 & Hs1 & Hrun). eauto.
Qed.

Lemma dlsim_step_shape s u_dt i X Y X' Y' :
  dlsim_step s u_dt i (X, Y) = Ok (X', Y') →
  shape X' = shape X ∧ shape Y' = shape Y.
Proof.
  unfold dlsim_step. intros Hstep. py_inv Hstep.
  injection Hstep as <- <-.
  match goal with
  | HX : set_row X _ _ = Ok _, HY : set_row Y _ _ = Ok _ |- _ =>
      apply set_row_shape in HX as [? ?]; apply set_row_shape in HY as [? ?]
  end.
  unfold shape. split; congruence.
Qed.

Lemma simulate_shape s u_dt N X0 Y0 X Y :
  simulate s u_dt N X0 Y0 = Ok (X, Y) →
  shape X = shape X0 ∧ shape Y = shape Y0.
Proof.
  unfold simulate. intros Hsim.
  apply bind_Ok in Hsim as ([X1 Y1] & Hloop & Hsim).
  apply bind_Ok in Hsim as (Y2 & Hlast & [= <- <-]).
  apply (for_range_inv
           (λ p, shape p.1 = shape X0 ∧ shape p.2 = shape Y0)) in Hloop;
    [|intros i [Xa Ya] [Xb Yb] [HXa HYa] Hstep;
      apply dlsim_step_shape in Hstep as [HXb HYb]; simpl in *;
      split; congruence|done].
  simpl in Hloop. destruct Hloop as [HX1 HY1]. split; [done|].
  unfold dlsim_last in Hlast. py_inv Hlast.
  apply set_row_shape in Hlast as [? ?].
  rewrite <- HY1. unfold shape. congruence.
Qed.

Lemma dlsim_ss_Ok `{Quotient} ss u t x0 tout yout xout :
  dlsim_ss ss u t x0 = Ok (tout, yout, xout) →
  ∃ dt out_samples stoptime X0 u_dt,
    ss_dom ss = Discrete dt ∧
    sample_count (input_columns u) t dt = Ok (Z.of_nat out_samples, stoptime) ∧
    1 ≤ out_samples ∧
    tout = linspace 0%Qc stoptime out_samples true ∧
    match x0 with
    | None => set_row (zeros out_samples (nrows (A ss))) 0
                (zeros1 (ncols (A ss)))
    | Some x0 => assign_row (zeros out_samples (nrows (A ss))) 0 x0
    end = Ok X0 ∧
    match t with
    | None => Ok (input_columns u)
    | Some t => make_interp_spline1 t (input_columns u) tout
    end = Ok u_dt ∧
    simulate ss u_dt out_samples X0 (zeros out_samples (nrows (C ss)))
    = Ok (xout, yout).
Proof.
  unfold dlsim_ss. intros Hrun.
  apply bind_Ok in Hrun as (dt & Hdt & Hrun).
  apply bind_Ok in Hrun as ([out_z stoptime] & Hcount & Hrun).
  apply bind_Ok in Hrun as (N & HN & Hrun).
  apply bind_Ok in Hrun as (X0 & HX0 & Hrun).
  apply bind_Ok in Hrun as (u_dt & Hu & Hrun).
  apply bind_Ok in Hrun as ([X Y] & Hsim & [= <- <- <-]).
  case_decide as Hneg; [discriminate|]. injection HN as <-.
  exists dt, (Z.to_nat out_z), stoptime, X0, u_dt.
  rewrite Z2Nat.id by lia.
  assert (0 < nrows (zeros (Z.to_nat out_z) (nrows (A ss)))) as Hpos.
  { destruct x0 as [x0|].
    - by apply assign_row_shape in HX0 as [? _].
    - by apply set_row_Ok in HX0 as [? _]. }
  rewrite nrows_zeros in Hpos.
  repeat split; try done; try lia.
  by destruct (ss_dom ss); [discriminate|injection Hdt as ->].
Qed.

Lemma nrows_input_columns u : len (atleast_1d u) = Ok (nrows (input_columns u)).
Proof.
  destruct u as [x|v|M]; simpl; try done.
  unfold input_columns, transpose, nrows. simpl.
  by rewrite length_fmap, length_seq.
Qed.

Section sampling.
Context `{Conversions}.
Context `{rounding : Quotient}.

Lemma discrete_system_dt system s dt :
  arg_dt system = Some dt → discrete_system system = Ok s →
  domain s = Discrete dt.
Proof.
  destruct system as [s0|args dt0]; simpl.
  - intros Hdt Hs. destruct (is_lti s0); [discriminate|].
    injection Hs as <-. by destruct (domain s0); [|injection Hdt as ->].
  - intros [= <-] Hs. by apply by_arity_domain in Hs.
Qed.

(** C3, amended.  The number of output samples of a successful call is
    [len(u)] when [t] is omitted and floor(t[-1] / dt) + 1 when [t] is
    given, the quotient being the one the code computes.  The time vector
    is [linspace] of that many points from zero to the stop time, which is
    (out_samples - 1) dt when [t] is omitted and t[-1] when it is given: in
    the second case it is the time vector of the first case if t[-1] is
    (out_samples - 1) dt. *)
Theorem dlsim_samples_and_times (system : system_arg) (u : ndarray)
    (t : option vec) (x0 : option ndarray) (r : dlsim_result) (dt : Qc) :
  arg_dt system = Some dt →
  dlsim system u t x0 = Ok r →
  let out_samples := nrows (yout_of r) in
  1 ≤ out_samples ∧
  match t with
  | None =>
      len (atleast_1d u) = Ok out_samples ∧ spaced_by_dt dt r
  | Some tv =>
      ∃ stop, last tv = Some stop ∧ dt ≠ 0%Qc ∧
        Z.of_nat out_samples = (Qfloor (fdiv stop dt) + 1)%Z ∧
        tout_of r = linspace 0%Qc stop out_samples true ∧
        (stop = (Qc_of_Z (Z.of_nat out_samples - 1) * dt)%Qc →
         spaced_by_dt dt r)
  end.
Proof.
  intros Hdt Hr.
  apply dlsim_Ok in Hr as (s & ss & tout & yout & xout & Hs & Hss & Hrun & Hr).
  pose proof (discrete_system_dt _ _ _ Hdt Hs) as Hdom.
  apply _as_ss_domain in Hss. rewrite Hdom in Hss.
  apply dlsim_ss_Ok in Hrun
    as (dt' & N & stoptime & X0 & u_dt & Hdt' & Hcount & HN & Htout & _ & _
        & Hsim).
  rewrite Hss in Hdt'. injection Hdt' as <-.
  apply simulate_shape in Hsim as [_ [= HnY _]]. rewrite nrows_zeros in HnY.
  assert (nrows (yout_of r) = N ∧ tout_of r = tout) as [HrN Hrt]
    by (rewrite Hr; by destruct (is_StateSpace s)).
  simpl. rewrite HrN. split; [done|].
  destruct t as [tv|]; simpl in Hcount.
  - apply bind_Ok in Hcount as (stop & Hstop & Hcount).
    apply bind_Ok in Hcount as (fl & Hfl & [= HNz <-]).
    unfold last_elem in Hstop.
    destruct (last tv) as [stop'|] eqn:Hlast; [|discriminate].
    injection Hstop as ->.
    unfold int_floor_div in Hfl. case_decide as Hz; [discriminate|].
    injection Hfl as <-.
    exists stop. repeat split; try done; try lia.
    + by rewrite Hrt.
    + intros Hmult. unfold spaced_by_dt. rewrite HrN, Hrt, Htout.
      by rewrite <- Hmult.
  - injection Hcount as HNu <-.
    apply Nat2Z.inj in HNu. split.
    + rewrite nrows_input_columns. by rewrite <- HNu.
    + unfold spaced_by_dt. rewrite HrN, Hrt, Htout. by rewrite <- HNu.
Qed.
End sampling.

Lemma dlsim_samples_and_times_witness :
  (∃ r, dlsim (SysObject (IsSS sys_half)) pulse4 None None = Ok r ∧
     nrows (yout_of r) = 4 ∧
     len (atleast_1d pulse4) = Ok 4 ∧
     spaced_by_dt 1%Qc r) ∧
  (∃ r, dlsim (SysObject (IsSS sys_half)) ones2 (Some [0%Qc; 1%Qc]) None
        = Ok r ∧
     nrows (yout_of r) = 2 ∧
     Z.of_nat 2 = (Qfloor (fdiv 1%Qc 1%Qc) + 1)%Z ∧
     tout_of r = linspace 0%Qc 1%Qc 2 true ∧
     spaced_by_dt 1%Qc r).
Proof.
  split.
  - assert (∃ r, dlsim (SysObject (IsSS sys_half)) pulse4 None None = Ok r)
      as [r Hr] by (eexists; vm_compute; reflexivity).
    exists r. split; [exact Hr|].
    assert (nrows (yout_of r) = 4) as Hrows.
    { vm_compute in Hr. injection Hr as <-. reflexivity. }
    split; [exact Hrows|].
    destruct (dlsim_samples_and_times (SysObject (IsSS sys_half)) pulse4
                None None r 1%Qc eq_refl Hr) as (_ & Hlen & Hgrid).
    rewrite Hrows in Hlen. by split.
  - assert (∃ r, dlsim (SysObject (IsSS sys_half)) ones2
                   (Some [0%Qc; 1%Qc]) None = Ok r)
      as [r Hr] by (eexists; vm_compute; reflexivity).
    exists r. split; [exact Hr|].
    assert (nrows (yout_of r) = 2) as Hrows.
    { vm_compute in Hr. injection Hr as <-. reflexivity. }
    split; [exact Hrows|].
    destruct (dlsim_samples_and_times (SysObject (IsSS sys_half)) ones2
                (Some [0%Qc; 1%Qc]) None r 1%Qc eq_refl Hr)
      as (_ & stop & Hstop & _ & Hcount & Htout & Hgrid).
    injection Hstop as <-. rewrite Hrows in Hcount, Htout, Hgrid.
    split; [exact Hcount|]. split; [exact Htout|].
    apply Hgrid. compute_done.
Defined.

(** C3 as stated fails: with dt = 1 and t = [0, 1.5] there are two output
    samples and the time vector is [0, 1.5], not the grid [0, 1] of spacing
    dt. *)
Lemma dlsim_times_not_spaced_by_dt :
  dlsim (SysObject (IsSS sys_half)) ones2 (Some times_0_1p5) None
  = Ok (Triple [0%Qc; three_halves]
               (Mat 1 [[0%Qc]; [1%Qc]]) (Mat 1 [[0%Qc]; [1%Qc]])) ∧
  ¬ spaced_by_dt 1%Qc
      (Triple [0%Qc; three_halves]
              (Mat 1 [[0%Qc]; [1%Qc]]) (Mat 1 [[0%Qc]; [1%Qc]])).
Proof.
  split; [compute_done|].
  unfold spaced_by_dt. compute_done.
Qed.

(** ** Frequency response of a transfer function *)

Lemma _z_to_zinv_pads (b a : vec) :
  TransferFunction_._z_to_zinv b a
  = (zeros1 (length a - length b) ++ b, zeros1 (length b - length a) ++ a).
Proof.
  unfold TransferFunction_._z_to_zinv, hstack1.
  repeat case_decide.
  - replace (length a - length b) with 0 by lia.
    by replace (Z.to_nat (Z.of_nat (length b) - Z.of_nat (length a)))
      with (length b - length a) by lia.
  - replace (length b - length a) with 0 by lia.
    by replace (Z.to_nat (- (Z.of_nat (length b) - Z.of_nat (length a))))
      with (length a - length b) by lia.
  - replace (length a - length b) with 0 by lia.
    by replace (length b - length a) with 0 by lia.
Qed.

Lemma _z_to_zinv_lengths (b a : vec) :
  length (TransferFunction_._z_to_zinv b a).1 = length b `max` length a ∧
  length (TransferFunction_._z_to_zinv b a).2 = length b `max` length a.
Proof.
  rewrite _z_to_zinv_pads. simpl.
  rewrite !length_app, !length_zeros1. lia.
Qed.

(** At the frequency zero every power of the inverse delay is one, and a
    polynomial takes the sum of its coefficients. *)
Lemma polyval_asc_dc (c : vec) : polyval_asc c (creal 1%Qc) = creal (vsum c).
Proof.
  induction c as [|ck c IH]; simpl; [done|].
  rewrite IH. unfold cadd, cmul, creal. simpl. f_equal; ring.
Qed.

Section frequency_response.
Context `{Conversions}.
Context `{rounding : Quotient}.

(** [dfreqresp] on a transfer function: pad, then evaluate. *)
Lemma dfreqresp_transfer_function (s : TransferFunction)
    (w : option (list complex)) (n : nat) (whole : bool) :
  is_dlti (IsTF s) = true →
  TransferFunction_.inputs s = 1 ∧ TransferFunction_.outputs s = 1 →
  dfreqresp (SysObject (IsTF s)) w n whole
  = freqz (zeros1 (length (den s) - length (ravel (num s))) ++ ravel (num s))
          (zeros1 (length (ravel (num s)) - length (den s)) ++ den s)
          (match w with Some w => inl w | None => inr n end) whole.
Proof.
  intros Hd Hsiso. unfold dfreqresp. simpl. rewrite Hd. simpl.
  rewrite bool_decide_eq_true_2 by done. simpl.
  by rewrite _z_to_zinv_pads.
Qed.

(** C6.  For a discrete single-input single-output transfer function
    [dfreqresp] first pads the shorter of numerator and denominator with
    zeros on the left, which makes them equally long, and evaluates the
    response of the padded pair; for num = [1], den = [1, -0.5] and dt = 1
    the response at the frequency zero is 2. *)
Theorem dfreqresp_pads_then_evaluates (s : TransferFunction)
    (w : option (list complex)) (n : nat) (whole : bool) :
  is_dlti (IsTF s) = true →
  TransferFunction_.inputs s = 1 ∧ TransferFunction_.outputs s = 1 →
  let b := ravel (num s) in
  let a := den s in
  let b' := zeros1 (length a - length b) ++ b in
  let a' := zeros1 (length b - length a) ++ a in
  TransferFunction_._z_to_zinv b a = (b', a') ∧
  length b' = length a' ∧
  dfreqresp (SysObject (IsTF s)) w n whole
  = freqz b' a' (match w with Some w => inl w | None => inr n end) whole ∧
  dfreqresp (SysObject (IsTF tf_half)) (Some [creal 1%Qc]) n whole
  = Ok ([creal 1%Qc], [Some (creal two)]).
Proof.
  intros Hd Hsiso b a b' a'.
  split; [apply _z_to_zinv_pads|].
  split.
  { unfold b', a'. rewrite !length_app, !length_zeros1. lia. }
  split; [by apply dfreqresp_transfer_function|compute_done].
Qed.

(** The response at the frequency zero is the quotient of the sums of the
    coefficients. *)
Lemma dfreqresp_dc (s : TransferFunction) (n : nat) (whole : bool) :
  is_dlti (IsTF s) = true →
  TransferFunction_.inputs s = 1 ∧ TransferFunction_.outputs s = 1 →
  dfreqresp (SysObject (IsTF s)) (Some [creal 1%Qc]) n whole
  = Ok ([creal 1%Qc],
        [cdiv (creal (vsum (ravel (num s)))) (creal (vsum (den s)))]).
Proof.
  intros Hd Hsiso.
  rewrite dfreqresp_transfer_function by done.
  unfold freqz. simpl. rewrite !polyval_asc_dc.
  assert (∀ k (c : vec), vsum (zeros1 k ++ c) = vsum c) as Hpad.
  { intros k c. induction k as [|k IH]; simpl; [done|].
    unfold zeros1 in IH. rewrite IH. ring. }
  by rewrite !Hpad.
Qed.
End frequency_response.

Lemma dfreqresp_pads_then_evaluates_witness :
  is_dlti (IsTF tf_half) = true ∧
  (TransferFunction_.inputs tf_half = 1 ∧
   TransferFunction_.outputs tf_half = 1) ∧
  TransferFunction_._z_to_zinv [1%Qc] [1%Qc; (- half)%Qc]
  = ([0%Qc; 1%Qc], [1%Qc; (- half)%Qc]) ∧
  dfreqresp (SysObject (IsTF tf_half)) (Some [creal 1%Qc]) 100 false
  = Ok ([creal 1%Qc], [Some (creal two)]).
Proof.
  split; [reflexivity|]. split; [split; reflexivity|].
  destruct (dfreqresp_pads_then_evaluates tf_half (Some [creal 1%Qc])
              100 false eq_refl (conj eq_refl eq_refl))
    as (Hpad & _ & _ & Hdc).
  split; [exact Hpad|exact Hdc].
Defined.

(** ** Parallel composition *)

Lemma stretch_same {T : Type} (l : list T) n : length l = n → stretch l n = l.
Proof. intros Hl. unfold stretch. by rewrite decide_True. Qed.

Lemma broadcast_to_same M : mat_ok M → broadcast_to M (nrows M) (ncols M) = M.
Proof.
  intros HM. unfold broadcast_to. rewrite stretch_same by done.
  destruct M as [c rs]. unfold mat_ok in HM. simpl in *. f_equal.
  induction HM as [|v rs Hv _ IH]; [done|].
  rewrite fmap_cons, IH. by rewrite stretch_same.
Qed.

Lemma madd_same_shape M N :
  mat_ok M → mat_ok N → shape M = shape N →
  madd M N = Ok (Mat (ncols M) (zip_with vadd (rows M) (rows N))).
Proof.
  intros HM HN [= Hr Hc]. unfold madd, bdim.
  rewrite !decide_True by done. cbn -[broadcast_to].
  rewrite (broadcast_to_same M HM).
  rewrite Hr, Hc. by rewrite (broadcast_to_same N HN).
Qed.

Lemma operand_2d_checked other m :
  StateSpace_.operand_2d other = Ok m →
  StateSpace_._check_binop_other other = true ∧
  StateSpace_.is_ss_operand other = false.
Proof. destruct other as [[| |]| | |]; simpl; try discriminate; done. Qed.

(** C8.  Adding an array or a number whose two-dimensional shape differs
    from the shape of [D] raises ValueError (the specification's
    IncompatibleDimensions); so does adding a state-space system of the
    same time domain whose [D] has another shape; and adding an array or a
    number of the shape of [D] gives the system with the same [A], [B] and
    [C] and with [D + other] for [D]. *)
Theorem add_checks_feedthrough_shape :
  (∀ (self : StateSpace) (other : operand) (m : matrix),
     StateSpace_.operand_2d other = Ok m →
     shape m ≠ shape (D self) →
     StateSpace_.__add__ self other = Some (Raise ValueError)) ∧
  (∀ self other : StateSpace,
     ss_shapes self → ss_shapes other →
     ss_dom other = ss_dom self →
     shape (D other) ≠ shape (D self) →
     StateSpace_.__add__ self (OpSystem (IsSS other))
     = Some (Raise ValueError)) ∧
  (∀ (self : StateSpace) (other : operand) (m : matrix),
     ss_ok self →
     StateSpace_.operand_2d other = Ok m → mat_ok m →
     shape m = shape (D self) →
     StateSpace_.__add__ self other
     = Some (Ok (SS (A self) (B self) (C self)
                    (Mat (ncols (D self))
                         (zip_with vadd (rows (D self)) (rows m)))
                    (ss_dom self)))).
Proof.
  split; [|split].
  - intros self other m Hm Hshape.
    destruct (operand_2d_checked _ _ Hm) as [Hchk _].
    unfold StateSpace_.__add__. rewrite Hchk. simpl.
    destruct other as [[| |]| | |]; simpl in *; try discriminate;
      injection Hm as <-; by rewrite decide_False.
  - intros self other (_ & _ & _ & HD1 & HDB1) (_ & _ & _ & HD2 & HDB2)
      Hdom Hshape.
    unfold StateSpace_.__add__. simpl. rewrite Hdom.
    assert (same_type (ss_dom self) (ss_dom self) = true) as ->
      by (by destruct (ss_dom self)).
    simpl. rewrite decide_False by (by intros Hne).
    unfold vstack, hstack.
    destruct (decide (ncols (B self) = ncols (B other))) as [HB|HB]; [|done].
    simpl.
    destruct (decide (nrows (C self) = nrows (C other))) as [HC|HC]; [|done].
    exfalso. apply Hshape. unfold shape. congruence.
  - intros self other m (HmA & HmB & HmC & HmD & Hshapes) Hm Hmok Hshape.
    destruct (operand_2d_checked _ _ Hm) as [Hchk _].
    unfold StateSpace_.__add__. rewrite Hchk. simpl.
    assert (Some (other0 ← StateSpace_.operand_2d other;
                  if decide (shape (D self) = shape other0)
                  then d ← madd (D self) other0;
                       StateSpace_.__init__ (Arr2 (A self)) (Arr2 (B self))
                         (Arr2 (C self)) (Arr2 d) (ss_dom self)
                  else Raise ValueError)
            = Some (Ok (SS (A self) (B self) (C self)
                          (Mat (ncols (D self))
                             (zip_with vadd (rows (D self)) (rows m)))
                          (ss_dom self)))) as Hrun.
    { rewrite Hm. simpl. rewrite decide_True by done.
      rewrite madd_same_shape by done. simpl.
      unfold StateSpace_.__init__. rewrite abcd_normalize_2d; [done|].
      destruct Hshapes as (HA & HB & HC & HD & HDB).
      injection Hshape as Hr Hc.
      unfold abcd_shapes, nrows in *. simpl.
      rewrite length_zip_with. repeat split; try done. lia. }
    destruct other as [[| |]| | |]; simpl in *; try discriminate; exact Hrun.
Qed.

Lemma add_checks_feedthrough_shape_witness :
  StateSpace_.__add__ sys_half (OpArray (Arr1 [1%Qc; 1%Qc]))
  = Some (Raise ValueError) ∧
  StateSpace_.__add__ sys_two_outputs (OpSystem (IsSS sys_half))
  = Some (Raise ValueError) ∧
  StateSpace_.__add__ sys_half (OpNumber two)
  = Some (Ok (SS (Mat 1 [[half]]) (Mat 1 [[1%Qc]]) (Mat 1 [[1%Qc]])
                 (Mat 1 [[two]]) (Discrete 1%Qc))).
Proof.
  destruct add_checks_feedthrough_shape as (Hmismatch & Hsystems & Hmatch).
  split; [|split].
  - apply (Hmismatch sys_half (OpArray (Arr1 [1%Qc; 1%Qc]))
             (Mat 2 [[1%Qc; 1%Qc]])); [reflexivity|compute_done].
  - apply (Hsystems sys_two_outputs sys_half); compute_done.
  - etrans.
    + apply (Hmatch sys_half (OpNumber two) (Mat 1 [[two]]));
        first [reflexivity|compute_done].
    + compute_done.
Defined.

(** ** Entries of stacked arrays and of products *)

Lemma get_lookup M i j r x :
  rows M !! i = Some r → r !! j = Some x → get M i j = x.
Proof.
  intros Hr Hx. unfold get.
  rewrite (nth_lookup_Some _ _ _ _ Hr). by apply nth_lookup_Some.
Qed.

Lemma get_zeros m n i j : get (zeros m n) i j = 0%Qc.
Proof.
  unfold get, zeros, zeros1. simpl.
  destruct (decide (i < m)) as [Hi|Hi].
  - rewrite (nth_lookup_Some _ _ _ (replicate n 0%Qc));
      [|by apply lookup_replicate_2].
    destruct (decide (j < n)) as [Hj|Hj].
    + by apply nth_lookup_Some, lookup_replicate_2.
    + apply nth_overflow. rewrite length_replicate. lia.
  - rewrite (nth_overflow _ _ (n := i)) by (rewrite length_replicate; lia).
    by destruct j.
Qed.

Lemma nrows_mm M N : nrows (mm M N) = nrows M.
Proof. unfold nrows, mm. simpl. by rewrite length_fmap. Qed.

Lemma dot_sum (u v : vec) :
  length u = length v →
  dot u v = sum_upto (length u) (λ k, nth k u 0 * nth k v 0)%Qc.
Proof.
  unfold dot, sum_upto. revert v.
  induction u as [|a u IH]; intros [|b v] Hlen; simpl in *; try done.
  rewrite IH by lia. f_equal. f_equal.
  by rewrite <- fmap_S_seq, <- list_fmap_compose.
Qed.

Lemma get_mm M N i j :
  mat_ok M → ncols M = nrows N → i < nrows M → j < ncols N →
  get (mm M N) i j = product_entry M N i j.
Proof.
  intros HM Hinner Hi Hj. unfold product_entry.
  destruct (lookup_lt_is_Some_2 (rows M) i Hi) as [r Hr].
  assert (length r = ncols M) as Hlr.
  { unfold mat_ok in HM. rewrite Forall_lookup in HM. eauto. }
  rewrite (get_lookup (mm M N) i j (vm r N) (dot r (column N j))).
  - rewrite dot_sum
      by (unfold column; rewrite length_fmap; unfold nrows in Hinner; lia).
    rewrite Hlr. unfold sum_upto. f_equal.
    apply list_fmap_ext. intros idx k Hk. apply lookup_seq in Hk as [-> Hk].
    simpl. f_equal.
    + unfold get. by rewrite (nth_lookup_Some _ _ _ _ Hr).
    + unfold column, get.
      destruct (lookup_lt_is_Some_2 (rows N) idx) as [rk Hrk];
        [unfold nrows in Hinner; lia|].
      rewrite (nth_lookup_Some _ _ _ _ Hrk).
      apply nth_lookup_Some. by rewrite list_lookup_fmap, Hrk.
  - unfold mm. simpl. by rewrite list_lookup_fmap, Hr.
  - unfold vm. rewrite list_lookup_fmap, lookup_seq_lt by done. done.
Qed.

Lemma hstack_Ok M N :
  nrows M = nrows N →
  hstack M N = Ok (Mat (ncols M + ncols N) (zip_with app (rows M) (rows N))).
Proof. intros Hr. unfold hstack. by rewrite decide_True. Qed.

Lemma vstack_Ok M N :
  ncols M = ncols N → vstack M N = Ok (Mat (ncols M) (rows M ++ rows N)).
Proof. intros Hc. unfold vstack. by rewrite decide_True. Qed.

Lemma matmat_Ok M N : ncols M = nrows N → matmat M N = Ok (mm M N).
Proof. intros Hc. unfold matmat. by rewrite decide_True. Qed.

Lemma get_hstacked c M N i j :
  mat_ok M → nrows M = nrows N → i < nrows M →
  get (Mat c (zip_with app (rows M) (rows N))) i j
  = if decide (j < ncols M) then get M i j else get N i (j - ncols M).
Proof.
  intros HM Hr Hi. unfold get. simpl.
  destruct (lookup_lt_is_Some_2 (rows M) i Hi) as [r Hrow].
  destruct (lookup_lt_is_Some_2 (rows N) i) as [r' Hrow'];
    [unfold nrows in *; lia|].
  assert (length r = ncols M) as Hlr.
  { unfold mat_ok in HM. rewrite Forall_lookup in HM. eauto. }
  rewrite (nth_lookup_Some _ _ _ (r ++ r'));
    [|by rewrite lookup_zip_with, Hrow, Hrow'].
  rewrite (nth_lookup_Some _ _ _ _ Hrow), (nth_lookup_Some _ _ _ _ Hrow').
  case_decide.
  - apply app_nth1. lia.
  - rewrite app_nth2 by lia. by rewrite Hlr.
Qed.

Lemma get_vstacked c M N i j :
  get (Mat c (rows M ++ rows N)) i j
  = if decide (i < nrows M) then get M i j else get N (i - nrows M) j.
Proof.
  unfold get. simpl. case_decide.
  - by rewrite app_nth1.
  - by rewrite app_nth2 by (unfold nrows in *; lia).
Qed.

(** ** Series composition and multiplication by an array *)

Lemma same_type_refl d : same_type d d = true.
Proof. by destruct d. Qed.

(** The run of [__mul__] on two compatible systems. *)
Lemma mul_series_run (self other : StateSpace) :
  ss_shapes self → ss_shapes other →
  ss_dom other = ss_dom self →
  ncols (B self) = nrows (C other) →
  StateSpace_.__mul__ self (OpSystem (IsSS other))
  = Some (Ok (SS
      (Mat (ncols (A self) + ncols (C other))
         (zip_with app (rows (A self)) (rows (mm (B self) (C other))) ++
          zip_with app (rows (zeros (nrows (A other)) (nrows (A self))))
            (rows (A other))))
      (Mat (ncols (D other))
         (rows (mm (B self) (D other)) ++ rows (B other)))
      (Mat (ncols (C self) + ncols (C other))
         (zip_with app (rows (C self)) (rows (mm (D self) (C other)))))
      (mm (D self) (D other))
      (ss_dom self))).
Proof.
  intros (HA1 & HB1 & HC1 & HD1 & HDB1) (HA2 & HB2 & HC2 & HD2 & HDB2)
    Hdom Hinner.
  unfold StateSpace_.__mul__.
  cbn [StateSpace_._check_binop_other negb].
  rewrite Hdom, same_type_refl. cbn [negb].
  rewrite decide_False by (by intros Hne).
  rewrite (matmat_Ok (B self) (C other)) by done.
  cbn [mbind py_bind].
  rewrite (hstack_Ok (A self)) by (by rewrite nrows_mm).
  cbn [mbind py_bind].
  rewrite (hstack_Ok (zeros _ _)) by apply nrows_zeros.
  cbn [mbind py_bind].
  rewrite vstack_Ok by (cbn [ncols mm zeros]; lia).
  cbn [mbind py_bind].
  rewrite (matmat_Ok (B self) (D other)) by lia.
  cbn [mbind py_bind].
  rewrite vstack_Ok by (cbn [ncols mm]; lia).
  cbn [mbind py_bind].
  rewrite (matmat_Ok (D self) (C other)) by lia.
  cbn [mbind py_bind].
  rewrite (hstack_Ok (C self)) by (rewrite nrows_mm; lia).
  cbn [mbind py_bind].
  rewrite (matmat_Ok (D self) (D other)) by lia.
  cbn [mbind py_bind].
  unfold StateSpace_.__init__. rewrite abcd_normalize_2d; [done|].
  unfold abcd_shapes, nrows in *. cbn [ncols rows mm zeros].
  rewrite !length_app, !length_zip_with, !length_fmap, !length_replicate.
  repeat split; lia.
Qed.

(** The series connection, entry by entry. *)
Lemma mul_series (self other : StateSpace) :
  ss_ok self → ss_ok other →
  ss_dom other = ss_dom self →
  ncols (B self) = nrows (C other) →
  ∃ R, StateSpace_.__mul__ self (OpSystem (IsSS other)) = Some (Ok R) ∧
    ss_dom R = ss_dom self ∧
    shape (A R) = (nrows (A self) + nrows (A other),
                   nrows (A self) + nrows (A other)) ∧
    shape (B R) = (nrows (A self) + nrows (A other), ncols (B other)) ∧
    shape (C R) = (nrows (C self), nrows (A self) + nrows (A other)) ∧
    shape (D R) = (nrows (C self), ncols (B other)) ∧
    (∀ i j, i < nrows (A self) + nrows (A other) →
            j < nrows (A self) + nrows (A other) →
       get (A R) i j = series_A self other i j) ∧
    (∀ i j, i < nrows (A self) + nrows (A other) → j < ncols (B other) →
       get (B R) i j = series_B self other i j) ∧
    (∀ i j, i < nrows (C self) → j < nrows (A self) + nrows (A other) →
       get (C R) i j = series_C self other i j) ∧
    (∀ i j, i < nrows (C self) → j < ncols (B other) →
       get (D R) i j = series_D self other i j).
Proof.
  intros (HmA1 & HmB1 & HmC1 & HmD1 & Hs1) (HmA2 & HmB2 & HmC2 & HmD2 & Hs2)
    Hdom Hinner.
  eexists. split; [by apply mul_series_run|].
  destruct Hs1 as (HA1 & HB1 & HC1 & HD1 & HDB1).
  destruct Hs2 as (HA2 & HB2 & HC2 & HD2 & HDB2).
  cbn [A B C D ss_dom].
  split; [done|].
  split.
  { unfold shape, nrows in *. cbn [ncols rows mm zeros].
    rewrite !length_app, !length_zip_with, !length_fmap, !length_replicate.
    f_equal; lia. }
  split.
  { unfold shape, nrows in *. cbn [ncols rows mm].
    rewrite !length_app, !length_fmap. f_equal; lia. }
  split.
  { unfold shape, nrows in *. cbn [ncols rows mm].
    rewrite !length_zip_with, !length_fmap. f_equal; lia. }
  split.
  { unfold shape. rewrite nrows_mm. cbn [ncols mm]. f_equal; lia. }
  split; [|split; [|split]].
  - intros i j Hi Hj. unfold series_A.
    rewrite (get_vstacked _
               (Mat (ncols (A self) + ncols (mm (B self) (C other)))
                    (zip_with app (rows (A self))
                       (rows (mm (B self) (C other)))))
               (Mat (ncols (zeros (nrows (A other)) (nrows (A self)))
                     + ncols (A other))
                    (zip_with app
                       (rows (zeros (nrows (A other)) (nrows (A self))))
                       (rows (A other))))).
    assert (nrows (Mat (ncols (A self) + ncols (mm (B self) (C other)))
                    (zip_with app (rows (A self))
                       (rows (mm (B self) (C other))))) = nrows (A self))
      as ->.
    { unfold nrows in *. cbn [rows mm].
      rewrite length_zip_with, length_fmap. lia. }
    destruct (decide (i < nrows (A self))) as [Hi1|Hi1].
    + rewrite get_hstacked; [|done|by rewrite nrows_mm|done].
      rewrite HA1.
      destruct (decide (j < nrows (A self))) as [Hj1|Hj1]; [done|].
      apply get_mm; try done; try lia.
    + rewrite get_hstacked;
        [|apply mat_ok_zeros|by rewrite nrows_zeros
         |rewrite nrows_zeros; lia].
      cbn [ncols zeros].
      destruct (decide (j < nrows (A self))) as [Hj1|Hj1];
        [apply get_zeros|done].
  - intros i j Hi Hj. unfold series_B.
    rewrite (get_vstacked _ (mm (B self) (D other)) (B other)).
    rewrite nrows_mm, HB1.
    destruct (decide (i < nrows (A self))) as [Hi1|Hi1]; [|done].
    apply get_mm; try done; lia.
  - intros i j Hi Hj. unfold series_C.
    rewrite (get_hstacked _ (C self) (mm (D self) (C other)));
      [|done|rewrite nrows_mm; lia|done].
    rewrite HC1.
    destruct (decide (j < nrows (A self))) as [Hj1|Hj1]; [done|].
    apply get_mm; try done; lia.
  - intros i j Hi Hj. unfold series_D.
    apply get_mm; try done; lia.
Qed.

(** Multiplication by a two-dimensional array scales the input side. *)
Lemma mul_matrix (self : StateSpace) (m : matrix) :
  ss_ok self → nrows m = ncols (B self) →
  StateSpace_.__mul__ self (OpArray (Arr2 m))
  = Some (Ok (SS (A self) (mm (B self) m) (C self) (mm (D self) m)
                 (ss_dom self))) ∧
  (∀ i j, i < nrows (B self) → j < ncols m →
     get (mm (B self) m) i j = product_entry (B self) m i j) ∧
  (∀ i j, i < nrows (D self) → j < ncols m →
     get (mm (D self) m) i j = product_entry (D self) m i j).
Proof.
  intros (HmA & HmB & HmC & HmD & HA & HB & HC & HD & HDB) Hm.
  split; [|split].
  - unfold StateSpace_.__mul__.
    cbn [StateSpace_._check_binop_other negb StateSpace_.matmul_operand
         matmul].
    rewrite !matmat_Ok by lia.
    cbn [fmap py_fmap mbind py_bind].
    unfold StateSpace_.__init__. rewrite abcd_normalize_2d; [done|].
    unfold abcd_shapes. rewrite !nrows_mm. cbn [ncols mm]. done.
  - intros i j Hi Hj. apply get_mm; try done; lia.
  - intros i j Hi Hj. apply get_mm; try done; lia.
Qed.

Example mul_matrix_gain :
  StateSpace_.__mul__ sys_half (OpArray (Arr2 gain2))
  = Some (Ok (SS (Mat 1 [[half]]) (Mat 1 [[two]]) (Mat 1 [[1%Qc]])
                 (Mat 1 [[0%Qc]]) (Discrete 1%Qc))).
Proof. compute_done. Qed.

(** C2, where the code departs from it.  The product with a number, be it
    a Python number or a rank-0 array, raises instead of returning the
    system with [B] and [D] scaled: the operands go through [@], which
    takes no scalar.  Division by a number goes through the same product
    and raises as well. *)
Theorem mul_by_number_raises (self : StateSpace) (x : Qc) :
  StateSpace_.__mul__ self (OpNumber x) = Some (Raise TypeError) ∧
  StateSpace_.__mul__ self (OpArray (Arr0 x)) = Some (Raise ValueError) ∧
  (∃ e, StateSpace_.__truediv__ self (OpNumber x) = Some (Raise e)) ∧
  StateSpace_.__mul__ sys_half (OpNumber two) = Some (Raise TypeError).
Proof.
  split; [done|]. split; [done|]. split; [|done].
  unfold StateSpace_.__truediv__. simpl.
  case_decide; eauto.
Qed.

(** ** The recurrence that [dlsim] computes *)

Lemma ncols_zeros m n : ncols (zeros m n) = n.
Proof. done. Qed.

Lemma initial_row_default N n X0 :
  set_row (zeros N n) 0 (zeros1 n) = Ok X0 →
  ncols X0 = n ∧ nrows X0 = N ∧ rows X0 !! 0 = Some (zeros1 n).
Proof.
  intros HX0. pose proof (set_row_shape _ _ _ _ HX0) as [Hr Hc].
  rewrite nrows_zeros in Hr. rewrite ncols_zeros in Hc.
  apply set_row_Ok in HX0 as (Hlt & v' & Hv' & ->).
  rewrite broadcast1_same in Hv' by apply length_zeros1.
  injection Hv' as <-. repeat split; try done.
  cbn [rows]. by apply list_lookup_insert_eq.
Qed.

Lemma initial_row_given N n a X0 :
  assign_row (zeros N n) 0 a = Ok X0 →
  ncols X0 = n ∧ nrows X0 = N ∧
  ∃ x, rows X0 !! 0 = Some x ∧ length x = n ∧
    ∀ v, a = Arr1 v → length v = n → x = v.
Proof.
  intros HX0. pose proof (assign_row_shape _ _ _ _ HX0) as (_ & Hr & Hc).
  rewrite nrows_zeros in Hr. rewrite ncols_zeros in Hc.
  repeat split; try done.
  assert (∀ w, set_row (zeros N n) 0 w = Ok X0 →
            ∃ x, rows X0 !! 0 = Some x ∧ length x = n ∧
                 (length w = n → x = w)) as Hset.
  { intros w Hw. apply set_row_Ok in Hw as (Hlt & v' & Hv' & ->).
    exists v'. cbn [rows]. split; [by apply list_lookup_insert_eq|].
    rewrite ncols_zeros in Hv'. unfold broadcast1 in Hv'.
    case_decide as Hlen.
    - injection Hv' as <-. done.
    - destruct w as [|x [|y w]]; try discriminate. injection Hv' as <-.
      split; [apply length_replicate|done]. }
  destruct a as [x|v|V]; simpl in HX0.
  - destruct (Hset _ HX0) as (x' & ? & ? & _). exists x'.
    repeat split; done.
  - destruct (Hset _ HX0) as (x' & ? & ? & Hsame). exists x'.
    repeat split; try done. intros v' [= <-]. done.
  - case_decide; [|discriminate].
    destruct (Hset _ HX0) as (x' & ? & ? & _). exists x'.
    repeat split; done.
Qed.

Section recurrence.
Context `{Conversions}.
Context `{rounding : Quotient}.

Lemma dlsim_ss_object s u t x0 r :
  dlsim (SysObject (IsSS s)) u t x0 = Ok r →
  ∃ tout yout xout,
    dlsim_ss s u t x0 = Ok (tout, yout, xout) ∧ r = Triple tout yout xout.
Proof.
  intros Hr.
  apply dlsim_Ok in Hr as (s' & ss & tout & yout & xout & Hs & Hss & Hrun & ->).
  simpl in Hs. destruct (is_lti (IsSS s)); [discriminate|].
  injection Hs as <-. injection Hss as <-. eauto.
Qed.

(** [dlsim] returns when the input has a row for every sample and a column
    for every input of the system, and [t] and [x0] are omitted. *)
Lemma dlsim_without_times_runs s dt u :
  ss_shapes s → ss_dom s = Discrete dt →
  mat_ok (input_columns u) → ncols (input_columns u) = ncols (B s) →
  1 ≤ nrows (input_columns u) →
  is_ok (dlsim (SysObject (IsSS s)) u None None).
Proof.
  intros Hs Hdom HU HcU HrU.
  pose proof Hs as (HA & HB & HC & HD & HDB).
  set (U := input_columns u) in *. set (N := nrows U) in *.
  set (X0 := Mat (nrows (A s))
               (<[0 := zeros1 (nrows (A s))]>
                  (rows (zeros N (nrows (A s)))))).
  assert (set_row (zeros N (nrows (A s))) 0 (zeros1 (ncols (A s))) = Ok X0)
    as HX0.
  { rewrite HA. apply set_row_same; [rewrite nrows_zeros; lia|].
    apply length_zeros1. }
  assert (rows X0 !! 0 = Some (zeros1 (nrows (A s)))) as Hx0.
  { unfold X0. cbn [rows]. apply list_lookup_insert_eq.
    unfold zeros. cbn [rows]. rewrite length_replicate. lia. }
  assert (nrows X0 = N) as HrX0.
  { unfold X0, nrows. cbn [rows]. rewrite length_insert.
    unfold zeros. cbn [rows]. by rewrite length_replicate. }
  destruct (simulate_run s U Hs N X0 (zeros N (nrows (C s)))
              (zeros1 (nrows (A s)))) as ([X Y] & Hsim);
    try done; try lia.
  { by rewrite nrows_zeros. }
  { apply length_zeros1. }
  { intros i Hi. destruct (lookup_lt_is_Some_2 (rows U) i) as [ui Hui];
      [done|].
    exists ui. split; [done|]. rewrite <- HcU.
    unfold mat_ok in HU. rewrite Forall_lookup in HU. eauto. }
  unfold dlsim, discrete_system, is_lti. cbn [domain]. rewrite Hdom.
  cbn [mbind py_bind _as_ss is_StateSpace].
  unfold dlsim_ss. rewrite Hdom. cbn [dt_value mbind py_bind sample_count].
  rewrite decide_False by lia. cbn [mbind py_bind].
  fold U. fold N. rewrite Nat2Z.id, HX0. cbn [mbind py_bind].
  rewrite Hsim. by eexists.
Qed.

(** C1.  On a discrete [StateSpace] system a successful [dlsim] returns
    trajectories that obey x[i+1] = A x[i] + B u[i] and
    y[i] = C x[i] + D u[i] for every i up to out_samples - 2, and
    y[out_samples-1] = C x[out_samples-1] + D u[out_samples-1] at the last
    sample, where u is the input on the output time grid and x[0] is the
    initial state (zero when omitted).  With [t] and [x0] omitted the call
    returns for every input that has a column for each input of the system
    and at least one row.  For A = 0.5, B = 1, C = 1, D = 0,
    dt = 1, u = [1, 0, 0, 0] and x0 = [0] the states and the outputs are
    0, 1, 0.5, 0.25. *)
Theorem dlsim_recurrence :
  (∀ (s : StateSpace) (u : ndarray) (t : option vec) (x0 : option ndarray)
     (r : dlsim_result),
     ss_shapes s →
     dlsim (SysObject (IsSS s)) u t x0 = Ok r →
     ∃ tout yout xout u_dt,
       r = Triple tout yout xout ∧
       match t with
       | None => Ok (input_columns u)
       | Some tv => make_interp_spline1 tv (input_columns u) tout
       end = Ok u_dt ∧
       1 ≤ nrows xout ∧ nrows yout = nrows xout ∧
       length tout = nrows xout ∧
       (x0 = None → rows xout !! 0 = Some (zeros1 (nrows (A s)))) ∧
       (∀ v, x0 = Some (Arr1 v) → length v = nrows (A s) →
             rows xout !! 0 = Some v) ∧
       (∀ i, S i < nrows xout → ∃ xi ui,
          rows xout !! i = Some xi ∧ rows u_dt !! i = Some ui ∧
          rows xout !! S i = Some (next_state s xi ui) ∧
          rows yout !! i = Some (output_at s xi ui)) ∧
       (∃ xl ul,
          rows xout !! (nrows xout - 1) = Some xl ∧
          rows u_dt !! (nrows xout - 1) = Some ul ∧
          rows yout !! (nrows xout - 1) = Some (output_at s xl ul))) ∧
  (∀ (s : StateSpace) (dt : Qc) (u : ndarray),
     ss_shapes s → ss_dom s = Discrete dt →
     mat_ok (input_columns u) → ncols (input_columns u) = ncols (B s) →
     1 ≤ nrows (input_columns u) →
     is_ok (dlsim (SysObject (IsSS s)) u None None)) ∧
  dlsim (SysObject (IsSS sys_half)) pulse4 None (Some (Arr1 [0%Qc]))
  = Ok (Triple [0%Qc; 1%Qc; two; Q2Qc 3]
               (Mat 1 [[0%Qc]; [1%Qc]; [half]; [quarter]])
               (Mat 1 [[0%Qc]; [1%Qc]; [half]; [quarter]])).
Proof.
  split; [|split; [by apply dlsim_without_times_runs|compute_done]].
  intros s u t x0 r Hs Hr.
  apply dlsim_ss_object in Hr as (tout & yout & xout & Hrun & ->).
  apply dlsim_ss_Ok in Hrun
    as (dt & N & stoptime & X0 & u_dt & _ & _ & HN & -> & HX0 & Hu & Hsim).
  assert (ncols X0 = nrows (A s) ∧ nrows X0 = N ∧
          (x0 = None → rows X0 !! 0 = Some (zeros1 (nrows (A s)))) ∧
          (∀ v, x0 = Some (Arr1 v) → length v = nrows (A s) →
                rows X0 !! 0 = Some v)) as (HcX0 & HrX0 & Hnone & Hsome).
  { destruct x0 as [a|].
    - apply initial_row_given in HX0 as (? & ? & x & Hx & _ & Hv).
      repeat split; try done. intros v [= ->] Hlen.
      by rewrite Hx, (Hv v eq_refl Hlen).
    - destruct Hs as (HA & _). rewrite HA in HX0.
      apply initial_row_default in HX0 as (? & ? & ?).
      repeat split; try done. }
  apply simulate_Ok in Hsim
    as (HcX & HcY & HrX & HrY & _ & _ & H0 & Hstate & Hout);
    [|done|done|done|done].
  rewrite nrows_zeros in HrY. rewrite HrX0 in HrX.
  exists (linspace 0%Qc stoptime N true), yout, xout, u_dt.
  rewrite HrX, HrY, length_linspace.
  repeat split; try done.
  - intros Hx0. rewrite H0. by apply Hnone.
  - intros v Hx0 Hlen. rewrite H0. by apply Hsome.
  - intros i Hi.
    destruct (Hstate i Hi) as (xi & ui & Hxi & Hui & Hnext).
    destruct (Hout i) as (xi' & ui' & Hxi' & Hui' & _ & _ & Hy); [lia|].
    exists xi, ui. repeat split; try done. congruence.
  - destruct (Hout (N - 1)) as (xl & ul & Hxl & Hul & _ & _ & Hy); [lia|].
    by exists xl, ul.
Qed.
End recurrence.

Lemma dlsim_recurrence_witness :
  ss_shapes sys_half ∧
  dlsim (SysObject (IsSS sys_half)) pulse4 None (Some (Arr1 [0%Qc]))
  = Ok (Triple [0%Qc; 1%Qc; two; Q2Qc 3]
               (Mat 1 [[0%Qc]; [1%Qc]; [half]; [quarter]])
               (Mat 1 [[0%Qc]; [1%Qc]; [half]; [quarter]])) ∧
  ∃ tout yout xout,
    Triple [0%Qc; 1%Qc; two; Q2Qc 3]
           (Mat 1 [[0%Qc]; [1%Qc]; [half]; [quarter]])
           (Mat 1 [[0%Qc]; [1%Qc]; [half]; [quarter]])
    = Triple tout yout xout ∧
    rows xout !! 0 = Some [0%Qc] ∧
    ∀ i, S i < nrows xout → ∃ xi ui,
      rows xout !! i = Some xi ∧
      rows (input_columns pulse4) !! i = Some ui ∧
      rows xout !! S i = Some (next_state sys_half xi ui) ∧
      rows yout !! i = Some (output_at sys_half xi ui).
Proof.
  assert (ss_shapes sys_half) as Hshape by compute_done.
  destruct dlsim_recurrence as (Hgeneral & _ & Hscenario).
  split; [exact Hshape|]. split; [exact Hscenario|].
  destruct (Hgeneral sys_half pulse4 None (Some (Arr1 [0%Qc])) _
              Hshape Hscenario)
    as (tout & yout & xout & u_dt & Hr & Hu & _ & _ & _ & _ & Hx0 & Hrec & _).
  injection Hu as <-.
  exists tout, yout, xout. split; [exact Hr|].
  split; [by apply Hx0|exact Hrec].
Defined.

(** ** Interpolation at the sample times *)

Lemma Qc_of_nat_0 : Qc_of_nat 0 = 0%Qc.
Proof. by apply Qc_is_canon. Qed.

Lemma zip_with_left (f : Qc → Qc → Qc) (u v : vec) :
  (∀ a b, f a b = a) → length u = length v → zip_with f u v = u.
Proof.
  intros Hf. revert v. induction u as [|a u IH]; intros [|b v] Hlen;
    simpl in *; try done.
  rewrite Hf, IH by lia. done.
Qed.

Lemma Qc_sub_eq0 (a b : Qc) : (a - b)%Qc = 0%Qc → a = b.
Proof.
  intros Hz. replace a with (a - b + b)%Qc by ring. rewrite Hz. ring.
Qed.

Lemma lerp_left t0 t1 (u0 u1 : vec) :
  t0 ≠ t1 → length u0 = length u1 → lerp t0 t1 u0 u1 t0 = u0.
Proof.
  intros Hne Hlen. unfold lerp. apply zip_with_left; [|done].
  intros a b. field. intros Hz. apply Hne. symmetry.
  by apply Qc_sub_eq0.
Qed.

Lemma increasing_cons a b (t : vec) :
  increasing (a :: b :: t) = true ↔ (a < b)%Qc ∧ increasing (b :: t) = true.
Proof.
  cbn [increasing]. rewrite andb_true_iff, bool_decide_eq_true. done.
Qed.

(** ** The trajectories in closed form *)

Lemma row_lookup M i r : rows M !! i = Some r → row M i = r.
Proof. intros Hr. unfold row. by apply nth_lookup_Some. Qed.

Lemma simulate_state_at s U N X0 Y0 X Y x0 :
  ss_shapes s → ncols X0 = nrows (A s) → ncols Y0 = nrows (C s) → 1 ≤ N →
  rows X0 !! 0 = Some x0 →
  simulate s U N X0 Y0 = Ok (X, Y) →
  ∀ k, k < N →
    rows X !! k = Some (state_at s (row U) x0 k) ∧
    rows Y !! k = Some (output_at s (state_at s (row U) x0 k) (row U k)).
Proof.
  intros Hs HX0 HY0 HN Hx0 Hsim.
  apply simulate_Ok in Hsim
    as (_ & _ & _ & _ & _ & _ & H0 & Hstate & Hout); [|done..].
  assert (∀ k, k < N → rows X !! k = Some (state_at s (row U) x0 k)) as HX.
  { induction k as [|k IH]; intros Hk.
    - by rewrite H0.
    - destruct (Hstate k Hk) as (xi & ui & Hxi & Hui & Hnext).
      rewrite IH in Hxi by lia. injection Hxi as <-.
      cbn [state_at]. by rewrite (row_lookup _ _ _ Hui). }
  intros k Hk. split; [by apply HX|].
  destruct (Hout k Hk) as (xi & ui & Hxi & Hui & _ & _ & Hy).
  rewrite HX in Hxi by done. injection Hxi as <-.
  by rewrite (row_lookup _ _ _ Hui).
Qed.

(** ** Inner products and the length of the state *)

Lemma dot_cons a (r : vec) x0 (x : vec) :
  dot (a :: r) (x0 :: x) = (a * x0 + dot r x)%Qc.
Proof. done. Qed.

Lemma length_state_at s (s_ok : ss_shapes s) u k :
  length (state_at s u (zeros1 (nrows (A s))) k) = nrows (A s).
Proof.
  destruct k as [|k]; [apply length_zeros1|].
  cbn [state_at]. by apply length_next_state.
Qed.

(** ** The impulse and the step inputs *)

Lemma impulse_input n p i :
  1 ≤ n → i < p →
  ∃ U, set_entry (zeros n p) 0 i 1%Qc = Ok U ∧
    mat_ok U ∧ nrows U = n ∧ ncols U = p ∧
    row U 0 = unit_vec p i ∧
    ∀ k, S k < n → row U (S k) = zeros1 p.
Proof.
  intros Hn Hi. unfold set_entry.
  assert (rows (zeros n p) !! 0 = Some (zeros1 p)) as ->
    by (unfold zeros; cbn [rows]; apply lookup_replicate_2; lia).
  rewrite decide_True by done.
  eexists. split; [done|]. cbn [ncols zeros].
  unfold mat_ok, nrows, row. cbn [ncols rows zeros].
  rewrite length_insert, length_replicate.
  repeat split; try done.
  - apply Forall_insert; [apply Forall_replicate, length_zeros1|].
    by rewrite length_insert, length_zeros1.
  - apply nth_lookup_Some, list_lookup_insert_eq.
    rewrite length_replicate. lia.
  - intros k Hk. apply nth_lookup_Some.
    rewrite list_lookup_insert_ne by lia.
    apply lookup_replicate_2. lia.
Qed.

Lemma step_input n p i :
  i < p →
  ∃ U, set_column (zeros n p) i (ones1 n) = Ok U ∧
    mat_ok U ∧ nrows U = n ∧ ncols U = p ∧
    ∀ k, k < n → row U k = unit_vec p i.
Proof.
  intros Hi. unfold set_column. cbn [ncols zeros].
  rewrite decide_True by done.
  rewrite broadcast1_same
    by (unfold ones1; rewrite length_replicate, nrows_zeros; done).
  cbn [mbind py_bind rows].
  eexists. split; [done|].
  unfold mat_ok, nrows, row, ones1, zeros. cbn [ncols rows].
  rewrite zip_with_replicate.
  rewrite length_replicate.
  repeat split; try done.
  - apply Forall_replicate. by rewrite length_insert, length_zeros1.
  - intros k Hk. apply nth_lookup_Some. by apply lookup_replicate_2.
Qed.

(** ** Impulse response and step response *)

Lemma state_at_ext s (u u' : nat → vec) x0 n k :
  (∀ j, j < n → u j = u' j) → k ≤ n →
  state_at s u x0 k = state_at s u' x0 k.
Proof.
  intros Hu. induction k as [|k IH]; intros Hk; [done|].
  cbn [state_at]. rewrite IH by lia. by rewrite Hu by lia.
Qed.

Lemma row_response_of s u n k :
  k < n →
  row (response_of s u n) k
  = output_at s (state_at s u (zeros1 (nrows (A s))) k) (u k).
Proof.
  intros Hk. apply row_lookup. unfold response_of. cbn [rows].
  by rewrite list_lookup_fmap, lookup_seq_lt.
Qed.

Lemma nrows_response_of s u n : nrows (response_of s u n) = n.
Proof.
  unfold nrows, response_of. cbn [rows]. by rewrite length_fmap, length_seq.
Qed.

Section impulse_step_responses.
Context `{Conversions}.
Context `{rounding : Quotient}.

Lemma by_arity_shapes system dom s :
  by_arity system dom = Ok (IsSS s) → ss_shapes s.
Proof.
  unfold by_arity. intros Hs.
  destruct system as [|a [|b [|c [|d [|e l]]]]]; try discriminate Hs;
    apply fmap_Ok in Hs as (x & Hx & [=]). subst x.
  unfold StateSpace_.__init__ in Hx.
  apply bind_Ok in Hx as ([[[a' b'] c'] d'] & Hn & [= <-]).
  by apply abcd_normalize_ok in Hn as (_ & _ & _ & _ & Hshapes).
Qed.

Lemma _as_ss_shapes s ss :
  _as_ss s = Ok ss → (∀ s0, s = IsSS s0 → ss_shapes s0) → ss_shapes ss.
Proof.
  destruct s as [tf|z|s0]; simpl; intros Hs Hinv.
  - unfold TransferFunction_.to_ss in Hs.
    apply bind_Ok in Hs as ([[[a b] c] d] & _ & Hs).
    apply bind_Ok in Hs as ([[[a' b'] c'] d'] & Hn & [= <-]).
    by apply abcd_normalize_ok in Hn as (_ & _ & _ & _ & Hshapes).
  - unfold ZerosPolesGain_.to_ss in Hs.
    apply bind_Ok in Hs as ([[[a b] c] d] & _ & Hs).
    apply bind_Ok in Hs as ([[[a' b'] c'] d'] & Hn & [= <-]).
    by apply abcd_normalize_ok in Hn as (_ & _ & _ & _ & Hshapes).
  - injection Hs as <-. by apply Hinv.
Qed.

Lemma discrete_ss_facts system ss dt :
  system_ok system → arg_dt system = Some dt →
  discrete_ss system = Ok ss →
  ss_shapes ss ∧ ss_dom ss = Discrete dt.
Proof.
  intros Hok Hdt Hss. destruct system as [s|args dt0]; simpl in *.
  - destruct (is_dlti s); [|discriminate]. split.
    + apply (_as_ss_shapes _ _ Hss). by intros s0 ->.
    + rewrite (_as_ss_domain _ _ Hss).
      by destruct (domain s); [|injection Hdt as ->].
  - injection Hdt as <-.
    apply bind_Ok in Hss as (s & Hs & Hss). split.
    + apply (_as_ss_shapes _ _ Hss). intros s0 ->.
      by apply by_arity_shapes in Hs.
    + rewrite (_as_ss_domain _ _ Hss). by apply by_arity_domain in Hs.
Qed.

End impulse_step_responses.

(** The scenario of three samples: the impulse response 0, 1, 0.5 and the
    step response 0, 1, 1.5. *)
Example dimpulse_dstep_three_samples :
  dimpulse (SysObject (IsSS sys_half)) None None (Some 3)
  = Ok ([0%Qc; 1%Qc; two], [Mat 1 [[0%Qc]; [1%Qc]; [half]]]) ∧
  dstep (SysObject (IsSS sys_half)) None None (Some 3)
  = Ok ([0%Qc; 1%Qc; two], [Mat 1 [[0%Qc]; [1%Qc]; [three_halves]]]).
Proof. split; compute_done. Qed.

(** ** Parallel composition adds the responses *)

(** The lemmas of this part use the laws of exact arithmetic: they hold for
    the rational entries of the model, and for binary floating point only
    up to rounding. *)

Lemma dot_app (r1 r2 x1 x2 : vec) :
  length r1 = length x1 →
  dot (r1 ++ r2) (x1 ++ x2) = (dot r1 x1 + dot r2 x2)%Qc.
Proof.
  revert x1. induction r1 as [|a r1 IH]; intros [|b x1] Hlen;
    simpl in Hlen; try lia.
  - rewrite !app_nil_l. change (dot [] []) with 0%Qc. ring.
  - rewrite <- !app_comm_cons, !dot_cons, IH by lia. ring.
Qed.

Lemma dot_zeros_l k (x : vec) : dot (zeros1 k) x = 0%Qc.
Proof.
  revert x. induction k as [|k IH]; intros [|b x]; try done.
  unfold zeros1 in *. cbn [replicate]. rewrite dot_cons, IH. ring.
Qed.

Lemma dot_vadd_l (r1 r2 x : vec) :
  length r1 = length r2 →
  dot (vadd r1 r2) x = (dot r1 x + dot r2 x)%Qc.
Proof.
  revert r2 x. induction r1 as [|a r1 IH]; intros [|b r2] [|c x] Hlen;
    simpl in Hlen; try lia; try (unfold dot; simpl; ring).
  unfold vadd in *. cbn [zip_with]. rewrite !dot_cons, IH by lia. ring.
Qed.

Lemma vadd_app (a1 a2 b1 b2 : vec) :
  length a1 = length b1 →
  vadd (a1 ++ a2) (b1 ++ b2) = vadd a1 b1 ++ vadd a2 b2.
Proof. intros Hlen. unfold vadd. by apply zip_with_app. Qed.

Lemma vadd_comm (a b : vec) : vadd a b = vadd b a.
Proof.
  unfold vadd. revert b. induction a as [|x a IH]; intros [|y b]; try done.
  cbn [zip_with]. rewrite IH. f_equal. ring.
Qed.

Lemma vadd_interchange (a b c d : vec) :
  length a = length b → length a = length c → length a = length d →
  vadd (vadd a b) (vadd c d) = vadd (vadd a c) (vadd b d).
Proof.
  unfold vadd. revert b c d.
  induction a as [|x a IH]; intros [|y b] [|z c] [|w d] Hb Hc Hd;
    simpl in Hb, Hc, Hd; try lia; [done|].
  cbn [zip_with]. rewrite IH by lia. f_equal. ring.
Qed.

Lemma mv_block_diag M N (x1 x2 : vec) :
  mat_ok M → length x1 = ncols M →
  mv (block_diag M N) (x1 ++ x2) = mv M x1 ++ mv N x2.
Proof.
  intros HM Hx1. unfold mv, block_diag. cbn [rows].
  rewrite fmap_app, <- !list_fmap_compose. f_equal.
  - apply Forall_fmap_ext. unfold mat_ok in HM.
    eapply Forall_impl; [exact HM|]. intros r Hr. simpl in *.
    rewrite dot_app by lia. rewrite dot_zeros_l. ring.
  - apply list_fmap_ext. intros i r _. simpl.
    rewrite dot_app by (rewrite length_zeros1; lia).
    rewrite dot_zeros_l. ring.
Qed.

Lemma mv_vstacked c M N (u : vec) :
  mv (Mat c (rows M ++ rows N)) u = mv M u ++ mv N u.
Proof. unfold mv. cbn [rows]. by rewrite fmap_app. Qed.

Lemma mv_hstacked c M N (x1 x2 : vec) :
  mat_ok M → length x1 = ncols M → nrows M = nrows N →
  mv (Mat c (zip_with app (rows M) (rows N))) (x1 ++ x2)
  = vadd (mv M x1) (mv N x2).
Proof.
  intros HM Hx1 Hrows. unfold mv, vadd, nrows, mat_ok in *. cbn [rows].
  revert HM Hrows. generalize (rows N). generalize (rows M).
  induction l as [|r rs IH]; intros [|r' rs'] HM Hrows;
    simpl in Hrows; try lia; [done|].
  apply Forall_cons in HM as [Hr HM].
  cbn [zip_with fmap list_fmap]. rewrite dot_app by lia.
  f_equal. apply IH; [done|lia].
Qed.

Lemma mv_added c M N (u : vec) :
  mat_ok M → mat_ok N → shape M = shape N →
  mv (Mat c (zip_with vadd (rows M) (rows N))) u = vadd (mv M u) (mv N u).
Proof.
  intros HM HN [= Hrows Hcols].
  unfold mv, nrows, mat_ok in *. cbn [rows]. rewrite <- Hcols in HN.
  revert HM HN Hrows. generalize (rows N). generalize (rows M).
  induction l as [|r rs IH]; intros [|r' rs'] HM HN Hrows;
    simpl in Hrows; try lia; [done|].
  apply Forall_cons in HM as [Hr HM]. apply Forall_cons in HN as [Hr' HN].
  unfold vadd at 2. cbn [zip_with fmap list_fmap].
  rewrite dot_vadd_l by lia. f_equal. by apply IH; [| |lia].
Qed.

(** The run of [__add__] on two systems with feedthroughs of one shape. *)
Lemma add_systems_run (s1 s2 : StateSpace) :
  ss_ok s1 → ss_ok s2 →
  ss_dom s2 = ss_dom s1 → shape (D s2) = shape (D s1) →
  StateSpace_.__add__ s1 (OpSystem (IsSS s2))
  = Some (Ok (SS (block_diag (A s1) (A s2))
                 (Mat (ncols (B s1)) (rows (B s1) ++ rows (B s2)))
                 (Mat (ncols (C s1) + ncols (C s2))
                      (zip_with app (rows (C s1)) (rows (C s2))))
                 (Mat (ncols (D s1))
                      (zip_with vadd (rows (D s1)) (rows (D s2))))
                 (ss_dom s1))).
Proof.
  intros (_ & _ & _ & HmD1 & HA1 & HB1 & HC1 & HD1 & HDB1)
         (_ & _ & _ & HmD2 & HA2 & HB2 & HC2 & HD2 & HDB2) Hdom [= Hr Hc].
  unfold StateSpace_.__add__.
  cbn [StateSpace_._check_binop_other negb].
  rewrite Hdom, same_type_refl. cbn [negb].
  rewrite decide_False by (by intros Hne).
  rewrite vstack_Ok by lia. cbn [mbind py_bind].
  rewrite hstack_Ok by lia. cbn [mbind py_bind].
  rewrite madd_same_shape by (done || (unfold shape; congruence)).
  cbn [mbind py_bind].
  unfold StateSpace_.__init__. rewrite abcd_normalize_2d; [done|].
  unfold abcd_shapes, block_diag, nrows in *. cbn [ncols rows].
  rewrite !length_app, !length_fmap, !length_zip_with.
  repeat split; lia.
Qed.

Section superposition.
Variables s1 s2 : StateSpace.
Hypothesis s1_ok : ss_ok s1.
Hypothesis s2_ok : ss_ok s2.
Hypothesis same_shape : shape (D s2) = shape (D s1).

#[local] Abbreviation parallel := (SS (block_diag (A s1) (A s2))
                 (Mat (ncols (B s1)) (rows (B s1) ++ rows (B s2)))
                 (Mat (ncols (C s1) + ncols (C s2))
                      (zip_with app (rows (C s1)) (rows (C s2))))
                 (Mat (ncols (D s1))
                      (zip_with vadd (rows (D s1)) (rows (D s2))))
                 (ss_dom s1)).

Lemma parallel_next_state (x1 x2 u : vec) :
  length x1 = nrows (A s1) → length x2 = nrows (A s2) →
  next_state parallel (x1 ++ x2) u = next_state s1 x1 u ++ next_state s2 x2 u.
Proof.
  destruct s1_ok as (HmA1 & _ & _ & _ & HA1 & HB1 & _).
  destruct s2_ok as (HmA2 & _ & _ & _ & HA2 & HB2 & _).
  intros Hx1 Hx2. unfold next_state. cbn [A B].
  rewrite mv_block_diag by (done || lia).
  rewrite mv_vstacked.
  by rewrite vadd_app by (rewrite !length_mv; lia).
Qed.

Lemma parallel_output_at (x1 x2 u : vec) :
  length x1 = nrows (A s1) → length x2 = nrows (A s2) →
  output_at parallel (x1 ++ x2) u
  = vadd (output_at s1 x1 u) (output_at s2 x2 u).
Proof.
  destruct s1_ok as (_ & _ & HmC1 & HmD1 & HA1 & HB1 & HC1 & HD1 & HDB1).
  destruct s2_ok as (_ & _ & HmC2 & HmD2 & HA2 & HB2 & HC2 & HD2 & HDB2).
  injection same_shape as Hr Hc.
  intros Hx1 Hx2. unfold output_at. cbn [C D].
  rewrite mv_hstacked by (done || lia).
  rewrite mv_added by (done || (unfold shape; congruence)).
  apply vadd_interchange; rewrite !length_mv; lia.
Qed.

Lemma parallel_state_at (u : nat → vec) k :
  state_at parallel u (zeros1 (nrows (A parallel))) k
  = state_at s1 u (zeros1 (nrows (A s1))) k
    ++ state_at s2 u (zeros1 (nrows (A s2))) k.
Proof.
  destruct s1_ok as (_ & _ & _ & _ & Hs1).
  destruct s2_ok as (_ & _ & _ & _ & Hs2).
  induction k as [|k IH].
  - cbn [state_at]. unfold nrows, block_diag, zeros1. cbn [A rows].
    by rewrite length_app, !length_fmap, replicate_add.
  - cbn [state_at]. rewrite IH.
    apply parallel_next_state; by apply length_state_at.
Qed.

(** The response of the parallel composition is the sum of the responses. *)
Lemma parallel_response (u : nat → vec) k :
  output_at parallel (state_at parallel u (zeros1 (nrows (A parallel))) k)
            (u k)
  = vadd (output_at s1 (state_at s1 u (zeros1 (nrows (A s1))) k) (u k))
         (output_at s2 (state_at s2 u (zeros1 (nrows (A s2))) k) (u k)).
Proof.
  destruct s1_ok as (_ & _ & _ & _ & Hs1).
  destruct s2_ok as (_ & _ & _ & _ & Hs2).
  rewrite parallel_state_at.
  apply parallel_output_at; by apply length_state_at.
Qed.
End superposition.

(** [S1 + S2] and [S2 + S1] are different systems with the same response
    to every input. *)
Lemma add_commutes_in_response (s1 s2 : StateSpace) :
  ss_ok s1 → ss_ok s2 →
  ss_dom s2 = ss_dom s1 → shape (D s2) = shape (D s1) →
  ∃ s12 s21,
    StateSpace_.__add__ s1 (OpSystem (IsSS s2)) = Some (Ok s12) ∧
    StateSpace_.__add__ s2 (OpSystem (IsSS s1)) = Some (Ok s21) ∧
    A s12 = block_diag (A s1) (A s2) ∧ A s21 = block_diag (A s2) (A s1) ∧
    ∀ (u : nat → vec) n, response_of s12 u n = response_of s21 u n.
Proof.
  intros Hs1 Hs2 Hdom Hshape.
  eexists _, _.
  split; [by apply add_systems_run|].
  split; [by apply add_systems_run|].
  do 2 (split; [done|]).
  intros u n. unfold response_of. cbn [C].
  destruct Hs1 as (? & ? & ? & ? & HA1 & HB1 & HC1 & HD1 & HDB1).
  destruct Hs2 as (? & ? & ? & ? & HA2 & HB2 & HC2 & HD2 & HDB2).
  injection Hshape as Hr Hc.
  f_equal.
  - unfold nrows in *. cbn [rows]. rewrite !length_zip_with. lia.
  - apply list_fmap_ext. intros i k _. simpl.
    rewrite (parallel_response s1 s2), (parallel_response s2 s1);
      try done; try (unfold shape; congruence).
    apply vadd_comm.
Qed.

(** ** The simulation from the zero state, with the times omitted *)

Section zero_state.
Context `{Conversions}.
Context `{rounding : Quotient}.

Lemma dlsim_zero_state ss dt U :
  ss_shapes ss → ss_dom ss = Discrete dt → input_for ss U →
  ∃ X,
    dlsim (SysObject (IsSS ss)) (Arr2 U) None None
    = Ok (Triple
            (linspace 0%Qc (Qc_of_Z (Z.of_nat (nrows U) - 1) * dt)%Qc
               (nrows U) true)
            (response_of ss (row U) (nrows U)) X).
Proof.
  intros Hs Hdom (HU & HrU & HcU).
  pose proof Hs as (HA & HB & HC & HD & HDB).
  set (n := nrows U) in *.
  set (X0 := Mat (nrows (A ss))
               (<[0 := zeros1 (nrows (A ss))]>
                  (rows (zeros n (nrows (A ss)))))).
  assert (set_row (zeros n (nrows (A ss))) 0 (zeros1 (ncols (A ss))) = Ok X0)
    as HX0.
  { rewrite HA. apply set_row_same; [rewrite nrows_zeros; lia|].
    apply length_zeros1. }
  assert (rows X0 !! 0 = Some (zeros1 (nrows (A ss)))) as Hx0.
  { unfold X0. cbn [rows]. apply list_lookup_insert_eq.
    unfold zeros. cbn [rows]. rewrite length_replicate. lia. }
  assert (nrows X0 = n) as HrX0.
  { unfold X0, nrows. cbn [rows]. rewrite length_insert.
    unfold zeros. cbn [rows]. by rewrite length_replicate. }
  destruct (simulate_run ss U Hs n X0 (zeros n (nrows (C ss)))
              (zeros1 (nrows (A ss)))) as ([X Y] & Hsim);
    try done; try lia.
  { by rewrite nrows_zeros. }
  { apply length_zeros1. }
  { intros i Hi. destruct (lookup_lt_is_Some_2 (rows U) i) as [ui Hui];
      [done|].
    exists ui. split; [done|]. rewrite <- HcU.
    unfold mat_ok in HU. rewrite Forall_lookup in HU. eauto. }
  exists X.
  pose proof (simulate_shape _ _ _ _ _ _ _ Hsim) as [_ [= HrY HcY]].
  rewrite nrows_zeros in HrY. cbn [ncols zeros] in HcY.
  assert (Y = response_of ss (row U) n) as <-.
  { destruct Y as [c rs]. unfold response_of. cbn [ncols rows nrows] in *.
    unfold nrows in HrY. cbn [rows] in HrY.
    f_equal; [done|]. apply list_eq. intros k.
    rewrite list_lookup_fmap.
    destruct (decide (k < n)) as [Hk|Hk].
    - rewrite lookup_seq_lt by done. simpl.
      by destruct (simulate_state_at ss U n X0 (zeros n (nrows (C ss))) X
                     (Mat c rs) _ Hs eq_refl eq_refl ltac:(lia) Hx0 Hsim k Hk)
        as [_ Hy].
    - rewrite lookup_ge_None_2 by lia.
      by rewrite lookup_ge_None_2 by (rewrite length_seq; lia). }
  unfold dlsim, discrete_system, is_lti. cbn [domain]. rewrite Hdom.
  cbn [mbind py_bind _as_ss is_StateSpace].
  unfold dlsim_ss. rewrite Hdom. cbn [dt_value mbind py_bind sample_count].
  change (input_columns (Arr2 U)) with U. fold n.
  rewrite decide_False by lia. cbn [mbind py_bind].
  rewrite Nat2Z.id, HX0. cbn [mbind py_bind].
  rewrite Hsim. done.
Qed.

Lemma zero_state_output_run ss dt U :
  ss_shapes ss → ss_dom ss = Discrete dt → input_for ss U →
  zero_state_output ss U = Ok (response_of ss (row U) (nrows U)).
Proof.
  intros Hs Hdom HU. unfold zero_state_output.
  destruct (dlsim_zero_state ss dt U) as (X & ->); done.
Qed.
End zero_state.

(** ** Linearity and causality of the simulation *)

Lemma mat_ok_lookup M i r : mat_ok M → rows M !! i = Some r → length r = ncols M.
Proof. unfold mat_ok. rewrite Forall_lookup. eauto. Qed.

Lemma response_of_rows s (u : nat → vec) n (f : nat → vec) c :
  c = nrows (C s) →
  (∀ k, k < n →
     output_at s (state_at s u (zeros1 (nrows (A s))) k) (u k) = f k) →
  response_of s u n = Mat c (f <$> seq 0 n).
Proof.
  intros -> Hf. unfold response_of. f_equal.
  apply list_fmap_ext. intros i k Hk. apply lookup_seq in Hk as [-> Hk].
  by apply Hf.
Qed.

Section linearity.
Context `{Conversions}.
Context `{rounding : Quotient}.

(** X2.  The simulation is causal: the output at step k depends only on
    the input rows 0 to k. *)
Theorem dlsim_causal (s : StateSpace) (dt : Qc) (U1 U2 : matrix) :
  ss_shapes s → ss_dom s = Discrete dt →
  input_for s U1 → input_for s U2 →
  ∃ Y1 Y2,
    zero_state_output s U1 = Ok Y1 ∧
    zero_state_output s U2 = Ok Y2 ∧
    ∀ k, k < nrows U1 → k < nrows U2 →
      (∀ j, j ≤ k → row U1 j = row U2 j) → row Y1 k = row Y2 k.
Proof.
  intros Hs Hdom HU1 HU2.
  exists (response_of s (row U1) (nrows U1)),
         (response_of s (row U2) (nrows U2)).
  split; [by eapply zero_state_output_run|].
  split; [by eapply zero_state_output_run|].
  intros k Hk1 Hk2 Hsame.
  rewrite !row_response_of by done.
  rewrite (state_at_ext s (row U1) (row U2) _ k)
    by (lia || (intros j Hj; apply Hsame; lia)).
  by rewrite Hsame.
Qed.
End linearity.

(** ** Shapes of the arrays [dlsim] returns, and inputs it refuses *)

Section dlsim_edges.
Context `{Conversions}.
Context `{rounding : Quotient}.

Lemma dlsim_ss_shapes ss u t x0 tout yout xout :
  dlsim_ss ss u t x0 = Ok (tout, yout, xout) →
  1 ≤ length tout ∧
  shape yout = (length tout, nrows (C ss)) ∧
  shape xout = (length tout, nrows (A ss)).
Proof.
  intros Hrun.
  apply dlsim_ss_Ok in Hrun
    as (dt & N & stoptime & X0 & u_dt & _ & _ & HN & -> & HX0 & _ & Hsim).
  rewrite length_linspace.
  apply simulate_shape in Hsim as [-> ->].
  split; [done|]. split; [by unfold shape; rewrite nrows_zeros|].
  assert (nrows X0 = N ∧ ncols X0 = nrows (A ss)) as [HrX0 HcX0].
  { destruct x0 as [a|].
    - apply assign_row_shape in HX0 as (_ & Hr & Hc).
      by rewrite nrows_zeros in Hr.
    - apply set_row_shape in HX0 as [Hr Hc].
      by rewrite nrows_zeros in Hr. }
  unfold shape. by rewrite HrX0, HcX0.
Qed.

(** X3.  Whatever [dlsim] returns has at least one sample, and the time
    vector, the output array and the state array all have one row per
    sample; for a state-space object the output array has a column per
    row of [C] and the state array a column per row of [A]. *)
Theorem dlsim_result_shapes (system : system_arg) (u : ndarray)
    (t : option vec) (x0 : option ndarray) (r : dlsim_result) :
  dlsim system u t x0 = Ok r →
  1 ≤ length (tout_of r) ∧
  nrows (yout_of r) = length (tout_of r) ∧
  match r with
  | Triple tout _ xout => nrows xout = length tout
  | Pair _ _ => True
  end ∧
  ∀ s, system = SysObject (IsSS s) →
    ∃ tout yout xout, r = Triple tout yout xout ∧
      ncols yout = nrows (C s) ∧ ncols xout = nrows (A s).
Proof.
  intros Hr.
  apply dlsim_Ok in Hr as (s & ss & tout & yout & xout & Hs & Hss & Hrun & ->).
  apply dlsim_ss_shapes in Hrun as (Hpos & [= HrY HcY] & [= HrX HcX]).
  split; [by destruct (is_StateSpace s)|].
  split; [by destruct (is_StateSpace s)|].
  split; [by destruct (is_StateSpace s)|].
  intros s0 ->. simpl in Hs. destruct (is_lti (IsSS s0)); [discriminate|].
  injection Hs as <-. injection Hss as <-.
  by exists tout, yout, xout.
Qed.

(** X4.  An input without rows is refused: with [t] and [x0] omitted there
    are no samples, and the write of the initial state into the empty
    state array raises IndexError. *)
Theorem dlsim_empty_input (s : StateSpace) (dt : Qc) (u : ndarray) :
  ss_dom s = Discrete dt → nrows (input_columns u) = 0 →
  dlsim (SysObject (IsSS s)) u None None = Raise IndexError.
Proof.
  intros Hdom Hu.
  unfold dlsim, discrete_system, is_lti. cbn [domain]. rewrite Hdom.
  cbn [mbind py_bind _as_ss is_StateSpace].
  unfold dlsim_ss. rewrite Hdom. cbn [dt_value mbind py_bind sample_count].
  rewrite Hu. cbn [Z.of_nat].
  rewrite decide_False by lia. cbn [mbind py_bind Z.to_nat].
  unfold set_row. by rewrite decide_False by (rewrite nrows_zeros; lia).
Qed.

Lemma matvec_run M (v : vec) : ncols M = length v → matvec M v = Ok (mv M v).
Proof. intros Hv. unfold matvec. by rewrite decide_True. Qed.

Lemma matvec_refuses M (v : vec) :
  ncols M ≠ length v → matvec M v = Raise ValueError.
Proof. intros Hv. unfold matvec. by rewrite decide_False. Qed.

Lemma simulate_wrong_width s U N X0 Y0 x0 u0 :
  ss_shapes s → 1 ≤ N →
  rows X0 !! 0 = Some x0 → length x0 = nrows (A s) →
  rows U !! 0 = Some u0 → length u0 ≠ ncols (B s) →
  simulate s U N X0 Y0 = Raise ValueError.
Proof.
  intros (HA & HB & HC & HD & HDB) HN Hx0 Hlx0 Hu0 Hlu0.
  unfold simulate. destruct N as [|[|N]]; [lia| |].
  - cbn [seq Nat.sub for_range mbind py_bind]. unfold dlsim_last.
    unfold get_row. rewrite Hx0, Hu0. cbn [mbind py_bind].
    rewrite (matvec_run (C s)) by lia. cbn [mbind py_bind].
    by rewrite (matvec_refuses (D s)) by lia.
  - replace (S (S N) - 1) with (S N) by lia.
    assert (dlsim_step s U 0 (X0, Y0) = Raise ValueError) as Hstep.
    { unfold dlsim_step, get_row. rewrite Hx0, Hu0. cbn [mbind py_bind].
      rewrite (matvec_run (A s)) by lia. cbn [mbind py_bind].
      by rewrite (matvec_refuses (B s)) by lia. }
    cbn [seq for_range]. by rewrite Hstep.
Qed.

(** X5.  An input whose number of columns is not the number of inputs of
    the system is refused with ValueError; a one-dimensional input counts
    as a single column. *)
Theorem dlsim_input_width (s : StateSpace) (dt : Qc) (u : ndarray) :
  ss_shapes s → ss_dom s = Discrete dt →
  mat_ok (input_columns u) → 1 ≤ nrows (input_columns u) →
  ncols (input_columns u) ≠ ncols (B s) →
  dlsim (SysObject (IsSS s)) u None None = Raise ValueError.
Proof.
  intros Hs Hdom HU HrU HcU.
  pose proof Hs as (HA & _).
  set (U := input_columns u) in *. set (N := nrows U) in *.
  set (X0 := Mat (nrows (A s))
               (<[0 := zeros1 (nrows (A s))]>
                  (rows (zeros N (nrows (A s)))))).
  assert (set_row (zeros N (nrows (A s))) 0 (zeros1 (ncols (A s))) = Ok X0)
    as HX0.
  { rewrite HA. apply set_row_same; [rewrite nrows_zeros; lia|].
    apply length_zeros1. }
  assert (rows X0 !! 0 = Some (zeros1 (nrows (A s)))) as Hx0.
  { unfold X0. cbn [rows]. apply list_lookup_insert_eq.
    unfold zeros. cbn [rows]. rewrite length_replicate. lia. }
  destruct (lookup_lt_is_Some_2 (rows U) 0) as [u0 Hu0]; [done|].
  unfold dlsim, discrete_system, is_lti. cbn [domain]. rewrite Hdom.
  cbn [mbind py_bind _as_ss is_StateSpace].
  unfold dlsim_ss. rewrite Hdom. cbn [dt_value mbind py_bind sample_count].
  fold U. fold N. rewrite decide_False by lia. cbn [mbind py_bind].
  rewrite Nat2Z.id, HX0. cbn [mbind py_bind].
  rewrite (simulate_wrong_width s U N X0 _ (zeros1 (nrows (A s))) u0 Hs);
    try done.
  - apply length_zeros1.
  - by rewrite (mat_ok_lookup U 0 u0).
Qed.

(** X6.  The initial state.  A scalar [x0] is broadcast: every state
    starts at that value.  A one-dimensional [x0] whose length is neither
    the number of states nor one is refused with ValueError. *)
Theorem dlsim_initial_state (s : StateSpace) (u : ndarray) :
  (∀ (t : option vec) (c : Qc) (r : dlsim_result),
     ss_shapes s →
     dlsim (SysObject (IsSS s)) u t (Some (Arr0 c)) = Ok r →
     ∃ tout yout xout, r = Triple tout yout xout ∧
       rows xout !! 0 = Some (replicate (nrows (A s)) c)) ∧
  (∀ (dt : Qc) (v : vec),
     ss_dom s = Discrete dt → 1 ≤ nrows (input_columns u) →
     length v ≠ nrows (A s) → length v ≠ 1 →
     dlsim (SysObject (IsSS s)) u None (Some (Arr1 v)) = Raise ValueError).
Proof.
  split.
  - intros t c r Hs Hr.
    apply dlsim_ss_object in Hr as (tout & yout & xout & Hrun & ->).
    exists tout, yout, xout. split; [done|].
    apply dlsim_ss_Ok in Hrun
      as (dt & N & stoptime & X0 & u_dt & _ & _ & HN & _ & HX0 & _ & Hsim).
    pose proof (assign_row_shape _ _ _ _ HX0) as (_ & _ & HcX0).
    rewrite ncols_zeros in HcX0.
    apply simulate_Ok in Hsim as (_ & _ & _ & _ & _ & _ & -> & _);
      try done.
    cbn [assign_row] in HX0.
    apply set_row_Ok in HX0 as (Hlt & v' & Hv' & ->). cbn [rows].
    rewrite list_lookup_insert_eq by done. f_equal.
    rewrite ncols_zeros in Hv'. unfold broadcast1 in Hv'.
    case_decide as Hlen; injection Hv' as <-; [|done].
    simpl in Hlen. by rewrite <- Hlen.
  - intros dt v Hdom HrU Hn H1.
    unfold dlsim, discrete_system, is_lti. cbn [domain]. rewrite Hdom.
    cbn [mbind py_bind _as_ss is_StateSpace].
    unfold dlsim_ss. rewrite Hdom.
    cbn [dt_value mbind py_bind sample_count].
    rewrite decide_False by lia. cbn [mbind py_bind assign_row].
    unfold set_row. rewrite decide_True by (rewrite nrows_zeros; lia).
    unfold broadcast1. rewrite ncols_zeros, decide_False by done.
    by destruct v as [|x [|y v]].
Qed.
End dlsim_edges.

(** ** Systems whose outputs are related step by step *)

Lemma response_of_related s s' (u u' : nat → vec) n
    (R : nat → vec → vec → Prop) (g : nat → vec → vec) :
  R 0 (zeros1 (nrows (A s))) (zeros1 (nrows (A s'))) →
  (∀ k x x', k < n → R k x x' →
     R (S k) (next_state s x (u k)) (next_state s' x' (u' k))) →
  (∀ k x x', k < n → R k x x' →
     output_at s' x' (u' k) = g k (output_at s x (u k))) →
  response_of s' u' n
  = Mat (nrows (C s')) ((λ k, g k (row (response_of s u n) k)) <$> seq 0 n).
Proof.
  intros H0 Hnext Hout.
  assert (∀ k, k ≤ n →
            R k (state_at s u (zeros1 (nrows (A s))) k)
                (state_at s' u' (zeros1 (nrows (A s'))) k)) as HR.
  { induction k as [|k IH]; intros Hk; [done|].
    cbn [state_at]. apply Hnext; [lia|]. apply IH. lia. }
  apply response_of_rows; [done|]. intros k Hk.
  rewrite row_response_of by done. apply Hout; [done|]. apply HR. lia.
Qed.

Lemma rows_seq M : rows M = row M <$> seq 0 (nrows M).
Proof.
  apply list_eq. intros k. rewrite list_lookup_fmap. unfold nrows, row.
  destruct (decide (k < length (rows M))) as [Hk|Hk].
  - rewrite lookup_seq_lt by done. simpl.
    destruct (lookup_lt_is_Some_2 (rows M) k Hk) as [r Hr].
    rewrite Hr. f_equal. symmetry. by apply nth_lookup_Some.
  - rewrite lookup_ge_None_2 by lia.
    by rewrite lookup_ge_None_2 by (rewrite length_seq; lia).
Qed.

(** ** Negation, sum and difference of systems *)

Lemma dot_opp_l (r x : vec) : dot (Qcopp <$> r) x = (- dot r x)%Qc.
Proof.
  revert x. induction r as [|a r IH]; intros [|x0 x];
    try (unfold dot; simpl; ring).
  rewrite fmap_cons, !dot_cons, IH. ring.
Qed.

Lemma mv_mneg M (x : vec) : mv (mneg M) x = Qcopp <$> mv M x.
Proof.
  unfold mv, mneg. cbn [rows]. rewrite <- !list_fmap_compose.
  apply list_fmap_ext. intros i r _. simpl. apply dot_opp_l.
Qed.

Lemma vadd_opp (a b : vec) :
  vadd (Qcopp <$> a) (Qcopp <$> b) = Qcopp <$> vadd a b.
Proof.
  unfold vadd. revert b. induction a as [|x a IH]; intros [|y b]; try done.
  rewrite !fmap_cons. cbn [zip_with]. rewrite fmap_cons, IH. f_equal. ring.
Qed.

Lemma mneg_involutive M : mneg (mneg M) = M.
Proof.
  destruct M as [c rs]. unfold mneg. cbn [rows ncols]. f_equal.
  rewrite <- list_fmap_compose. rewrite <- (list_fmap_id rs) at 2.
  apply list_fmap_ext. intros i r _. simpl.
  rewrite <- list_fmap_compose. rewrite <- (list_fmap_id r) at 2.
  apply list_fmap_ext. intros j x _. simpl. ring.
Qed.

Lemma mat_ok_mneg M : mat_ok M → mat_ok (mneg M).
Proof.
  unfold mat_ok, mneg. cbn [rows ncols]. intros HM.
  apply Forall_fmap. eapply Forall_impl; [exact HM|].
  intros r Hr. simpl. by rewrite length_fmap.
Qed.

Lemma nrows_mneg M : nrows (mneg M) = nrows M.
Proof. unfold nrows, mneg. cbn [rows]. by rewrite length_fmap. Qed.

Lemma neg_run s :
  ss_shapes s →
  StateSpace_.__neg__ s
  = Ok (SS (A s) (B s) (mneg (C s)) (mneg (D s)) (ss_dom s)).
Proof.
  intros Hs. unfold StateSpace_.__neg__, StateSpace_.__init__.
  rewrite abcd_normalize_2d; [done|].
  unfold ss_shapes, abcd_shapes in *. rewrite !nrows_mneg. done.
Qed.

Lemma response_of_neg s (u : nat → vec) n :
  response_of (SS (A s) (B s) (mneg (C s)) (mneg (D s)) (ss_dom s)) u n
  = mneg (response_of s u n).
Proof.
  rewrite (response_of_related s _ u u n (λ _ x x', x = x')
             (λ _ y, Qcopp <$> y)); [|done|by intros k x x' _ ->|].
  - symmetry. unfold mneg at 1. rewrite (rows_seq (response_of s u n)).
    rewrite nrows_response_of, <- list_fmap_compose.
    cbn [C response_of ncols]. by rewrite nrows_mneg.
  - intros k x x' _ ->. unfold output_at. cbn [C D].
    by rewrite !mv_mneg, vadd_opp.
Qed.

Section negation.
Context `{Conversions}.
Context `{rounding : Quotient}.

(** X7.  [-s] keeps [A], [B] and the time domain and negates [C] and [D]
    entry by entry; negating twice gives the system back; and the output of
    [-s] is the negated output of [s] for every input. *)
Theorem neg_negates_output (s : StateSpace) :
  ss_shapes s →
  ∃ s', StateSpace_.__neg__ s = Ok s' ∧
    StateSpace_.__neg__ s' = Ok s ∧
    A s' = A s ∧ B s' = B s ∧
    C s' = mneg (C s) ∧ D s' = mneg (D s) ∧ ss_dom s' = ss_dom s ∧
    ∀ dt U, ss_dom s = Discrete dt → input_for s U →
      ∃ Y, zero_state_output s U = Ok Y ∧
           zero_state_output s' U = Ok (mneg Y).
Proof.
  intros Hs. eexists. split; [by apply neg_run|].
  assert (ss_shapes (SS (A s) (B s) (mneg (C s)) (mneg (D s)) (ss_dom s)))
    as Hs'.
  { unfold ss_shapes, abcd_shapes in *. cbn [A B C D].
    by rewrite !nrows_mneg. }
  split.
  { rewrite neg_run by done. cbn [A B C D ss_dom].
    rewrite !mneg_involutive. by destruct s. }
  do 5 (split; [done|]).
  intros dt U Hdom HU. eexists. split; [by eapply zero_state_output_run|].
  rewrite (zero_state_output_run _ dt) by done.
  by rewrite response_of_neg.
Qed.
End negation.

(** ** Products with a matrix, and a matrix added *)

Lemma mm_shapes_left s m :
  ss_shapes s → abcd_shapes (A s) (B s) (mm m (C s)) (mm m (D s)).
Proof.
  unfold ss_shapes, abcd_shapes. rewrite !nrows_mm. cbn [ncols mm]. tauto.
Qed.

Lemma rmul_matrix_run s m :
  ss_shapes s → ncols m = nrows (C s) →
  StateSpace_.__rmul__ s (OpArray (Arr2 m))
  = Some (Ok (SS (A s) (B s) (mm m (C s)) (mm m (D s)) (ss_dom s))).
Proof.
  intros Hs Hm. pose proof Hs as (_ & _ & _ & HD & _).
  unfold StateSpace_.__rmul__.
  cbn [StateSpace_._check_binop_other StateSpace_.is_ss_operand negb orb
       StateSpace_.operand_matmul matmul].
  rewrite !matmat_Ok by lia. cbn [fmap py_fmap mbind py_bind].
  unfold StateSpace_.__init__.
  by rewrite abcd_normalize_2d by by apply mm_shapes_left.
Qed.

Lemma add_matrix_run s m :
  ss_ok s → mat_ok m → shape m = shape (D s) →
  StateSpace_.__add__ s (OpArray (Arr2 m))
  = Some (Ok (SS (A s) (B s) (C s)
                 (Mat (ncols (D s)) (zip_with vadd (rows (D s)) (rows m)))
                 (ss_dom s))).
Proof.
  intros (_ & _ & _ & HmD & Hs) Hm Hshape.
  unfold StateSpace_.__add__.
  cbn [StateSpace_._check_binop_other negb StateSpace_.operand_2d
       atleast_2d mbind py_bind].
  rewrite decide_True by done.
  rewrite madd_same_shape by done. cbn [mbind py_bind].
  unfold StateSpace_.__init__. rewrite abcd_normalize_2d; [done|].
  injection Hshape as Hr Hc.
  unfold ss_shapes, abcd_shapes, nrows in *. cbn [rows ncols].
  rewrite length_zip_with. repeat split; lia.
Qed.

(** ** When the operators are defined *)

Lemma matmat_refuses M N :
  ncols M ≠ nrows N → matmat M N = Raise ValueError.
Proof. intros Hne. unfold matmat. by rewrite decide_False. Qed.

(** X16.  The product of two state-space systems is defined exactly when
    both are of one time domain with one sampling time and the left system
    has as many inputs as the right one has outputs.  A continuous and a
    discrete system are not handled ([NotImplemented]), whereas their sum
    raises TypeError; two sampling times raise TypeError; a mismatch of
    inputs and outputs raises ValueError.  The product has the inputs of
    the right system, the outputs of the left one and the states of
    both. *)
Theorem mul_defined_when (s1 s2 : StateSpace) :
  ss_shapes s1 → ss_shapes s2 →
  (same_type (ss_dom s2) (ss_dom s1) = false →
   StateSpace_.__mul__ s1 (OpSystem (IsSS s2)) = NotImplemented ∧
   StateSpace_.__add__ s1 (OpSystem (IsSS s2)) = Some (Raise TypeError)) ∧
  (∀ dt1 dt2, ss_dom s1 = Discrete dt1 → ss_dom s2 = Discrete dt2 →
     dt1 ≠ dt2 →
     StateSpace_.__mul__ s1 (OpSystem (IsSS s2)) = Some (Raise TypeError)) ∧
  (ss_dom s2 = ss_dom s1 → ncols (B s1) ≠ nrows (C s2) →
   StateSpace_.__mul__ s1 (OpSystem (IsSS s2)) = Some (Raise ValueError)) ∧
  (ss_dom s2 = ss_dom s1 → ncols (B s1) = nrows (C s2) →
   ∃ s12, StateSpace_.__mul__ s1 (OpSystem (IsSS s2)) = Some (Ok s12) ∧
     ss_dom s12 = ss_dom s1 ∧
     StateSpace_.inputs s12 = StateSpace_.inputs s2 ∧
     StateSpace_.outputs s12 = StateSpace_.outputs s1 ∧
     nrows (A s12) = nrows (A s1) + nrows (A s2)).
Proof.
  intros Hs1 Hs2. split; [|split; [|split]].
  - intros Hmixed. unfold StateSpace_.__mul__, StateSpace_.__add__.
    cbn [StateSpace_._check_binop_other negb]. by rewrite Hmixed.
  - intros dt1 dt2 Hd1 Hd2 Hne. unfold StateSpace_.__mul__.
    cbn [StateSpace_._check_binop_other negb].
    rewrite Hd1, Hd2. cbn [same_type negb dt_of].
    rewrite decide_True; [done|]. by intros [= ->].
  - intros Hdom Hinner. unfold StateSpace_.__mul__.
    cbn [StateSpace_._check_binop_other negb].
    rewrite Hdom, same_type_refl. cbn [negb].
    rewrite decide_False by (by intros Hne).
    by rewrite (matmat_refuses (B s1) (C s2)).
  - intros Hdom Hinner. eexists.
    split; [by apply mul_series_run|].
    split; [done|].
    pose proof (nrows_mm (B s1) (C s2)) as HBC.
    pose proof (nrows_mm (D s1) (C s2)) as HDC.
    pose proof (nrows_zeros (nrows (A s2)) (nrows (A s1))) as Hz.
    destruct Hs1 as (HA1 & HB1 & HC1 & HD1 & HDB1).
    destruct Hs2 as (HA2 & HB2 & HC2 & HD2 & HDB2).
    unfold StateSpace_.inputs, StateSpace_.outputs, nrows in *.
    cbn [A B C ncols rows].
    rewrite length_app, !length_zip_with. repeat split; lia.
Qed.

(** ** The two paddings of transfer-function coefficients *)

Lemma cadd_0_l (a : complex) : cadd (creal 0%Qc) a = a.
Proof. destruct a. unfold cadd, creal. cbn [re im]. f_equal; ring. Qed.

Lemma cadd_comm (a b : complex) : cadd a b = cadd b a.
Proof. unfold cadd. f_equal; ring. Qed.

Lemma cadd_assoc (a b c : complex) : cadd a (cadd b c) = cadd (cadd a b) c.
Proof. unfold cadd. cbn [re im]. f_equal; ring. Qed.

Lemma cmul_1_l (a : complex) : cmul (creal 1%Qc) a = a.
Proof. destruct a. unfold cmul, creal. cbn [re im]. f_equal; ring. Qed.

Lemma cmul_comm (a b : complex) : cmul a b = cmul b a.
Proof. unfold cmul. f_equal; ring. Qed.

Lemma cmul_assoc (a b c : complex) : cmul a (cmul b c) = cmul (cmul a b) c.
Proof. unfold cmul. cbn [re im]. f_equal; ring. Qed.

Lemma cmul_cadd_distr (a b c : complex) :
  cmul (cadd a b) c = cadd (cmul a c) (cmul b c).
Proof. unfold cmul, cadd. cbn [re im]. f_equal; ring. Qed.

Lemma csub_def (a b : complex) : csub a b = cadd a (copp b).
Proof. unfold csub, cadd, copp. cbn [re im]. f_equal; ring. Qed.

Lemma copp_def (a : complex) : cadd a (copp a) = creal 0%Qc.
Proof. unfold cadd, copp, creal. cbn [re im]. f_equal; ring. Qed.

Lemma complex_ring_theory :
  ring_theory (creal 0%Qc) (creal 1%Qc) cadd cmul csub copp eq.
Proof.
  constructor.
  - apply cadd_0_l.
  - apply cadd_comm.
  - apply cadd_assoc.
  - apply cmul_1_l.
  - apply cmul_comm.
  - apply cmul_assoc.
  - apply cmul_cadd_distr.
  - apply csub_def.
  - apply copp_def.
Qed.

Add Ring complex_ring : complex_ring_theory.

Lemma cpow_add (z : complex) a b :
  cpow z (a + b) = cmul (cpow z a) (cpow z b).
Proof.
  induction a as [|a IH]; cbn [cpow Nat.add]; [ring|]. rewrite IH. ring.
Qed.

Lemma cpow_inverse (z w : complex) k :
  cmul z w = creal 1%Qc → cmul (cpow z k) (cpow w k) = creal 1%Qc.
Proof.
  intros Hzw. induction k as [|k IH]; cbn [cpow]; [ring|].
  transitivity (cmul (cmul z w) (cmul (cpow z k) (cpow w k))); [ring|].
  rewrite Hzw, IH. ring.
Qed.

Lemma polyval_from (c : vec) (z acc : complex) :
  foldl (λ acc ck, cadd (cmul acc z) (creal ck)) acc c
  = cadd (cmul acc (cpow z (length c))) (polyval c z).
Proof.
  unfold polyval. revert acc. induction c as [|a c IH]; intros acc.
  - cbn [foldl length cpow]. ring.
  - cbn [foldl length cpow]. rewrite IH.
    rewrite (IH (cadd (cmul (creal 0%Qc) z) (creal a))). ring.
Qed.

Lemma polyval_cons a (c : vec) (z : complex) :
  polyval (a :: c) z
  = cadd (cmul (creal a) (cpow z (length c))) (polyval c z).
Proof.
  unfold polyval at 1. cbn [foldl]. rewrite polyval_from. ring.
Qed.

Lemma polyval_asc_cons a (c : vec) (w : complex) :
  polyval_asc (a :: c) w = cadd (creal a) (cmul w (polyval_asc c w)).
Proof. done. Qed.

Lemma polyval_zeros_l k (c : vec) (z : complex) :
  polyval (zeros1 k ++ c) z = polyval c z.
Proof.
  induction k as [|k IH]; [done|].
  unfold zeros1 in *. cbn [replicate app]. rewrite polyval_cons, IH. ring.
Qed.

Lemma polyval_zeros_r k (c : vec) (z : complex) :
  polyval (c ++ zeros1 k) z = cmul (cpow z k) (polyval c z).
Proof.
  induction c as [|a c IH].
  - rewrite app_nil_l. rewrite <- (app_nil_r (zeros1 k)).
    rewrite polyval_zeros_l. unfold polyval. cbn [foldl]. ring.
  - rewrite <- app_comm_cons, !polyval_cons, IH.
    rewrite length_app, length_zeros1, cpow_add. ring.
Qed.

Lemma polyval_asc_zeros_l k (c : vec) (w : complex) :
  polyval_asc (zeros1 k ++ c) w = cmul (cpow w k) (polyval_asc c w).
Proof.
  induction k as [|k IH]; [cbn [zeros1 replicate app cpow]; ring|].
  unfold zeros1 in *. cbn [replicate app cpow].
  rewrite polyval_asc_cons, IH. ring.
Qed.

(** A polynomial in descending powers of z and the polynomial with the
    same coefficients in ascending powers of the inverse of z. *)
Lemma polyval_reversed (c : vec) (z w : complex) :
  cmul z w = creal 1%Qc →
  cmul z (polyval c z) = cmul (cpow z (length c)) (polyval_asc c w).
Proof.
  intros Hzw. induction c as [|a c IH].
  - unfold polyval, polyval_asc. cbn [foldl foldr length cpow]. ring.
  - rewrite polyval_cons, polyval_asc_cons. cbn [length cpow].
    transitivity (cadd (cmul (creal a) (cmul z (cpow z (length c))))
                       (cmul z (polyval c z))); [ring|].
    rewrite IH.
    transitivity (cadd (cmul (creal a) (cmul z (cpow z (length c))))
                       (cmul (cmul z w)
                             (cmul (cpow z (length c)) (polyval_asc c w))));
      [rewrite Hzw|]; ring.
Qed.

Lemma cancel_unit (z w a b : complex) :
  cmul z w = creal 1%Qc → cmul z a = cmul z b → a = b.
Proof.
  intros Hzw Hab.
  transitivity (cmul (cmul z w) a); [rewrite Hzw; ring|].
  transitivity (cmul w (cmul z a)); [ring|]. rewrite Hab.
  transitivity (cmul (cmul z w) b); [ring|]. rewrite Hzw. ring.
Qed.

Lemma _zinv_to_z_pads (b a : vec) :
  TransferFunction_._zinv_to_z b a
  = (b ++ zeros1 (length a - length b), a ++ zeros1 (length b - length a)).
Proof.
  unfold TransferFunction_._zinv_to_z, hstack1.
  repeat case_decide.
  - replace (length a - length b) with 0 by lia.
    replace (Z.to_nat (Z.of_nat (length b) - Z.of_nat (length a)))
      with (length b - length a) by lia.
    by rewrite app_nil_r.
  - replace (length b - length a) with 0 by lia.
    replace (Z.to_nat (- (Z.of_nat (length b) - Z.of_nat (length a))))
      with (length a - length b) by lia.
    by rewrite app_nil_r.
  - replace (length a - length b) with 0 by lia.
    replace (length b - length a) with 0 by lia.
    by rewrite !app_nil_r.
Qed.

(** A polynomial in descending powers of z, and the same coefficients
    behind [k] zeros as a polynomial in ascending powers of the inverse. *)
Lemma polyval_padded_front (c : vec) k (z w : complex) :
  cmul z w = creal 1%Qc →
  polyval c z
  = cmul (cpow z (k + length c - 1)) (polyval_asc (zeros1 k ++ c) w).
Proof.
  intros Hzw. rewrite polyval_asc_zeros_l.
  destruct c as [|a c].
  { unfold polyval, polyval_asc. cbn [foldl foldr]. ring. }
  apply (cancel_unit z w); [done|].
  rewrite (polyval_reversed _ z w) by done.
  replace (k + length (a :: c) - 1) with (k + length c)
    by (cbn [length]; lia).
  cbn [length cpow]. rewrite cpow_add.
  transitivity (cmul (cmul (cpow z k) (cpow w k))
                     (cmul (cmul z (cpow z (length c)))
                           (polyval_asc (a :: c) w))); [|ring].
  rewrite cpow_inverse by done. ring.
Qed.

(** A polynomial in ascending powers of the inverse of z, and the same
    coefficients before [k] zeros as a polynomial in descending powers. *)
Lemma polyval_padded_back (c : vec) k (z w : complex) :
  cmul z w = creal 1%Qc →
  polyval (c ++ zeros1 k) z
  = cmul (cpow z (length c + k - 1)) (polyval_asc c w).
Proof.
  intros Hzw. rewrite polyval_zeros_r.
  destruct c as [|a c].
  { unfold polyval, polyval_asc. cbn [foldl foldr]. ring. }
  apply (cancel_unit z w); [done|].
  transitivity (cmul (cpow z k) (cmul z (polyval (a :: c) z))); [ring|].
  rewrite (polyval_reversed _ z w) by done.
  replace (length (a :: c) + k - 1) with (length c + k)
    by (cbn [length]; lia).
  cbn [length cpow]. rewrite cpow_add. ring.
Qed.

(** X17.  [_z_to_zinv] pads the shorter coefficient list with zeros at the
    front, so that both lists have the length L of the longer one, and
    leaves the longer one as it is.  Read as polynomials with exact
    coefficients, the lists it returns, in ascending powers of the inverse
    of z, denote the polynomials it is given, in descending powers of z, up
    to the common factor z^(L-1): at every z that has an inverse the value
    of each given polynomial is z^(L-1) times the value of the returned
    one, and so the two quotients agree. *)
Theorem _z_to_zinv_same_function (n d : vec) (z w : complex) :
  cmul z w = creal 1%Qc →
  ∃ n' d', TransferFunction_._z_to_zinv n d = (n', d') ∧
    n' = zeros1 (length d - length n) ++ n ∧
    d' = zeros1 (length n - length d) ++ d ∧
    length n' = length n `max` length d ∧
    length n' = length d' ∧
    polyval n z = cmul (cpow z (length n' - 1)) (polyval_asc n' w) ∧
    polyval d z = cmul (cpow z (length d' - 1)) (polyval_asc d' w) ∧
    cmul (polyval n z) (polyval_asc d' w)
    = cmul (polyval d z) (polyval_asc n' w).
Proof.
  intros Hzw. rewrite _z_to_zinv_pads. eexists _, _. split; [done|].
  do 2 (split; [done|]).
  split; [rewrite !length_app, !length_zeros1; lia|].
  split; [rewrite !length_app, !length_zeros1; lia|].
  assert (length (zeros1 (length d - length n) ++ n)
          = length (zeros1 (length n - length d) ++ d)) as Hlen
    by (rewrite !length_app, !length_zeros1; lia).
  pose proof (polyval_padded_front n (length d - length n) z w Hzw) as Hn.
  pose proof (polyval_padded_front d (length n - length d) z w Hzw) as Hd.
  rewrite !length_app, !length_zeros1 in *.
  split; [done|]. split; [done|].
  rewrite Hn at 1. rewrite Hd at 1. rewrite Hlen. ring.
Qed.

(** X18.  [_zinv_to_z] pads the shorter coefficient list with zeros at the
    end, so that both lists have the length L of the longer one, and leaves
    the longer one as it is.  Read as polynomials with exact coefficients,
    the lists it returns, in descending powers of z, denote the polynomials
    it is given, in ascending powers of the inverse of z, up to the common
    factor z^(L-1), and so the two quotients agree.  Either padding leaves
    the result of the other unchanged. *)
Theorem _zinv_to_z_same_function (n d : vec) (z w : complex) :
  cmul z w = creal 1%Qc →
  ∃ n' d', TransferFunction_._zinv_to_z n d = (n', d') ∧
    n' = n ++ zeros1 (length d - length n) ∧
    d' = d ++ zeros1 (length n - length d) ∧
    length n' = length n `max` length d ∧
    length n' = length d' ∧
    polyval n' z = cmul (cpow z (length n' - 1)) (polyval_asc n w) ∧
    polyval d' z = cmul (cpow z (length d' - 1)) (polyval_asc d w) ∧
    cmul (polyval_asc n w) (polyval d' z)
    = cmul (polyval_asc d w) (polyval n' z) ∧
    TransferFunction_._z_to_zinv n' d' = (n', d') ∧
    (∀ n0 d0 n1 d1, TransferFunction_._z_to_zinv n0 d0 = (n1, d1) →
       TransferFunction_._zinv_to_z n1 d1 = (n1, d1)).
Proof.
  intros Hzw. rewrite _zinv_to_z_pads. eexists _, _. split; [done|].
  assert (∀ a b : vec, length a = length b →
            TransferFunction_._z_to_zinv a b = (a, b) ∧
            TransferFunction_._zinv_to_z a b = (a, b)) as Hfixed.
  { intros a b Hab. rewrite _z_to_zinv_pads, _zinv_to_z_pads.
    rewrite Hab, Nat.sub_diag. cbn [zeros1 replicate app].
    by rewrite !app_nil_r. }
  do 2 (split; [done|]).
  split; [rewrite !length_app, !length_zeros1; lia|].
  split; [rewrite !length_app, !length_zeros1; lia|].
  assert (length (n ++ zeros1 (length d - length n))
          = length (d ++ zeros1 (length n - length d))) as Hlen
    by (rewrite !length_app, !length_zeros1; lia).
  pose proof (polyval_padded_back n (length d - length n) z w Hzw) as Hn.
  pose proof (polyval_padded_back d (length n - length d) z w Hzw) as Hd.
  split; [by rewrite length_app, length_zeros1|].
  split; [by rewrite length_app, length_zeros1|].
  split; [|split].
  - rewrite Hn, Hd.
    rewrite !length_app, !length_zeros1 in Hlen. rewrite Hlen. ring.
  - apply Hfixed. rewrite !length_app, !length_zeros1. lia.
  - intros n0 d0 n1 d1 Hpad. apply Hfixed.
    pose proof (_z_to_zinv_lengths n0 d0) as [H1 H2].
    rewrite Hpad in H1, H2. simpl in H1, H2. lia.
Qed.

(** ** Guards of the frequency response and of the impulse and step
       responses *)

Section guards.
Context `{Conversions}.
Context `{rounding : Quotient}.

Lemma is_dlti_not_lti s : is_dlti s = negb (is_lti s).
Proof. unfold is_dlti, is_lti. by destruct (domain s). Qed.

Lemma to_tf_domain ss tf : StateSpace_.to_tf ss = Ok tf → tf_dom tf = ss_dom ss.
Proof.
  unfold StateSpace_.to_tf. intros Htf. py_inv Htf.
  unfold TransferFunction_.__init__ in Htf. py_inv Htf.
  by injection Htf as <-.
Qed.

(** X19.  [dfreqresp] refuses a continuous-time system with AttributeError
    and a transfer function or a zeros-poles-gain system with more than one
    input or output with ValueError.  A state-space system is converted to
    a transfer function first: the response is the response of that
    transfer function, and a conversion that raises makes [dfreqresp]
    raise the same error. *)
Theorem dfreqresp_guards (w : option (list complex)) (n : nat)
    (whole : bool) :
  (∀ s, is_lti s = true →
     dfreqresp (SysObject s) w n whole = Raise AttributeError) ∧
  (∀ s, is_dlti s = true → is_StateSpace s = false →
     inputs s ≠ 1 ∨ outputs s ≠ 1 →
     dfreqresp (SysObject s) w n whole = Raise ValueError) ∧
  (∀ ss tf, is_dlti (IsSS ss) = true → StateSpace_.to_tf ss = Ok tf →
     dfreqresp (SysObject (IsSS ss)) w n whole
     = dfreqresp (SysObject (IsTF tf)) w n whole) ∧
  (∀ ss e, is_dlti (IsSS ss) = true → StateSpace_.to_tf ss = Raise e →
     dfreqresp (SysObject (IsSS ss)) w n whole = Raise e).
Proof.
  split; [|split; [|split]].
  - intros s Hs. unfold dfreqresp.
    by rewrite is_dlti_not_lti, Hs.
  - intros s Hs Hkind Hsiso. unfold dfreqresp.
    rewrite Hs. cbn [mbind py_bind]. rewrite Hkind. cbn [mbind py_bind].
    rewrite bool_decide_false by tauto. done.
  - intros ss tf Hss Htf. unfold dfreqresp at 1.
    rewrite Hss. cbn [mbind py_bind is_StateSpace _as_tf].
    rewrite Htf. cbn [fmap py_fmap mbind py_bind].
    unfold dfreqresp.
    assert (is_dlti (IsTF tf) = true) as ->.
    { unfold is_dlti in *. cbn [domain] in *.
      by rewrite (to_tf_domain ss tf Htf). }
    done.
  - intros ss e Hss Htf. unfold dfreqresp.
    rewrite Hss. cbn [mbind py_bind is_StateSpace _as_tf].
    by rewrite Htf.
Qed.

(** X20.  [dimpulse] and [dstep] refuse a continuous-time system with
    AttributeError.  For a system without inputs the loop over the input
    channels does not run, and returning the time vector that it would
    have set raises UnboundLocalError. *)
Theorem impulse_step_guards (x0 : option ndarray) (t : option vec)
    (n : option nat) :
  (∀ s, is_lti s = true →
     dimpulse (SysObject s) x0 t n = Raise AttributeError ∧
     dstep (SysObject s) x0 t n = Raise AttributeError) ∧
  (∀ ss dt, ss_dom ss = Discrete dt → StateSpace_.inputs ss = 0 →
     dimpulse (SysObject (IsSS ss)) x0 t n = Raise UnboundLocalError ∧
     dstep (SysObject (IsSS ss)) x0 t n = Raise UnboundLocalError).
Proof.
  split.
  - intros s Hs. unfold dimpulse, dstep, discrete_ss.
    by rewrite is_dlti_not_lti, Hs.
  - intros ss dt Hdom Hin. unfold dimpulse, dstep, discrete_ss, is_dlti.
    cbn [domain]. rewrite Hdom. cbn [_as_ss mbind py_bind].
    unfold response_times, response. rewrite Hdom, Hin.
    by destruct t.
Qed.

(** X22.  A tuple whose last element is [dt], given as [system], stands
    for the object that [dlti] makes of the other elements with that
    [dt]: each of [dlsim], [dimpulse], [dstep] and [dfreqresp] returns or
    raises for the tuple what it does for that object, and raises what
    [dlti] raises when the tuple cannot be made an object. *)
Theorem tuple_is_dlti_object (system : list ndarray) (dt : Qc) :
  (∀ u t x0,
     dlsim (SysTuple system dt) u t x0
     = s ← dlti system dt; dlsim (SysObject s) u t x0) ∧
  (∀ x0 t n,
     dimpulse (SysTuple system dt) x0 t n
     = s ← dlti system dt; dimpulse (SysObject s) x0 t n) ∧
  (∀ x0 t n,
     dstep (SysTuple system dt) x0 t n
     = s ← dlti system dt; dstep (SysObject s) x0 t n) ∧
  (∀ w n whole,
     dfreqresp (SysTuple system dt) w n whole
     = s ← dlti system dt; dfreqresp (SysObject s) w n whole).
Proof.
  assert (∀ s, dlti system dt = Ok s →
            is_lti s = false ∧ is_dlti s = true) as Hdiscrete.
  { intros s Hs. apply by_arity_domain in Hs.
    unfold is_lti, is_dlti. by rewrite Hs. }
  repeat split; intros;
    unfold dlsim, dimpulse, dstep, dfreqresp, discrete_system, discrete_ss;
    destruct (dlti system dt) as [s|e] eqn:Hs; try done;
    destruct (Hdiscrete s eq_refl) as [Hlti Hdlti];
    cbn [mbind py_bind]; by rewrite ?Hlti, ?Hdlti.
Qed.

(** X23.  Converting a system to state-space form or to a transfer function
    keeps its time domain and sampling time, and returns a system that is
    already in the form asked for as it is. *)
Theorem conversions_keep_domain (s : LinearTimeInvariant) :
  (∀ ss, _as_ss s = Ok ss →
     ss_dom ss = domain s ∧ ∀ s0, s = IsSS s0 → ss = s0) ∧
  (∀ tf, _as_tf s = Ok tf →
     tf_dom tf = domain s ∧ ∀ s0, s = IsTF s0 → tf = s0).
Proof.
  split.
  - intros ss Hss. split; [by apply _as_ss_domain|].
    intros s0 ->. by injection Hss.
  - intros tf Htf. split.
    + destruct s as [tf0|z|ss]; cbn [_as_tf domain] in *.
      * by injection Htf as <-.
      * unfold ZerosPolesGain_.to_tf in Htf. py_inv Htf.
        unfold TransferFunction_.__init__ in Htf. py_inv Htf.
        by injection Htf as <-.
      * by apply to_tf_domain.
    + intros s0 ->. by injection Htf.
Qed.

(** X24.  [lti] and [dlti] choose the class by the number of arguments:
    two make a transfer function, three a zeros-poles-gain system, four a
    state-space system, and any other number raises ValueError.  What
    [lti] returns is continuous; what [dlti] returns is discrete with the
    sampling time given. *)
Theorem lti_dlti_dispatch (system : list ndarray) (dt : Qc) :
  (¬ (2 ≤ length system ≤ 4) →
   lti system = Raise ValueError ∧ dlti system dt = Raise ValueError) ∧
  (∀ s, lti system = Ok s →
     domain s = Continuous ∧
     match s with
     | IsTF _ => length system = 2
     | IsZPK _ => length system = 3
     | IsSS _ => length system = 4
     end) ∧
  (∀ s, dlti system dt = Ok s →
     domain s = Discrete dt ∧
     match s with
     | IsTF _ => length system = 2
     | IsZPK _ => length system = 3
     | IsSS _ => length system = 4
     end).
Proof.
  assert (∀ dom s, by_arity system dom = Ok s →
            match s with
            | IsTF _ => length system = 2
            | IsZPK _ => length system = 3
            | IsSS _ => length system = 4
            end) as Hkind.
  { intros dom s Hs. unfold by_arity in Hs.
    destruct system as [|a [|b [|c [|d [|e l]]]]]; try discriminate Hs;
      apply fmap_Ok in Hs as (? & _ & ->); done. }
  split; [|split].
  - intros Hlen. unfold lti, dlti, by_arity.
    destruct system as [|a [|b [|c [|d [|e l]]]]]; try done;
      exfalso; apply Hlen; simpl; lia.
  - intros s Hs. split; [by apply by_arity_domain in Hs|by eapply Hkind].
  - intros s Hs. split; [by apply by_arity_domain in Hs|by eapply Hkind].
Qed.
End guards.

(** ** The properties at concrete systems *)

Lemma dlsim_causal_witness :
  ∃ Y1 Y2,
    zero_state_output sys_half impulse3 = Ok Y1 ∧
    zero_state_output sys_half impulse3_again = Ok Y2 ∧
    ∀ k, k < nrows impulse3 → k < nrows impulse3_again →
      (∀ j, j ≤ k → row impulse3 j = row impulse3_again j) →
      row Y1 k = row Y2 k.
Proof.
  apply (dlsim_causal sys_half 1%Qc impulse3 impulse3_again); compute_done.
Defined.

Lemma dlsim_result_shapes_witness :
  ∃ r, dlsim (SysObject (IsSS sys_half)) pulse4 None None = Ok r ∧
    length (tout_of r) = 4 ∧ nrows (yout_of r) = 4 ∧
    ∃ tout yout xout, r = Triple tout yout xout ∧
      nrows xout = 4 ∧ ncols yout = 1 ∧ ncols xout = 1.
Proof.
  eexists. split; [vm_compute; reflexivity|].
  destruct (dlsim_result_shapes (SysObject (IsSS sys_half)) pulse4 None None
              _ eq_refl) as (_ & _ & _ & Hss).
  destruct (Hss sys_half eq_refl) as (tout & yout & xout & Hr & Hy & Hx).
  injection Hr as <- <- <-.
  split; [reflexivity|]. split; [reflexivity|].
  eexists _, _, _. split; [reflexivity|]. split; [reflexivity|]. done.
Defined.

Lemma dlsim_empty_input_witness :
  dlsim (SysObject (IsSS sys_half)) (Arr1 []) None None = Raise IndexError.
Proof. apply (dlsim_empty_input sys_half 1%Qc); reflexivity. Defined.

Lemma dlsim_input_width_witness :
  dlsim (SysObject (IsSS sys_two_inputs)) (Arr1 [1%Qc; 0%Qc]) None None
  = Raise ValueError.
Proof.
  apply (dlsim_input_width sys_two_inputs 1%Qc); compute_done.
Defined.

Lemma dlsim_initial_state_witness :
  (∃ r tout yout xout,
     dlsim (SysObject (IsSS sys_two_states)) ones2 None (Some (Arr0 two))
     = Ok r ∧
     r = Triple tout yout xout ∧ rows xout !! 0 = Some [two; two]) ∧
  dlsim (SysObject (IsSS sys_two_states)) ones2 None
    (Some (Arr1 [1%Qc; 1%Qc; 1%Qc]))
  = Raise ValueError.
Proof.
  destruct (dlsim_initial_state sys_two_states ones2) as [Hscalar Hwrong].
  split.
  - assert (∃ r, dlsim (SysObject (IsSS sys_two_states)) ones2 None
                   (Some (Arr0 two)) = Ok r) as [r Hr]
      by (eexists; vm_compute; reflexivity).
    destruct (Hscalar None two r ltac:(compute_done) Hr)
      as (tout & yout & xout & -> & Hx0).
    by exists (Triple tout yout xout), tout, yout, xout.
  - apply (Hwrong 1%Qc); (reflexivity || compute_done).
Defined.

Lemma neg_negates_output_witness :
  ∃ s', StateSpace_.__neg__ sys_half = Ok s' ∧
    StateSpace_.__neg__ s' = Ok sys_half ∧
    A s' = A sys_half ∧ B s' = B sys_half ∧
    C s' = mneg (C sys_half) ∧ D s' = mneg (D sys_half) ∧
    ss_dom s' = ss_dom sys_half ∧
    ∃ Y, zero_state_output sys_half impulse3 = Ok Y ∧
         zero_state_output s' impulse3 = Ok (mneg Y).
Proof.
  destruct (neg_negates_output sys_half ltac:(compute_done))
    as (s' & Hneg & Hback & HA & HB & HC & HD & Hdom & Hout).
  exists s'. do 7 (split; [done|]).
  apply (Hout 1%Qc impulse3); compute_done.
Defined.

Lemma mul_defined_when_witness :
  (StateSpace_.__mul__ sys_half (OpSystem (IsSS sys_half_continuous))
   = NotImplemented ∧
   StateSpace_.__add__ sys_half (OpSystem (IsSS sys_half_continuous))
   = Some (Raise TypeError)) ∧
  StateSpace_.__mul__ sys_half (OpSystem (IsSS sys_half_dt2))
  = Some (Raise TypeError) ∧
  StateSpace_.__mul__ sys_half (OpSystem (IsSS sys_two_outputs))
  = Some (Raise ValueError) ∧
  ∃ s12, StateSpace_.__mul__ sys_two_outputs (OpSystem (IsSS sys_half))
         = Some (Ok s12) ∧
    ss_dom s12 = Discrete 1%Qc ∧
    StateSpace_.inputs s12 = 1 ∧ StateSpace_.outputs s12 = 2 ∧
    nrows (A s12) = 2.
Proof.
  split; [|split; [|split]].
  - destruct (mul_defined_when sys_half sys_half_continuous)
      as (Hmixed & _); [compute_done..|].
    by apply Hmixed.
  - destruct (mul_defined_when sys_half sys_half_dt2)
      as (_ & Hdt & _); [compute_done..|].
    apply (Hdt 1%Qc two); (reflexivity || compute_done).
  - destruct (mul_defined_when sys_half sys_two_outputs)
      as (_ & _ & Hinner & _); [compute_done..|].
    apply Hinner; (reflexivity || compute_done).
  - destruct (mul_defined_when sys_two_outputs sys_half)
      as (_ & _ & _ & Hprod); [compute_done..|].
    apply Hprod; (reflexivity || compute_done).
Defined.

Lemma _z_to_zinv_same_function_witness :
  ∃ n' d',
    TransferFunction_._z_to_zinv [1%Qc] [1%Qc; (- half)%Qc] = (n', d') ∧
    n' = [0%Qc; 1%Qc] ∧ d' = [1%Qc; (- half)%Qc] ∧
    polyval [1%Qc] (creal two)
    = cmul (cpow (creal two) 1) (polyval_asc n' (creal half)) ∧
    polyval [1%Qc; (- half)%Qc] (creal two)
    = cmul (cpow (creal two) 1) (polyval_asc d' (creal half)).
Proof.
  destruct (_z_to_zinv_same_function [1%Qc] [1%Qc; (- half)%Qc]
              (creal two) (creal half))
    as (n' & d' & Hpad & Hn & Hd & _ & _ & Hvn & Hvd & _); [compute_done|].
  exists n', d'. split; [done|].
  split; [by rewrite Hn|]. split; [by rewrite Hd|].
  split; [by rewrite Hvn, Hn|by rewrite Hvd, Hd].
Defined.

Lemma _zinv_to_z_same_function_witness :
  ∃ n' d',
    TransferFunction_._zinv_to_z [1%Qc] [1%Qc; (- half)%Qc] = (n', d') ∧
    n' = [1%Qc; 0%Qc] ∧ d' = [1%Qc; (- half)%Qc] ∧
    polyval n' (creal two)
    = cmul (cpow (creal two) 1) (polyval_asc [1%Qc] (creal half)) ∧
    TransferFunction_._z_to_zinv n' d' = (n', d') ∧
    TransferFunction_._zinv_to_z [0%Qc; 1%Qc] [1%Qc; (- half)%Qc]
    = ([0%Qc; 1%Qc], [1%Qc; (- half)%Qc]).
Proof.
  destruct (_zinv_to_z_same_function [1%Qc] [1%Qc; (- half)%Qc]
              (creal two) (creal half))
    as (n' & d' & Hpad & Hn & Hd & _ & _ & Hvn & _ & _ & Hfix & Hback);
    [compute_done|].
  exists n', d'. split; [done|].
  split; [by rewrite Hn|]. split; [by rewrite Hd|].
  split; [by rewrite Hvn, Hn|]. split; [done|].
  apply (Hback [1%Qc] [1%Qc; (- half)%Qc]). compute_done.
Defined.

Lemma dfreqresp_guards_witness :
  dfreqresp (SysObject (IsSS sys_half_continuous)) None 4 false
  = Raise AttributeError ∧
  dfreqresp (SysObject (IsTF tf_two_inputs)) None 4 false
  = Raise ValueError ∧
  (∃ tf, @StateSpace_.to_tf first_order_both sys_half = Ok tf ∧
     @dfreqresp first_order_both (SysObject (IsSS sys_half)) None 4 false
     = @dfreqresp first_order_both (SysObject (IsTF tf)) None 4 false) ∧
  dfreqresp (SysObject (IsSS sys_half)) None 4 false
  = Raise NotImplementedError.
Proof.
  split; [|split; [|split]].
  - destruct (dfreqresp_guards None 4 false) as (Hcont & _).
    by apply Hcont.
  - destruct (dfreqresp_guards None 4 false) as (_ & Hsiso & _).
    apply Hsiso; [done|done|]. left. compute_done.
  - destruct (@dfreqresp_guards first_order_both None 4 false)
      as (_ & _ & Hss & _).
    eexists. split; [vm_compute; reflexivity|].
    apply Hss; [done|]. vm_compute; reflexivity.
  - destruct (dfreqresp_guards None 4 false) as (_ & _ & _ & Hraise).
    by apply Hraise.
Defined.

Lemma impulse_step_guards_witness :
  (dimpulse (SysObject (IsSS sys_half_continuous)) None None None
   = Raise AttributeError ∧
   dstep (SysObject (IsSS sys_half_continuous)) None None None
   = Raise AttributeError) ∧
  dimpulse (SysObject (IsSS sys_no_inputs)) None None None
  = Raise UnboundLocalError ∧
  dstep (SysObject (IsSS sys_no_inputs)) None None None
  = Raise UnboundLocalError.
Proof.
  destruct (impulse_step_guards None None None) as [Hcont Hnone].
  split; [by apply Hcont|]. by apply (Hnone sys_no_inputs 1%Qc).
Defined.

Lemma conversions_keep_domain_witness :
  (∃ ss, _as_ss (IsTF tf_half) = Ok ss ∧ ss_dom ss = Discrete 1%Qc) ∧
  (∀ ss, _as_ss (IsSS sys_half) = Ok ss → ss = sys_half) ∧
  (∃ tf, _as_tf (IsTF tf_half) = Ok tf ∧
     tf_dom tf = Discrete 1%Qc ∧ tf = tf_half).
Proof.
  split; [|split].
  - destruct (conversions_keep_domain (IsTF tf_half)) as [Hss _].
    eexists. split; [vm_compute; reflexivity|].
    by destruct (Hss _ ltac:(vm_compute; reflexivity)) as [Hdom _].
  - destruct (conversions_keep_domain (IsSS sys_half)) as [Hss _].
    intros ss Hconv. destruct (Hss ss Hconv) as [_ Hsame]. by apply Hsame.
  - destruct (conversions_keep_domain (IsTF tf_half)) as [_ Htf].
    exists tf_half.
    destruct (Htf tf_half eq_refl) as [Hdom Hsame]. done.
Defined.

Lemma lti_dlti_dispatch_witness :
  (lti [Arr0 1%Qc] = Raise ValueError ∧
   dlti [Arr0 1%Qc] 1%Qc = Raise ValueError) ∧
  (∃ s, lti [Arr1 [1%Qc]; Arr1 [1%Qc; (- half)%Qc]] = Ok s ∧
     domain s = Continuous ∧ is_TransferFunction s = true) ∧
  (∃ s, dlti [Arr0 half; Arr0 1%Qc; Arr0 1%Qc; Arr0 0%Qc] two = Ok s ∧
     domain s = Discrete two ∧ is_StateSpace s = true).
Proof.
  split; [|split].
  - destruct (lti_dlti_dispatch [Arr0 1%Qc] 1%Qc) as (Hbad & _).
    apply Hbad. simpl. lia.
  - destruct (lti_dlti_dispatch [Arr1 [1%Qc]; Arr1 [1%Qc; (- half)%Qc]]
                1%Qc) as (_ & Hlti & _).
    eexists. split; [vm_compute; reflexivity|].
    destruct (Hlti _ ltac:(vm_compute; reflexivity)) as [Hdom Hkind].
    done.
  - destruct (lti_dlti_dispatch
                [Arr0 half; Arr0 1%Qc; Arr0 1%Qc; Arr0 0%Qc] two)
      as (_ & _ & Hdlti).
    eexists. split; [vm_compute; reflexivity|].
    destruct (Hdlti _ ltac:(vm_compute; reflexivity)) as [Hdom Hkind].
    done.
Defined.


(** ** The impulse response and the step response side by side *)

Lemma head_linspace a b n e : 1 ≤ n → linspace a b n e !! 0 = Some a.
Proof.
  intros Hn. unfold linspace. destruct n as [|n]; [lia|].
  cbn [seq fmap list_fmap lookup list_lookup]. f_equal.
  rewrite Qc_of_nat_0. ring.
Qed.

Lemma segment_first (t : vec) (us : list vec) t0 (u0 : vec) :
  increasing t = true → 2 ≤ length t → length us = length t →
  t !! 0 = Some t0 → us !! 0 = Some u0 →
  Forall (λ r, length r = length u0) us →
  segment t us t0 = u0.
Proof.
  intros Hinc Hlen Hus Ht0 Hu0 Hrows.
  destruct t as [|a [|b t2]]; simpl in Hlen; try lia.
  destruct us as [|v0 [|v1 us']]; simpl in Hus; try lia.
  injection Ht0 as ->. injection Hu0 as ->.
  apply increasing_cons in Hinc as [Hlt _].
  cbn [segment]. rewrite bool_decide_true by done. cbn [orb].
  apply lerp_left.
  - intros ->. by apply Qclt_not_eq in Hlt.
  - apply Forall_cons in Hrows as [_ Hrows].
    by apply Forall_cons in Hrows as [Hv1 _].
Qed.

(** Interpolation passes through the first sample. *)
Lemma interp_first_row (t : vec) U (tq : vec) V t0 (u0 : vec) :
  make_interp_spline1 t U tq = Ok V → mat_ok U →
  t !! 0 = Some t0 → tq !! 0 = Some t0 → rows U !! 0 = Some u0 →
  rows V !! 0 = Some u0.
Proof.
  unfold make_interp_spline1. intros HV HU Ht0 Htq Hu0.
  case_decide as Hcond; [|discriminate].
  destruct Hcond as (Hlen & H2 & Hinc). injection HV as <-. cbn [rows].
  rewrite list_lookup_fmap, Htq. cbn [fmap option_fmap option_map]. f_equal.
  apply segment_first; try done.
  pose proof (mat_ok_lookup U 0 u0 HU Hu0) as Hlu0.
  unfold mat_ok in HU. eapply Forall_impl; [exact HU|].
  intros r Hr. simpl in *. lia.
Qed.

Section side_by_side.
Context `{Conversions}.
Context `{rounding : Quotient}.

(** What the loop over the input channels has collected after [k]
    channels. *)
Lemma response_loop ss probe t x0 k st :
  for_range (response_step ss probe t x0) (seq 0 k) (None, None) = Ok st →
  ∃ ys, length ys = k ∧
    st.2 = match k with 0 => None | S _ => Some ys end ∧
    ∀ i, i < k → ∃ U r,
      probe i = Ok U ∧
      dlsim (SysObject (IsSS ss)) (Arr2 U) (Some t) x0 = Ok r ∧
      ys !! i = Some (yout_of r) ∧
      (S i = k → st.1 = Some (tout_of r)).
Proof.
  revert st. induction k as [|k IH]; intros st Hloop.
  - injection Hloop as <-. exists []. repeat split; try done. lia.
  - rewrite for_range_S in Hloop.
    apply bind_Ok in Hloop as ([to yo] & Hprev & Hstep).
    destruct (IH _ Hprev) as (ys & Hlen & Hyo & Hch).
    unfold response_step in Hstep.
    apply bind_Ok in Hstep as (U & HU & Hstep).
    apply bind_Ok in Hstep as (one & Hrun & [= <-]).
    exists (ys ++ [yout_of one]). cbn [fst snd] in *.
    split; [rewrite length_app; simpl; lia|].
    split.
    { f_equal. rewrite Hyo. destruct k as [|k]; [|done].
      by destruct ys. }
    intros i Hi. destruct (decide (i = k)) as [->|Hne].
    + exists U, one. repeat split; try done.
      by rewrite lookup_app_r, Hlen, Nat.sub_diag by lia.
    + destruct (Hch i ltac:(lia)) as (U' & r' & HU' & Hr' & Hy' & _).
      exists U', r'. repeat split; try done.
      * by rewrite lookup_app_l by lia.
      * intros Hik. lia.
Qed.

Lemma response_Ok ss probe t x0 tout ys :
  response ss probe t x0 = Ok (tout, ys) →
  1 ≤ StateSpace_.inputs ss ∧
  length ys = StateSpace_.inputs ss ∧
  ∀ i, i < StateSpace_.inputs ss → ∃ U r,
    probe i = Ok U ∧
    dlsim (SysObject (IsSS ss)) (Arr2 U) (Some t) x0 = Ok r ∧
    ys !! i = Some (yout_of r) ∧
    (S i = StateSpace_.inputs ss → tout = tout_of r).
Proof.
  unfold response. intros Hr.
  apply bind_Ok in Hr as ([to yo] & Hloop & Hr).
  destruct (response_loop _ _ _ _ _ _ Hloop) as (ys' & Hlen & Hyo & Hch).
  cbn [fst snd] in *.
  destruct (StateSpace_.inputs ss) as [|p].
  - subst yo. by destruct to.
  - subst yo. destruct to as [to|]; [|discriminate].
    injection Hr as <- <-.
    split; [lia|]. split; [done|].
    intros i Hi. destruct (Hch i Hi) as (U & r & HU & Hr & Hy & Hlast).
    exists U, r. repeat split; try done.
    intros Hik. specialize (Hlast Hik). by injection Hlast.
Qed.

(** The time vector that [dlsim] returns for given times does not depend
    on the input. *)
Lemma dlsim_times_only ss U1 U2 t x0 r1 r2 :
  dlsim (SysObject (IsSS ss)) (Arr2 U1) (Some t) x0 = Ok r1 →
  dlsim (SysObject (IsSS ss)) (Arr2 U2) (Some t) x0 = Ok r2 →
  tout_of r1 = tout_of r2.
Proof.
  intros Hr1 Hr2.
  apply dlsim_ss_object in Hr1 as (tout1 & y1 & x1 & Hrun1 & ->).
  apply dlsim_ss_object in Hr2 as (tout2 & y2 & x2 & Hrun2 & ->).
  apply dlsim_ss_Ok in Hrun1
    as (dt1 & N1 & stop1 & _ & _ & Hdom1 & Hcount1 & _ & -> & _).
  apply dlsim_ss_Ok in Hrun2
    as (dt2 & N2 & stop2 & _ & _ & Hdom2 & Hcount2 & _ & -> & _).
  rewrite Hdom1 in Hdom2. injection Hdom2 as <-.
  cbn [sample_count] in Hcount1, Hcount2.
  rewrite Hcount1 in Hcount2. injection Hcount2 as HN <-.
  apply Nat2Z.inj in HN. by subst N2.
Qed.

(** Two runs over the same times and from the same initial state, with
    inputs that have the same first row, give the same first output. *)
Lemma dlsim_first_output ss U1 U2 (t : vec) x0 r1 r2 (u0 : vec) :
  ss_shapes ss → mat_ok U1 → mat_ok U2 →
  t !! 0 = Some 0%Qc →
  rows U1 !! 0 = Some u0 → rows U2 !! 0 = Some u0 →
  dlsim (SysObject (IsSS ss)) (Arr2 U1) (Some t) x0 = Ok r1 →
  dlsim (SysObject (IsSS ss)) (Arr2 U2) (Some t) x0 = Ok r2 →
  ∃ tout y1 x1 y2 x2,
    r1 = Triple tout y1 x1 ∧ r2 = Triple tout y2 x2 ∧
    shape y1 = (length tout, StateSpace_.outputs ss) ∧
    shape y2 = (length tout, StateSpace_.outputs ss) ∧
    row y1 0 = row y2 0.
Proof.
  intros Hs HU1 HU2 Ht0 Hu1 Hu2 Hr1 Hr2.
  pose proof (dlsim_times_only _ _ _ _ _ _ _ Hr1 Hr2) as Htimes.
  apply dlsim_ss_object in Hr1 as (tout1 & y1 & x1 & Hrun1 & ->).
  apply dlsim_ss_object in Hr2 as (tout2 & y2 & x2 & Hrun2 & ->).
  cbn [tout_of] in Htimes. subst tout2.
  exists tout1, y1, x1, y2, x2. do 2 (split; [done|]).
  pose proof (dlsim_ss_shapes _ _ _ _ _ _ _ Hrun1) as (_ & Hy1 & _).
  pose proof (dlsim_ss_shapes _ _ _ _ _ _ _ Hrun2) as (_ & Hy2 & _).
  do 2 (split; [done|]).
  assert (∀ U r y x, mat_ok U → rows U !! 0 = Some u0 →
            dlsim_ss ss (Arr2 U) (Some t) x0 = Ok (r, y, x) →
            ∃ X0 N, 1 ≤ N ∧
              match x0 with
              | None => set_row (zeros N (nrows (A ss))) 0
                          (zeros1 (ncols (A ss)))
              | Some x0 => assign_row (zeros N (nrows (A ss))) 0 x0
              end = Ok X0 ∧
              length r = N ∧
              ∀ xi, rows X0 !! 0 = Some xi →
                rows y !! 0 = Some (output_at ss xi u0)) as Hfirst.
  { intros U r y x HU Hu Hrun.
    apply dlsim_ss_Ok in Hrun
      as (dt & N & stop & X0 & u_dt & _ & _ & HN & -> & HX0 & Hinterp & Hsim).
    change (input_columns (Arr2 U)) with U in Hinterp.
    exists X0, N. split; [done|]. split; [done|].
    split; [apply length_linspace|].
    intros xi Hxi.
    assert (ncols X0 = nrows (A ss)) as HcX0.
    { destruct x0 as [a|].
      - by apply assign_row_shape in HX0 as (_ & _ & Hc).
      - by apply set_row_shape in HX0 as [_ Hc]. }
    destruct (simulate_state_at ss u_dt N X0 (zeros N (nrows (C ss))) x y xi
                Hs HcX0 eq_refl HN Hxi Hsim 0 ltac:(lia)) as [_ Hy].
    cbn [state_at] in Hy. rewrite Hy. do 2 f_equal.
    apply row_lookup.
    eapply interp_first_row; try done.
    by apply head_linspace. }
  destruct (Hfirst _ _ _ _ HU1 Hu1 Hrun1) as (X1 & N1 & HN1 & HX1 & Hl1 & Hrow1).
  destruct (Hfirst _ _ _ _ HU2 Hu2 Hrun2) as (X2 & N2 & HN2 & HX2 & Hl2 & Hrow2).
  rewrite Hl1 in Hl2. subst N2. rewrite HX1 in HX2. injection HX2 as <-.
  assert (∃ xi, rows X1 !! 0 = Some xi) as [xi Hxi].
  { apply lookup_lt_is_Some_2.
    destruct x0 as [a|].
    - apply assign_row_shape in HX1 as (_ & Hr & _).
      rewrite nrows_zeros in Hr. unfold nrows in Hr. lia.
    - apply set_row_shape in HX1 as [Hr _].
      rewrite nrows_zeros in Hr. unfold nrows in Hr. lia. }
  by rewrite (row_lookup _ _ _ (Hrow1 xi Hxi)),
             (row_lookup _ _ _ (Hrow2 xi Hxi)).
Qed.

Lemma impulse_and_step_channels (system : system_arg) (dt : Qc)
    (n : option nat) (x0 : option ndarray) (t_imp : vec) (imp : list matrix)
    (t_step : vec) (step : list matrix) :
  system_ok system → arg_dt system = Some dt → 2 ≤ default 100 n →
  dimpulse system x0 None n = Ok (t_imp, imp) →
  dstep system x0 None n = Ok (t_step, step) →
  ∃ ss, discrete_ss system = Ok ss ∧
    let N := default 100 n in
    let t := linspace 0%Qc (Qc_of_nat N * dt)%Qc N false in
    let p := StateSpace_.inputs ss in
    t_imp = t_step ∧ length imp = p ∧ length step = p ∧
    ∀ i, i < p →
      ∃ U_imp U_step y_imp y_step x_imp x_step,
        set_entry (zeros N p) 0 i 1%Qc = Ok U_imp ∧
        set_column (zeros N p) i (ones1 N) = Ok U_step ∧
        dlsim (SysObject (IsSS ss)) (Arr2 U_imp) (Some t) x0
        = Ok (Triple t_imp y_imp x_imp) ∧
        dlsim (SysObject (IsSS ss)) (Arr2 U_step) (Some t) x0
        = Ok (Triple t_imp y_step x_step) ∧
        imp !! i = Some y_imp ∧ step !! i = Some y_step ∧
        shape y_imp = (length t_imp, StateSpace_.outputs ss) ∧
        shape y_step = (length t_imp, StateSpace_.outputs ss) ∧
        row y_imp 0 = row y_step 0.
Proof.
  intros Hok Hdt Hn Himp Hstep.
  unfold dimpulse in Himp. unfold dstep in Hstep.
  apply bind_Ok in Himp as (ss & Hss & Himp).
  rewrite Hss in Hstep. cbn [mbind py_bind] in Hstep.
  destruct (discrete_ss_facts _ _ _ Hok Hdt Hss) as [Hs Hdom].
  exists ss. split; [done|]. cbn zeta.
  unfold response_times in Himp, Hstep. rewrite Hdom in Himp, Hstep.
  cbn [dt_value mbind py_bind] in Himp, Hstep.
  rewrite length_linspace in Himp, Hstep.
  set (N := default 100 n) in *.
  set (t := linspace 0%Qc (Qc_of_nat N * dt)%Qc N false) in *.
  apply response_Ok in Himp as (Hp & Hlimp & Hchi).
  apply response_Ok in Hstep as (_ & Hlstep & Hchs).
  set (p := StateSpace_.inputs ss) in *.
  assert (t !! 0 = Some 0%Qc) as Ht0 by (apply head_linspace; lia).
  assert (∀ i, i < p →
            ∃ U_imp U_step tout y_imp y_step x_imp x_step,
              set_entry (zeros N p) 0 i 1%Qc = Ok U_imp ∧
              set_column (zeros N p) i (ones1 N) = Ok U_step ∧
              dlsim (SysObject (IsSS ss)) (Arr2 U_imp) (Some t) x0
              = Ok (Triple tout y_imp x_imp) ∧
              dlsim (SysObject (IsSS ss)) (Arr2 U_step) (Some t) x0
              = Ok (Triple tout y_step x_step) ∧
              imp !! i = Some y_imp ∧ step !! i = Some y_step ∧
              shape y_imp = (length tout, StateSpace_.outputs ss) ∧
              shape y_step = (length tout, StateSpace_.outputs ss) ∧
              row y_imp 0 = row y_step 0 ∧
              (S i = p → t_imp = tout ∧ t_step = tout)) as Hch.
  { intros i Hi.
    destruct (Hchi i Hi) as (U1 & r1 & HU1 & Hr1 & Hy1 & Hlast1).
    destruct (Hchs i Hi) as (U2 & r2 & HU2 & Hr2 & Hy2 & Hlast2).
    destruct (impulse_input N p i)
      as (U1' & HU1' & HmU1 & HrU1 & HcU1 & Hrow1 & _); [lia|done|].
    destruct (step_input N p i)
      as (U2' & HU2' & HmU2 & HrU2 & HcU2 & Hrow2); [done|].
    rewrite HU1' in HU1. injection HU1 as <-.
    rewrite HU2' in HU2. injection HU2 as <-.
    assert (∀ U, nrows U = N → row U 0 = unit_vec p i →
              rows U !! 0 = Some (unit_vec p i)) as Hfirst.
    { intros U HrU Hrow.
      destruct (lookup_lt_is_Some_2 (rows U) 0) as [r Hr];
        [unfold nrows in HrU; lia|].
      by rewrite <- Hrow, (row_lookup U 0 r Hr). }
    destruct (dlsim_first_output ss U1' U2' t x0 r1 r2 (unit_vec p i))
      as (tout & y1 & x1 & y2 & x2 & -> & -> & Hs1 & Hs2 & Hrow0);
      try done.
    { by apply Hfirst. }
    { apply Hfirst; [done|]. apply Hrow2. lia. }
    exists U1', U2', tout, y1, y2, x1, x2.
    repeat split; try done.
    - by apply Hlast1.
    - by apply Hlast2. }
  destruct (Hch (p - 1) ltac:(lia))
    as (Ul1 & Ul2 & toutl & yl1 & yl2 & xl1 & xl2 & _ & _ & Hrl1 & _ & _ & _
        & _ & _ & _ & Hlast).
  destruct (Hlast ltac:(lia)) as [-> ->].
  split; [done|]. split; [done|]. split; [done|].
  intros i Hi.
  destruct (Hch i Hi)
    as (U1 & U2 & tout & y1 & y2 & x1 & x2 & HU1 & HU2 & Hr1 & Hr2 & Hy1
        & Hy2 & Hs1 & Hs2 & Hrow0 & _).
  pose proof (dlsim_times_only _ _ _ _ _ _ _ Hr1 Hrl1) as Htimes.
  cbn [tout_of] in Htimes. subst tout.
  by exists U1, U2, y1, y2, x1, x2.
Qed.
End side_by_side.

(** C5, amended.  For a discrete system, with [t] omitted and at least two
    samples asked for, whenever [dimpulse] and [dstep] return for the same
    [x0] and [n] they return the same times and one output array per input
    channel; the arrays of channel i are what [dlsim] returns, over the
    times that the two routines build, for the impulse and for the step on
    channel i; they have one row per time and one column per output; and
    at sample 0 the impulse response equals the step response, which is the
    first difference there.  At later samples the impulse response is the
    first difference of the step response in the scenario A = 0.5, B = 1,
    C = 1, D = 0, dt = 1, n = 3 with [x0] omitted, whose responses are
    0, 1, 0.5 and 0, 1, 1.5; in general it is not. *)
Theorem dimpulse_and_dstep_related :
  (∀ (conversions : Conversions) (rounding : Quotient)
     (system : system_arg) (dt : Qc) (n : option nat) (x0 : option ndarray)
     (t_imp : vec) (imp : list matrix) (t_step : vec) (step : list matrix),
     system_ok system → arg_dt system = Some dt → 2 ≤ default 100 n →
     dimpulse system x0 None n = Ok (t_imp, imp) →
     dstep system x0 None n = Ok (t_step, step) →
     ∃ ss, discrete_ss system = Ok ss ∧
       let N := default 100 n in
       let t := linspace 0%Qc (Qc_of_nat N * dt)%Qc N false in
       let p := StateSpace_.inputs ss in
       t_imp = t_step ∧ length imp = p ∧ length step = p ∧
       ∀ i, i < p →
         ∃ U_imp U_step y_imp y_step x_imp x_step,
           set_entry (zeros N p) 0 i 1%Qc = Ok U_imp ∧
           set_column (zeros N p) i (ones1 N) = Ok U_step ∧
           dlsim (SysObject (IsSS ss)) (Arr2 U_imp) (Some t) x0
           = Ok (Triple t_imp y_imp x_imp) ∧
           dlsim (SysObject (IsSS ss)) (Arr2 U_step) (Some t) x0
           = Ok (Triple t_imp y_step x_step) ∧
           imp !! i = Some y_imp ∧ step !! i = Some y_step ∧
           shape y_imp = (length t_imp, StateSpace_.outputs ss) ∧
           shape y_step = (length t_imp, StateSpace_.outputs ss) ∧
           row y_imp 0 = row y_step 0) ∧
  (∃ y_imp y_step,
     dimpulse (SysObject (IsSS sys_half)) None None (Some 3)
     = Ok ([0%Qc; 1%Qc; two], [y_imp]) ∧
     dstep (SysObject (IsSS sys_half)) None None (Some 3)
     = Ok ([0%Qc; 1%Qc; two], [y_step]) ∧
     y_imp = Mat 1 [[0%Qc]; [1%Qc]; [half]] ∧
     y_step = Mat 1 [[0%Qc]; [1%Qc]; [three_halves]] ∧
     ∀ k, k < 3 →
       row y_imp k
       = vsub (row y_step k)
              (match k with 0 => zeros1 1 | S k' => row y_step k' end)).
Proof.
  split.
  - intros conversions rounding system dt n x0 t_imp imp t_step step.
    apply impulse_and_step_channels.
  - exists (Mat 1 [[0%Qc]; [1%Qc]; [half]]),
      (Mat 1 [[0%Qc]; [1%Qc]; [three_halves]]).
    split; [compute_done|]. split; [compute_done|].
    do 2 (split; [reflexivity|]).
    intros [|[|[|k]]] Hk; try lia; compute_done.
Qed.

Lemma dimpulse_and_dstep_related_witness :
  ∃ ss, discrete_ss (SysObject (IsSS sys_half)) = Ok ss ∧
    let N := 3 in
    let t := linspace 0%Qc (Qc_of_nat N * 1)%Qc N false in
    let p := StateSpace_.inputs ss in
    [0%Qc; 1%Qc; two] = [0%Qc; 1%Qc; two] ∧
    length [Mat 1 [[1%Qc]; [three_halves]; [three_quarters]]] = p ∧
    length [Mat 1 [[1%Qc]; [three_halves]; [seven_quarters]]] = p ∧
    ∀ i, i < p →
      ∃ U_imp U_step y_imp y_step x_imp x_step,
        set_entry (zeros N p) 0 i 1%Qc = Ok U_imp ∧
        set_column (zeros N p) i (ones1 N) = Ok U_step ∧
        dlsim (SysObject (IsSS ss)) (Arr2 U_imp) (Some t) (Some state_one)
        = Ok (Triple [0%Qc; 1%Qc; two] y_imp x_imp) ∧
        dlsim (SysObject (IsSS ss)) (Arr2 U_step) (Some t) (Some state_one)
        = Ok (Triple [0%Qc; 1%Qc; two] y_step x_step) ∧
        [Mat 1 [[1%Qc]; [three_halves]; [three_quarters]]] !! i
        = Some y_imp ∧
        [Mat 1 [[1%Qc]; [three_halves]; [seven_quarters]]] !! i
        = Some y_step ∧
        shape y_imp = (length [0%Qc; 1%Qc; two], StateSpace_.outputs ss) ∧
        shape y_step = (length [0%Qc; 1%Qc; two], StateSpace_.outputs ss) ∧
        row y_imp 0 = row y_step 0.
Proof.
  apply (proj1 dimpulse_and_dstep_related first_order exact_quotient
           (SysObject (IsSS sys_half)) 1%Qc (Some 3) (Some state_one));
    compute_done.
Defined.

(** C5 as stated fails: from the initial state 1 the impulse response of
    A = 0.5, B = 1, C = 1, D = 0 with dt = 1 is 1, 1.5, 0.75 and the step
    response is 1, 1.5, 1.75, whose first difference at sample 2 is 0.25. *)
Lemma dimpulse_not_first_difference :
  dimpulse (SysObject (IsSS sys_half)) (Some state_one) None (Some 3)
  = Ok ([0%Qc; 1%Qc; two],
        [Mat 1 [[1%Qc]; [three_halves]; [three_quarters]]]) ∧
  dstep (SysObject (IsSS sys_half)) (Some state_one) None (Some 3)
  = Ok ([0%Qc; 1%Qc; two],
        [Mat 1 [[1%Qc]; [three_halves]; [seven_quarters]]]) ∧
  row (Mat 1 [[1%Qc]; [three_halves]; [three_quarters]]) 2
  ≠ vsub (row (Mat 1 [[1%Qc]; [three_halves]; [seven_quarters]]) 2)
         (row (Mat 1 [[1%Qc]; [three_halves]; [seven_quarters]]) 1).
Proof. split; [compute_done|]. split; compute_done. Qed.

(** ** Sum, difference and the reflected operators, matrix by matrix *)

Lemma neg_ok s :
  ss_ok s → ss_ok (SS (A s) (B s) (mneg (C s)) (mneg (D s)) (ss_dom s)).
Proof.
  intros (HmA & HmB & HmC & HmD & Hs).
  unfold ss_ok, abcd_ok, abcd_shapes in *. cbn [A B C D].
  rewrite !nrows_mneg. cbn [mneg ncols].
  repeat split; try done; try tauto; by apply mat_ok_mneg.
Qed.

(** X8.  The sum of two state-space systems of one time domain whose
    feedthrough matrices have one shape is their parallel connection: [A]
    is the block diagonal of the two state matrices, [B] stacks the two
    input matrices, [C] puts the two output matrices side by side and [D]
    is the entrywise sum.  The sum has the states of both systems and the
    inputs and outputs of each.  Two sampling times raise TypeError. *)
Theorem add_is_parallel_connection (s1 s2 : StateSpace) :
  ss_ok s1 → ss_ok s2 →
  (∀ dt1 dt2, ss_dom s1 = Discrete dt1 → ss_dom s2 = Discrete dt2 →
     dt1 ≠ dt2 →
     StateSpace_.__add__ s1 (OpSystem (IsSS s2)) = Some (Raise TypeError)) ∧
  (ss_dom s2 = ss_dom s1 → shape (D s2) = shape (D s1) →
   ∃ s12, StateSpace_.__add__ s1 (OpSystem (IsSS s2)) = Some (Ok s12) ∧
     A s12 = block_diag (A s1) (A s2) ∧
     vstack (B s1) (B s2) = Ok (B s12) ∧
     hstack (C s1) (C s2) = Ok (C s12) ∧
     D s12 = mplus (D s1) (D s2) ∧
     ss_dom s12 = ss_dom s1 ∧
     ss_shapes s12 ∧
     nrows (A s12) = nrows (A s1) + nrows (A s2) ∧
     StateSpace_.inputs s12 = StateSpace_.inputs s1 ∧
     StateSpace_.inputs s12 = StateSpace_.inputs s2 ∧
     StateSpace_.outputs s12 = StateSpace_.outputs s1 ∧
     StateSpace_.outputs s12 = StateSpace_.outputs s2).
Proof.
  intros Hs1 Hs2. split.
  - intros dt1 dt2 Hd1 Hd2 Hne. unfold StateSpace_.__add__.
    cbn [StateSpace_._check_binop_other negb].
    rewrite Hd1, Hd2. cbn [same_type negb dt_of].
    rewrite decide_True; [done|]. by intros [= ->].
  - intros Hdom Hshape. eexists.
    split; [by apply add_systems_run|]. cbn [A B C D ss_dom].
    destruct Hs1 as (_ & _ & _ & _ & HA1 & HB1 & HC1 & HD1 & HDB1).
    destruct Hs2 as (_ & _ & _ & _ & HA2 & HB2 & HC2 & HD2 & HDB2).
    injection Hshape as Hr Hc.
    split; [done|].
    split; [apply vstack_Ok; lia|].
    split; [apply hstack_Ok; lia|].
    split; [done|]. split; [done|].
    unfold ss_shapes, abcd_shapes, StateSpace_.inputs, StateSpace_.outputs,
      block_diag, nrows in *.
    cbn [A B C D ncols rows].
    rewrite !length_app, !length_fmap, !length_zip_with.
    repeat split; lia.
Qed.

(** X9.  Subtraction is the sum with the negated operand: an array is
    negated entry by entry, a number changes sign, and a state-space system
    keeps [A] and [B] and has [C] and [D] negated, so the difference of two
    systems of one time domain with feedthroughs of one shape has the block
    diagonal [A], the stacked [B], [C1] beside [-C2], and [D1 + (-D2)].  A
    value of another type is not handled. *)
Theorem sub_is_add_of_negation (s1 s2 : StateSpace) :
  ss_ok s1 → ss_ok s2 →
  (∀ other, StateSpace_._check_binop_other other = false →
     StateSpace_.__sub__ s1 other = NotImplemented) ∧
  (∀ a, StateSpace_.__sub__ s1 (OpArray a)
        = StateSpace_.__add__ s1 (OpArray (aneg a))) ∧
  (∀ x, StateSpace_.__sub__ s1 (OpNumber x)
        = StateSpace_.__add__ s1 (OpNumber (- x)%Qc)) ∧
  (∃ s2', StateSpace_.__neg__ s2 = Ok s2' ∧
     A s2' = A s2 ∧ B s2' = B s2 ∧
     C s2' = mneg (C s2) ∧ D s2' = mneg (D s2) ∧
     StateSpace_.__sub__ s1 (OpSystem (IsSS s2))
     = StateSpace_.__add__ s1 (OpSystem (IsSS s2'))) ∧
  (ss_dom s2 = ss_dom s1 → shape (D s2) = shape (D s1) →
   ∃ s12, StateSpace_.__sub__ s1 (OpSystem (IsSS s2)) = Some (Ok s12) ∧
     A s12 = block_diag (A s1) (A s2) ∧
     vstack (B s1) (B s2) = Ok (B s12) ∧
     hstack (C s1) (mneg (C s2)) = Ok (C s12) ∧
     D s12 = mplus (D s1) (mneg (D s2)) ∧
     ss_dom s12 = ss_dom s1).
Proof.
  intros Hs1 Hs2.
  pose proof Hs2 as (_ & _ & _ & _ & Hshapes2).
  assert (StateSpace_.__sub__ s1 (OpSystem (IsSS s2))
          = StateSpace_.__add__ s1
              (OpSystem (IsSS (SS (A s2) (B s2) (mneg (C s2))
                                  (mneg (D s2)) (ss_dom s2)))))
    as Hsub.
  { unfold StateSpace_.__sub__.
    cbn [StateSpace_._check_binop_other negb StateSpace_.operand_neg].
    by rewrite neg_run. }
  split; [|split; [|split; [|split]]].
  - intros other Hother. unfold StateSpace_.__sub__. by rewrite Hother.
  - done.
  - done.
  - eexists. split; [by apply neg_run|]. do 4 (split; [done|]).
    exact Hsub.
  - intros Hdom Hshape. rewrite Hsub.
    pose proof (neg_ok s2 Hs2) as Hs2'.
    eexists. split.
    { apply add_systems_run; try done.
      injection Hshape as Hr Hc. cbn [D]. unfold shape.
      by rewrite nrows_mneg, Hr, <- Hc. }
    cbn [A B C D ss_dom].
    destruct Hs1 as (_ & _ & _ & _ & HA1 & HB1 & HC1 & HD1 & HDB1).
    destruct Hshapes2 as (HA2 & HB2 & HC2 & HD2 & HDB2).
    injection Hshape as Hr Hc.
    split; [done|].
    split; [apply vstack_Ok; lia|].
    split; [rewrite hstack_Ok by (rewrite nrows_mneg; lia); done|].
    done.
Qed.

(** X12.  A matrix [m] times a system from the left scales the output: the
    product keeps [A] and [B] and has [m @ C] and [m @ D]; [m] must have a
    column for every output, or the product raises ValueError.  A
    state-space system or a value of another type on the left is not
    handled; a Python number raises TypeError and a rank-0 array ValueError,
    as [@] takes no scalar. *)
Theorem rmul_scales_the_output (s : StateSpace) :
  ss_shapes s →
  (∀ s', StateSpace_.__rmul__ s (OpSystem s') = NotImplemented) ∧
  StateSpace_.__rmul__ s OpOther = NotImplemented ∧
  (∀ x, StateSpace_.__rmul__ s (OpNumber x) = Some (Raise TypeError)) ∧
  (∀ x, StateSpace_.__rmul__ s (OpArray (Arr0 x))
        = Some (Raise ValueError)) ∧
  (∀ m, ncols m ≠ StateSpace_.outputs s →
     StateSpace_.__rmul__ s (OpArray (Arr2 m)) = Some (Raise ValueError)) ∧
  (∀ m, ncols m = StateSpace_.outputs s →
     ∃ s', StateSpace_.__rmul__ s (OpArray (Arr2 m)) = Some (Ok s') ∧
       A s' = A s ∧ B s' = B s ∧
       matmat m (C s) = Ok (C s') ∧ matmat m (D s) = Ok (D s') ∧
       ss_dom s' = ss_dom s ∧ ss_shapes s' ∧
       StateSpace_.inputs s' = StateSpace_.inputs s ∧
       StateSpace_.outputs s' = nrows m).
Proof.
  intros Hs. pose proof Hs as (HA & HB & HC & HD & HDB).
  split; [|split; [|split; [|split; [|split]]]].
  - by intros [tf|z|s'].
  - done.
  - done.
  - done.
  - intros m Hm. unfold StateSpace_.__rmul__.
    cbn [StateSpace_._check_binop_other StateSpace_.is_ss_operand negb orb
         StateSpace_.operand_matmul matmul].
    by rewrite (matmat_refuses m (C s)).
  - intros m Hm. eexists. split; [by apply rmul_matrix_run|].
    cbn [A B C D ss_dom].
    do 2 (split; [done|]).
    split; [by apply matmat_Ok|].
    split; [apply matmat_Ok; unfold StateSpace_.outputs in Hm; lia|].
    split; [done|].
    split; [exact (mm_shapes_left s m Hs)|].
    unfold StateSpace_.inputs, StateSpace_.outputs. cbn [B C].
    by rewrite nrows_mm.
Qed.

(** X14.  The reflected sum is the sum, and the reflected difference
    [other - s] is the sum of [-s] and [other]: for a matrix [m] of the
    shape of [D] it keeps [A] and [B] and has [-C] and [(-D) + m]; a matrix
    of another shape raises ValueError. *)
Theorem reflected_add_and_sub (s : StateSpace) :
  ss_ok s →
  (∀ other, StateSpace_.__radd__ s other = StateSpace_.__add__ s other) ∧
  (∃ s', StateSpace_.__neg__ s = Ok s' ∧
     ∀ other, StateSpace_.__rsub__ s other = StateSpace_.__add__ s' other) ∧
  (∀ m, mat_ok m → shape m = shape (D s) →
     ∃ r, StateSpace_.__rsub__ s (OpArray (Arr2 m)) = Some (Ok r) ∧
       A r = A s ∧ B r = B s ∧ C r = mneg (C s) ∧
       D r = mplus (mneg (D s)) m ∧ ss_dom r = ss_dom s) ∧
  (∀ m, shape m ≠ shape (D s) →
     StateSpace_.__rsub__ s (OpArray (Arr2 m)) = Some (Raise ValueError)).
Proof.
  intros Hs. pose proof Hs as (_ & _ & _ & _ & Hshapes).
  pose proof (neg_ok s Hs) as Hs'.
  assert (∀ other, StateSpace_.__rsub__ s other
                   = StateSpace_.__add__
                       (SS (A s) (B s) (mneg (C s)) (mneg (D s)) (ss_dom s))
                       other) as Hrsub.
  { intros other. unfold StateSpace_.__rsub__. rewrite neg_run by done.
    destruct (StateSpace_._check_binop_other other) eqn:Hother; [done|].
    cbn [negb]. unfold StateSpace_.__add__. by rewrite Hother. }
  split; [|split; [|split]].
  - intros other. unfold StateSpace_.__radd__.
    destruct (StateSpace_._check_binop_other other) eqn:Hother; [done|].
    cbn [negb]. unfold StateSpace_.__add__. by rewrite Hother.
  - eexists. split; [by apply neg_run|]. done.
  - intros m Hm Hshape. rewrite Hrsub. eexists. split.
    { apply add_matrix_run; try done. cbn [D]. unfold shape in *.
      by rewrite nrows_mneg. }
    done.
  - intros m Hshape. rewrite Hrsub. unfold StateSpace_.__add__.
    cbn [StateSpace_._check_binop_other negb StateSpace_.operand_2d
         atleast_2d mbind py_bind D].
    rewrite decide_False; [done|].
    unfold shape in *. rewrite nrows_mneg. cbn [mneg ncols]. congruence.
Qed.

(** X15.  Division never returns a system.  By a system of any kind or a
    value of another type it is not handled; by an array of rank one or two
    it raises ValueError; by a non-zero number it is the product with the
    reciprocal, which raises TypeError; by the number zero the reciprocal
    raises ZeroDivisionError; and by a rank-0 array it is the product with
    a rank-0 array, which raises ValueError. *)
Theorem truediv_never_returns (self : StateSpace) :
  (∀ s, StateSpace_.__truediv__ self (OpSystem s) = NotImplemented) ∧
  StateSpace_.__truediv__ self OpOther = NotImplemented ∧
  (∀ v, StateSpace_.__truediv__ self (OpArray (Arr1 v))
        = Some (Raise ValueError)) ∧
  (∀ M, StateSpace_.__truediv__ self (OpArray (Arr2 M))
        = Some (Raise ValueError)) ∧
  (∀ x, x ≠ 0%Qc →
     StateSpace_.__truediv__ self (OpNumber x)
     = StateSpace_.__mul__ self (OpNumber (/ x)%Qc) ∧
     StateSpace_.__truediv__ self (OpNumber x) = Some (Raise TypeError)) ∧
  StateSpace_.__truediv__ self (OpNumber 0%Qc)
  = Some (Raise ZeroDivisionError) ∧
  (∀ x, StateSpace_.__truediv__ self (OpArray (Arr0 x))
        = StateSpace_.__mul__ self (OpArray (Arr0 (/ x)%Qc)) ∧
        StateSpace_.__truediv__ self (OpArray (Arr0 x))
        = Some (Raise ValueError)) ∧
  (∀ other r, StateSpace_.__truediv__ self other ≠ Some (Ok r)).
Proof.
  split; [by intros [tf|z|s]|]. split; [done|].
  split; [done|]. split; [done|].
  split.
  { intros x Hx. unfold StateSpace_.__truediv__.
    cbn [StateSpace_._check_binop_other StateSpace_.is_ss_operand negb orb
         StateSpace_.reciprocal].
    by rewrite decide_False. }
  split; [done|]. split; [done|].
  intros other r. unfold StateSpace_.__truediv__.
  destruct other as [[tf|z|s]|[x|v|M]|x|]; simpl; try done.
  case_decide; done.
Qed.

Lemma add_is_parallel_connection_witness :
  StateSpace_.__add__ sys_half (OpSystem (IsSS sys_half_dt2))
  = Some (Raise TypeError) ∧
  ∃ s12, StateSpace_.__add__ sys_half (OpSystem (IsSS sys_delay))
         = Some (Ok s12) ∧
    A s12 = Mat 2 [[half; 0%Qc]; [0%Qc; 0%Qc]] ∧
    B s12 = Mat 1 [[1%Qc]; [1%Qc]] ∧
    C s12 = Mat 2 [[1%Qc; 1%Qc]] ∧
    D s12 = Mat 1 [[0%Qc]] ∧
    ss_dom s12 = Discrete 1%Qc.
Proof.
  destruct (add_is_parallel_connection sys_half sys_half_dt2)
    as [Hdt _]; [compute_done..|].
  split; [apply (Hdt 1%Qc two); (reflexivity || compute_done)|].
  destruct (add_is_parallel_connection sys_half sys_delay)
    as [_ Hsum]; [compute_done..|].
  destruct (Hsum eq_refl eq_refl)
    as (s12 & Hadd & HA & HB & HC & HD & Hdom & _).
  exists s12. split; [done|].
  split; [by rewrite HA|].
  split; [by injection HB as <-|].
  split; [by injection HC as <-|].
  split; [by rewrite HD|done].
Defined.

Lemma sub_is_add_of_negation_witness :
  StateSpace_.__sub__ sys_half OpOther = NotImplemented ∧
  ∃ s12, StateSpace_.__sub__ sys_half (OpSystem (IsSS sys_delay))
         = Some (Ok s12) ∧
    A s12 = Mat 2 [[half; 0%Qc]; [0%Qc; 0%Qc]] ∧
    B s12 = Mat 1 [[1%Qc]; [1%Qc]] ∧
    C s12 = Mat 2 [[1%Qc; (- 1)%Qc]] ∧
    ss_dom s12 = Discrete 1%Qc.
Proof.
  destruct (sub_is_add_of_negation sys_half sys_delay)
    as (Hother & _ & _ & _ & Hdiff); [compute_done..|].
  split; [by apply Hother|].
  destruct (Hdiff eq_refl eq_refl)
    as (s12 & Hsub & HA & HB & HC & HD & Hdom).
  exists s12. split; [done|].
  split; [by rewrite HA|].
  split; [by injection HB as <-|].
  split; [by injection HC as <-|done].
Defined.

Lemma rmul_scales_the_output_witness :
  StateSpace_.__rmul__ sys_half (OpArray (Arr2 (Mat 2 [[two; two]])))
  = Some (Raise ValueError) ∧
  ∃ s', StateSpace_.__rmul__ sys_half (OpArray (Arr2 gain2)) = Some (Ok s') ∧
    A s' = A sys_half ∧ B s' = B sys_half ∧
    C s' = Mat 1 [[two]] ∧ D s' = Mat 1 [[0%Qc]].
Proof.
  destruct (rmul_scales_the_output sys_half)
    as (_ & _ & _ & _ & Hbad & Hgood); [compute_done|].
  split; [apply Hbad; compute_done|].
  destruct (Hgood gain2 eq_refl)
    as (s' & Hmul & HA & HB & HC & HD & _).
  exists s'. do 3 (split; [done|]).
  split; [by injection HC as <-|by injection HD as <-].
Defined.

Lemma reflected_add_and_sub_witness :
  (∃ r, StateSpace_.__rsub__ sys_half (OpArray (Arr2 gain2)) = Some (Ok r) ∧
     A r = A sys_half ∧ B r = B sys_half ∧
     C r = Mat 1 [[(- 1)%Qc]] ∧ D r = Mat 1 [[two]]) ∧
  StateSpace_.__rsub__ sys_half (OpArray (Arr2 (Mat 2 [[two; two]])))
  = Some (Raise ValueError).
Proof.
  destruct (reflected_add_and_sub sys_half)
    as (_ & _ & Hgood & Hbad); [compute_done|].
  split; [|apply Hbad; compute_done].
  destruct (Hgood gain2) as (r & Hr & HA & HB & HC & HD & _);
    [compute_done..|].
  exists r. do 3 (split; [done|]).
  split; [by rewrite HC|].
  rewrite HD. compute_done.
Defined.

Lemma truediv_never_returns_witness :
  StateSpace_.__truediv__ sys_half (OpNumber two)
  = StateSpace_.__mul__ sys_half (OpNumber (/ two)%Qc) ∧
  StateSpace_.__truediv__ sys_half (OpNumber two) = Some (Raise TypeError).
Proof.
  destruct (truediv_never_returns sys_half) as (_ & _ & _ & _ & Hnum & _).
  apply (Hnum two). compute_done.
Defined.
